(** * byo-map-track-and-trace: routing core and geometry cleaner

    A shallow embedding of the Python sources

      - [kml-conversion/conversion/clean.py]  (module [Clean])
      - [routing/routing/prepare.py]          (module [Prepare])
      - [routing/routing/__init__.py]         (module [Routing])
      - [routing/routing/lambda_handler.py]   (module [LambdaHandler])

    Conventions of the embedding.

    - Coordinates are pairs of rationals; floating-point rounding is not
      modelled.  A pandas/GeoPandas table is the list of its rows, in row
      order.  A Python [dict] with string keys that is only read is an
      association list in insertion order; the networkx graph is a pair of
      finite maps.
    - Calls into shapely, pyproj, GeoPandas' spatial joins, osmnx, boto3 and
      the [json] parser are library calls: the functions below take them as
      arguments (Section variables, and the record [Env] for the handler),
      and the examples instantiate them with small exact kernels over the
      rationals (module [Sample]).
    - Python exceptions are values of [exn]; a computation that may raise
      lives in the [result] monad.

    The definitions come first; the facts about them follow in the modules
    [CleanFacts], [PrepareFacts], [RoutingFacts] and [HandlerFacts]. *)

From Stdlib Require Import ZArith QArith List String Ascii Bool Lia.
From Stdlib Require Import Qround Qabs DecimalString Permutation Sorted Lqa.
From stdpp Require Import base gmap strings.
Import ListNotations.

#[global] Set Warnings "-register-all".
Local Open Scope Z_scope.

(** ** Python-level plumbing *)

Module Py.

(** Exceptions: the handler's own [LambdaException(status, message)] and
    every other Python exception, kept by class name and message. *)
Inductive exn : Type :=
| LambdaException (status : Z) (message : string)
| PyError (kind : string) (message : string).

Inductive result (A : Type) : Type :=
| Ok (a : A)
| Raise (e : exn).
Arguments Ok {A} a.
Arguments Raise {A} e.

Definition bind {A B} (m : result A) (k : A -> result B) : result B :=
  match m with
  | Ok a => k a
  | Raise e => Raise e
  end.

(** What a library call does: it returns, or it throws an exception of
    the library (never a [LambdaException]). *)
Inductive lib (A : Type) : Type :=
| Returns (a : A)
| Throws (kind : string) (message : string).
Arguments Returns {A} a.
Arguments Throws {A} kind message.

Definition call {A} (r : lib A) : result A :=
  match r with
  | Returns a => Ok a
  | Throws k m => Raise (PyError k m)
  end.

End Py.

#[global] Instance result_ret : MRet Py.result := @Py.Ok.
#[global] Instance result_bind : MBind Py.result :=
  fun A B k m => Py.bind m k.


(** ** Decoded JSON values and [json.dumps] *)

Module Json.

(** What [json.loads] returns: [None], [bool], [int], [float], [str],
    [list] and [dict] (a [dict] keeps its keys in insertion order and holds
    each key once). *)
Inductive value : Type :=
| Null
| Bool (b : bool)
| Int (n : Z)
| Float (q : Q)
| Str (s : string)
| Arr (xs : list value)
| Obj (kvs : list (string * value)).

(** Python truthiness, as used by [filter(lambda x: x, ...)] and [if x:]. *)
Definition truthy (v : value) : bool :=
  match v with
  | Null => false
  | Bool b => b
  | Int n => negb (n =? 0)
  | Float q => negb (Qeq_bool q 0)
  | Str s => negb (String.eqb s "")
  | Arr xs => match xs with [] => false | _ => true end
  | Obj kvs => match kvs with [] => false | _ => true end
  end.

Fixpoint assoc (k : string) (kvs : list (string * value)) : option value :=
  match kvs with
  | [] => None
  | (k', v) :: kvs' => if String.eqb k k' then Some v else assoc k kvs'
  end.

(** [d.get(k, default)]; on a value that is no [dict] the attribute is
    missing. *)
Definition get (d : value) (k : string) (default : value) : Py.result value :=
  match d with
  | Obj kvs => Py.Ok (from_option id default (assoc k kvs))
  | _ => Py.Raise (Py.PyError "AttributeError" "get")
  end.

(** [d[k]] for a string key. *)
Definition getitem (d : value) (k : string) : Py.result value :=
  match d with
  | Obj kvs =>
      match assoc k kvs with
      | Some v => Py.Ok v
      | None => Py.Raise (Py.PyError "KeyError" ("'" +:+ k +:+ "'"))
      end
  | _ => Py.Raise (Py.PyError "TypeError" "subscript")
  end.

(** [k in d] *)
Definition contains (d : value) (k : string) : Py.result bool :=
  match d with
  | Obj kvs => Py.Ok (bool_decide (is_Some (assoc k kvs)))
  | Arr xs => Py.Ok (existsb (fun x => match x with Str s => String.eqb s k | _ => false end) xs)
  | Str s => Py.Ok (match index 0 k s with Some _ => true | None => false end)
  | _ => Py.Raise (Py.PyError "TypeError" "not iterable")
  end.

Definition quote : string := String (ascii_of_nat 34) EmptyString.
Definition backslash : string := String (ascii_of_nat 92) EmptyString.

Definition hex_digit (n : N) : ascii :=
  if (n <? 10)%N then ascii_of_N (48 + n) else ascii_of_N (87 + n).

(** One character of [py_encode_basestring_ascii]: the quote, the
    backslash and everything outside [' '..'~'] are escaped.  Strings are
    byte strings here, so every escape is of the form [\u00XX]. *)
Definition escape_char (c : ascii) : string :=
  let n := N_of_ascii c in
  if (n =? 34)%N then backslash +:+ quote
  else if (n =? 92)%N then backslash +:+ backslash
  else if (n =? 10)%N then backslash +:+ "n"
  else if (n =? 13)%N then backslash +:+ "r"
  else if (n =? 9)%N then backslash +:+ "t"
  else if (n =? 12)%N then backslash +:+ "f"
  else if (n =? 8)%N then backslash +:+ "b"
  else if ((32 <=? n) && (n <=? 126))%N then String c EmptyString
  else backslash +:+ "u00"
       +:+ String (hex_digit (n / 16)) (String (hex_digit (n mod 16)) EmptyString).

Fixpoint escape (s : string) : string :=
  match s with
  | EmptyString => EmptyString
  | String c s' => escape_char c +:+ escape s'
  end.

Definition encode_basestring (s : string) : string :=
  quote +:+ escape s +:+ quote.

Section Dumps.

(** [float.__repr__], the text [json.dumps] writes for a [float]. *)
Variable float_repr : Q -> string.

(** [json.dumps(v)] with the default separators and without [sort_keys]:
    the members of a [dict] are written in insertion order. *)
Fixpoint dumps (v : value) : string :=
  match v with
  | Null => "null"
  | Bool true => "true"
  | Bool false => "false"
  | Int n => NilZero.string_of_int (Z.to_int n)
  | Float q => float_repr q
  | Str s => encode_basestring s
  | Arr xs => "[" +:+ String.concat ", " (List.map dumps xs) +:+ "]"
  | Obj kvs =>
      "{" +:+ String.concat ", "
                (List.map (fun kv => match kv with
                                     | (k, x) => encode_basestring k +:+ ": " +:+ dumps x
                                     end) kvs)
          +:+ "}"
  end.

End Dumps.

End Json.

(** [a < b] on rationals, as a test. *)
Definition Qlt_bool (a b : Q) : bool := negb (Qle_bool b a).

(** [round(x, 2)]: to the nearest hundredth, ties to even. *)
Definition round2 (q : Q) : Q :=
  let t := (q * 100)%Q in
  let n := Qfloor t in
  let frac := (t - inject_Z n)%Q in
  let up :=
    match (frac ?= (1 # 2))%Q with
    | Lt => false
    | Gt => true
    | Eq => Z.odd n
    end in
  (inject_Z (if up then n + 1 else n) / 100)%Q.

(** Coordinates and coordinate sequences shared by all modules. *)
Definition Coord : Type := (Q * Q)%type.
Definition Coords : Type := list Coord.

(** Equality of two coordinate tuples. *)
Definition coord_eqb (a b : Coord) : bool :=
  Qeq_bool (fst a) (fst b) && Qeq_bool (snd a) (snd b).

(** ** shapely geometries *)

Module Shapely.

Record polygon : Type := mkPolygon {
  exterior : Coords;
  interiors : list Coords
}.

(** The shapely geometry classes.  A [Point] holds no coordinate
    ([POINT EMPTY]) or one; a [LineString] with no coordinate is
    [LINESTRING EMPTY].  [LinearRing] is a subclass of [LineString], so
    [isinstance(x, LineString)] holds for both. *)
Inductive Geometry : Type :=
| Point (c : Coords)
| LineString (cs : Coords)
| LinearRing (cs : Coords)
| Polygon (p : polygon)
| MultiPoint (cs : Coords)
| MultiLineString (ls : list Coords)
| MultiPolygon (ps : list polygon)
| GeometryCollection (gs : list Geometry).

Definition no_coords (cs : Coords) : bool :=
  match cs with [] => true | _ :: _ => false end.

(** [g.is_empty]; [bool(g)] is its negation. *)
Fixpoint is_empty (g : Geometry) : bool :=
  match g with
  | Point c => no_coords c
  | LineString cs => no_coords cs
  | LinearRing cs => no_coords cs
  | Polygon p => no_coords (exterior p)
  | MultiPoint cs => no_coords cs
  | MultiLineString ls => forallb no_coords ls
  | MultiPolygon ps => forallb (fun p => no_coords (exterior p)) ps
  | GeometryCollection gs => forallb is_empty gs
  end.

(** [g.coords]: multi-part geometries and polygons have none. *)
Definition coords (g : Geometry) : Py.result Coords :=
  match g with
  | Point c => Py.Ok c
  | LineString cs => Py.Ok cs
  | LinearRing cs => Py.Ok cs
  | _ => Py.Raise (Py.PyError "NotImplementedError" "coords")
  end.

(** Two coordinate sequences hold equal coordinates, one by one. *)
Fixpoint coords_eqb (a b : Coords) : bool :=
  match a, b with
  | [], [] => true
  | x :: a', y :: b' => coord_eqb x y && coords_eqb a' b'
  | _, _ => false
  end.

(** [h] is the line string [g] with its coordinates in reverse order. *)
Definition is_reversed (g h : Geometry) : bool :=
  match g, h with
  | LineString a, LineString b => coords_eqb (List.rev a) b
  | _, _ => false
  end.

(** [seq[0]] and [seq[-1]] *)
Definition first {A} (l : list A) : Py.result A :=
  match l with
  | x :: _ => Py.Ok x
  | [] => Py.Raise (Py.PyError "IndexError" "index out of range")
  end.

Definition last {A} (l : list A) : Py.result A :=
  match List.rev l with
  | x :: _ => Py.Ok x
  | [] => Py.Raise (Py.PyError "IndexError" "index out of range")
  end.

End Shapely.

(** * clean.py *)

Module Clean.

Import Shapely.

(** [sliver_threshold = 1e-10] *)
Definition sliver_threshold : Q := 1 # 10000000000.

Section Tweeze.

(** [Polygon(interior).area] for a ring (shapely). *)
Variable ring_area : Coords -> Q.

(** [p.area > sliver_threshold] *)
Definition keeps_hole (interior : Coords) : bool :=
  negb (Qle_bool (ring_area interior) sliver_threshold).

(** The [isinstance(geometry, Polygon)] branch of [tweeze]. *)
Definition tweeze_polygon (p : polygon) : polygon :=
  let holes := List.filter keeps_hole (interiors p) in
  mkPolygon (exterior p) holes.

Fixpoint tweeze (geometry : Geometry) : Geometry :=
  match geometry with
  | Polygon p => Polygon (tweeze_polygon p)
  | MultiPolygon ps => MultiPolygon (List.map tweeze_polygon ps)
  | GeometryCollection gs => GeometryCollection (List.map tweeze gs)
  | _ => geometry
  end.

End Tweeze.

Definition is_Polygon (g : Geometry) : bool :=
  match g with Polygon _ => true | _ => false end.

Definition is_LineString (g : Geometry) : bool :=
  match g with LineString _ | LinearRing _ => true | _ => false end.

(** The argument list of [MultiPolygon(polygons)]: every element of
    [polygons] passed the [isinstance(x, Polygon)] filter. *)
Fixpoint polygon_parts (gs : list Geometry) : list polygon :=
  match gs with
  | [] => []
  | Polygon p :: gs' => p :: polygon_parts gs'
  | _ :: gs' => polygon_parts gs'
  end.

(** Python truthiness of a list. *)
Definition truthy_list {A} (l : list A) : bool :=
  match l with [] => false | _ :: _ => true end.

Definition lint_roll (geometry : Geometry) : Geometry :=
  match geometry with
  | GeometryCollection gs =>
      let polygons := List.filter is_Polygon gs in
      let linestrings := List.filter is_LineString gs in
      if truthy_list polygons && truthy_list linestrings then
        if (1 <? Z.of_nat (List.length polygons)) then
          MultiPolygon (polygon_parts polygons)
        else
          match polygons with
          | p0 :: _ => p0
          | [] => geometry
          end
      else geometry
  | _ => geometry
  end.

(** *** [clean_geometries] *)

(** A GeoJSON feature as [geojson.load] gives it: [f["geometry"]] and
    [f["properties"]]. *)
Record Feature : Type := mkFeature {
  f_geometry : Json.value;
  f_properties : Json.value
}.

(** [sorted(xs, key=key)]: a stable sort on the [str] keys. *)
Fixpoint insert_by {A} (key : A -> string) (x : A) (l : list A) : list A :=
  match l with
  | [] => [x]
  | y :: l' =>
      if String.leb (key x) (key y) then x :: y :: l'
      else y :: insert_by key x l'
  end.

Fixpoint sorted {A} (key : A -> string) (l : list A) : list A :=
  match l with
  | [] => []
  | x :: l' => insert_by key x (sorted key l')
  end.

(** The order of [sorted]: the keys compare as [str]. *)
Definition key_le {A} (key : A -> string) (a b : A) : Prop :=
  String.leb (key a) (key b) = true.

(** [itertools.groupby(xs, key)]: runs of consecutive elements with equal
    keys. *)
Fixpoint groupby {A} (key : A -> string) (l : list A)
  : list (string * list A) :=
  match l with
  | [] => []
  | x :: l' =>
      match groupby key l' with
      | (k, xs) :: gs =>
          if String.eqb (key x) k then (k, x :: xs) :: gs
          else (key x, [x]) :: (k, xs) :: gs
      | [] => [(key x, [x])]
      end
  end.

Fixpoint filterM {A} (f : A -> Py.result bool) (l : list A)
  : Py.result (list A) :=
  match l with
  | [] => Py.Ok []
  | x :: l' =>
      b ← f x;
      r ← filterM f l';
      Py.Ok (if b : bool then x :: r else r)
  end.

Fixpoint mapM {A B} (f : A -> Py.result B) (l : list A)
  : Py.result (list B) :=
  match l with
  | [] => Py.Ok []
  | x :: l' =>
      y ← f x;
      r ← mapM f l';
      Py.Ok (y :: r)
  end.

Section CleanGeometries.

Variable float_repr : Q -> string.
Variable ring_area : Coords -> Q.
(** [make_valid(force_2d(shape(g)))] *)
Variable to_shape : Json.value -> Py.result Geometry.
Variable union_all : list Geometry -> Geometry.

Definition keyfunc (x : Feature) : string :=
  Json.dumps float_repr (f_properties x).

(** [x["properties"].get("visibility", True)] as a filter predicate. *)
Definition visible (x : Feature) : Py.result bool :=
  v ← Json.get (f_properties x) "visibility" (Json.Bool true);
  Py.Ok (Json.truthy v).

(** The iterator [grouped]. *)
Definition grouped (features : list Feature)
  : Py.result (list (string * list Feature)) :=
  kept ← filterM visible features;
  Py.Ok (groupby keyfunc (sorted keyfunc kept)).

(** One emitted feature: the text [k] that [json.loads] turns back into
    the properties, and the cleaned geometry. *)
Definition clean_group (g : string * list Feature)
  : Py.result (string * Geometry) :=
  geometries ← mapM (fun f => to_shape (f_geometry f)) (snd g);
  let unioned := union_all geometries in
  let tweezed := tweeze ring_area unioned in
  let rolled := lint_roll tweezed in
  Py.Ok (fst g, rolled).

(** The features written between the envelope lines, in order. *)
Definition clean_geometries (features : list Feature)
  : Py.result (list (string * Geometry)) :=
  gs ← grouped features;
  mapM clean_group gs.

End CleanGeometries.

(** Two property mappings are equal as mappings: they hold the same value
    under every key, in whatever order the keys were inserted. *)
Definition same_mapping (p q : Json.value) : Prop :=
  match p, q with
  | Json.Obj a, Json.Obj b => forall k, Json.assoc k a = Json.assoc k b
  | _, _ => p = q
  end.

(** Grouping by the mapping itself: any two visible features with equal
    property mappings lie in one group. *)
Definition groups_by_mapping (float_repr : Q -> string)
  (features : list Feature) : Prop :=
  forall gs f1 f2,
    grouped float_repr features = Py.Ok gs ->
    In f1 features -> In f2 features ->
    visible f1 = Py.Ok true -> visible f2 = Py.Ok true ->
    same_mapping (f_properties f1) (f_properties f2) ->
    exists k fs, In (k, fs) gs /\ In f1 fs /\ In f2 fs.

(** ** The rings of a geometry *)


(** The interior rings of the polygons of a geometry, in order. *)
Fixpoint holes (g : Geometry) : list Coords :=
  match g with
  | Polygon p => interiors p
  | MultiPolygon ps => List.flat_map interiors ps
  | GeometryCollection gs => List.flat_map holes gs
  | _ => []
  end.

(** The visibility filter as a test: a feature passes when the filter
    predicate returns a truthy value. *)
Definition is_visible (x : Feature) : bool :=
  match visible x with
  | Py.Ok b => b
  | Py.Raise _ => false
  end.

(** [a < b] on [str]. *)
Definition str_lt (a b : string) : Prop :=
  String.leb a b = true /\ a <> b.

End Clean.

(** * routing/prepare.py *)

Module Prepare.

Import Shapely.

(** ** [cluster]

    The tables of [cluster] are grouped and re-grouped on the text of
    lists and sets of row numbers.  Here a list of row numbers stands for
    its text, and a set is kept as an increasing list.  The order in which
    pandas lists the groups is not modelled: the last step groups the rows
    by [(x, y)], which sorts them and drops repeated pairs, so the node
    table does not depend on it. *)

Definition Qsum (l : list Q) : Q := fold_right Qplus 0%Q l.

(** The aggregation ["mean"] of a column. *)
Definition Qmean (l : list Q) : Q :=
  Qred (Qsum l / inject_Z (Z.of_nat (List.length l))).

(** Rows with their positional index, as after [reset_index(drop=True)]. *)
Definition enumerate {A} (l : list A) : list (nat * A) :=
  combine (seq 0 (List.length l)) l.

(** A set of vertex indexes, kept as an increasing list. *)
Fixpoint set_add (n : nat) (s : list nat) : list nat :=
  match s with
  | [] => [n]
  | m :: s' =>
      if (n <? m)%nat then n :: m :: s'
      else if (n =? m)%nat then m :: s'
      else m :: set_add n s'
  end.

Definition to_set (l : list nat) : list nat := fold_right set_add [] l.

Definition list_eqb (a b : list nat) : bool :=
  bool_decide (a = b).

(** The distinct values of a column of lists, each once. *)
Fixpoint distinct (l : list (list nat)) : list (list nat) :=
  match l with
  | [] => []
  | x :: l' =>
      if existsb (list_eqb x) l' then distinct l' else x :: distinct l'
  end.

Definition coord_leb (a b : Coord) : bool :=
  Qlt_bool (fst a) (fst b) || (Qeq_bool (fst a) (fst b) && Qle_bool (snd a) (snd b)).

(** The keys of [groupby(by=["x", "y"])]: each distinct pair once, in
    increasing order. *)
Fixpoint uniq_insert (c : Coord) (l : list Coord) : list Coord :=
  match l with
  | [] => [c]
  | d :: l' =>
      if coord_eqb c d then d :: l'
      else if coord_leb c d then c :: d :: l'
      else d :: uniq_insert c l'
  end.

Definition uniq_coords (l : list Coord) : list Coord :=
  fold_right uniq_insert [] l.

Section Cluster.

(** [to_crs(intermediate_crs)] on the point at a coordinate.  Only the
    geometry column is transformed: the columns [x] and [y] keep the
    values they had. *)
Variable project : Coord -> Coord.
(** The threshold, in units of the projection; it is not negative. *)
Variable threshold : Q.

(** The square of the distance between two projected points. *)
Definition dist2 (p q : Coord) : Q :=
  ((fst p - fst q) * (fst p - fst q) + (snd p - snd q) * (snd p - snd q))%Q.

Fixpoint least (l : list Q) : option Q :=
  match l with
  | [] => None
  | d :: l' =>
      match least l' with
      | Some m => Some (if Qle_bool d m then d else m)
      | None => Some d
      end
  end.

(** The right-hand rows that [gpd.sjoin_nearest(t, t, max_distance=threshold,
    exclusive=True)] joins to the left-hand row at [pa]: among the points
    that are not equal to [pa], those at the least distance, if that is
    within [threshold].  They are listed by increasing index. *)
Definition nearest (transformed : list Coord) (pa : Coord) : list nat :=
  let others :=
    List.filter (fun ib => negb (coord_eqb (snd ib) pa)) (enumerate transformed) in
  match least (List.map (fun ib => dist2 pa (snd ib)) others) with
  | None => []
  | Some m =>
      if Qle_bool m (threshold * threshold) then
        List.map fst
          (List.filter (fun ib => Qeq_bool (dist2 pa (snd ib)) m) others)
      else []
  end.

(** [dest_groups]: for every [a] that has a pair, the list of its [b]. *)
Definition dest_groups (transformed : list Coord) : list (nat * list nat) :=
  List.filter (fun ab => match snd ab with [] => false | _ => true end)
    (List.map (fun ia => (fst ia, nearest transformed (snd ia)))
              (enumerate transformed)).

(** [origin_groups]: one set of vertices per distinct list [b], holding
    the [a] that share this list and the members of the list. *)
Definition origin_groups (dest : list (nat * list nat)) : list (list nat) :=
  List.map
    (fun b =>
       let a := List.map fst (List.filter (fun ab => list_eqb (snd ab) b) dest) in
       to_set (a ++ b))
    (distinct (List.map snd dest)).

(** [clusters]: the distinct vertex sets. *)
Definition clusters (coords : list Coord) : list (list nat) :=
  distinct (origin_groups (dest_groups (List.map project coords))).

(** The row of [transformed_coords] that [join(..., on="vertex")] finds:
    its columns [x] and [y]. *)
Definition xy_of (coords : list Coord) (vertex : nat) : Coord :=
  nth vertex coords (0%Q, 0%Q).

(** A row of [clustered]: the means of the members' [x] and [y]. *)
Definition centroid (coords : list Coord) (vertices : list nat) : Coord :=
  (Qmean (List.map (fun i => fst (xy_of coords i)) vertices),
   Qmean (List.map (fun i => snd (xy_of coords i)) vertices)).

Definition non_clustered (coords : list Coord) (cl : list (list nat))
  : list Coord :=
  List.map snd
    (List.filter
       (fun ic => negb (existsb (fun vs => existsb (Nat.eqb (fst ic)) vs) cl))
       (enumerate coords)).

(** [cluster(coords, intermediate_crs, threshold)]: the node table, whose
    row number is the [node_id]; [point_geom] is the point at [(x, y)]. *)
Definition cluster (coords : list Coord) : list Coord :=
  let cl := clusters coords in
  let clustered :=
    List.flat_map (fun vs => List.map (fun _ => centroid coords vs) vs) cl in
  uniq_coords (clustered ++ non_clustered coords cl).

End Cluster.

(** The representative a cluster would have if the projected coordinates
    of its members were averaged and the mean projected back. *)
Definition reprojected_centroid (project inv_project : Coord -> Coord)
  (coords : list Coord) (vertices : list nat) : Coord :=
  inv_project (centroid (List.map project coords) vertices).


(** [get_coords]: the coordinates of the lines, line by line.  The lines
    are the parts that noding and merging the input leaves. *)
Definition get_coords (lines : list Coords) : list Coord := List.concat lines.

Definition make_nodes (project : Coord -> Coord) (threshold : Q)
  (lines : list Coords) : list Coord :=
  cluster project threshold (cluster project threshold (get_coords lines)).

(** ** [make_edges] *)

(** A row of the edge table of [make_edges].  An end of a segment that no
    node matches has no id ([NaN] after the join). *)
Record Edge : Type := mkEdge {
  u : option Z;
  v : option Z;
  key : Z;
  geometry : Geometry;
  length : Q
}.

(** [list(coords).index(c)] *)
Fixpoint index_of (c : Coord) (l : Coords) : nat :=
  match l with
  | [] => 0
  | d :: l' => if coord_eqb d c then 0 else S (index_of c l')
  end.

(** [coords[start : end + 1]] *)
Definition slice (coords : Coords) (start stop : nat) : Coords :=
  firstn (stop + 1 - start) (skipn start coords).

Fixpoint pairwise (splits : list nat) : list (nat * nat) :=
  match splits with
  | a :: ((b :: _) as rest) => (a, b) :: pairwise rest
  | _ => []
  end.

(** The coordinates [fn] cuts: the line with the substitutions applied,
    in the order in which the set [substitutions] is iterated. *)
Definition substituted (geom : Coords) (substitutions : list (nat * Coord))
  : Coords :=
  fold_left (fun cs s => <[fst s := snd s]> cs) substitutions geom.

(** The list of which [fn] takes the set:
    [[0] + [i for (i, s) in substitutions] + [len(coords) - 1]]. *)
Definition split_positions (geom : Coords)
  (substitutions : list (nat * Coord)) : list nat :=
  [0%nat] ++ List.map fst substitutions
          ++ [(List.length (substituted geom substitutions) - 1)%nat].

(** The inner function [fn]: substitute, then cut at the split
    positions.  [splits = list(set(...))] holds the positions in the order
    in which Python iterates the set, which is the order of its hash
    table and not always the increasing one; [set_order l] is
    [list(set(l))]. *)
Definition fn (set_order : list nat -> list nat) (geom : Coords)
  (substitutions : list (nat * Coord)) : list Coords :=
  let coords := substituted geom substitutions in
  let splits := set_order (split_positions geom substitutions) in
  if (List.length splits =? 2)%nat then [coords]
  else List.map (fun se => slice coords (fst se) (snd se)) (pairwise splits).

(** Not-equal on ids, [NaN] being unequal to everything. *)
Definition ne (a b : option Z) : bool :=
  match a, b with
  | Some x, Some y => negb (x =? y)
  | _, _ => true
  end.

Definition reversed_edge (e : Edge) : Edge :=
  mkEdge (v e) (u e) 1 (geometry e) (length e).

Section MakeEdges.

Variable project : Coord -> Coord.
Variable utm_length : Geometry -> Q.
Variable threshold : Q.

(** Iteration of Python sets: [set_order l] is [list(set(l))] for a list
    of positions, and [substitution_order l] lists the members of the set
    that the aggregation [set] makes of the rows [l], in the order in
    which the loop of [fn] meets them. *)
Variable set_order : list nat -> list nat.
Variable substitution_order : list (nat * Coord) -> list (nat * Coord).

(** [predicate="dwithin", distance=threshold] between a coordinate of a
    line and a node. *)
Definition dwithin (c n : Coord) : bool :=
  Qle_bool (dist2 (project c) (project n)) (threshold * threshold).

(** The rows of [pairs] for one line, each with its value in the column
    [substitutions]. *)
Definition pairs_of (nodes : list Coord) (line : Coords)
  : list (nat * Coord) :=
  List.flat_map
    (fun c =>
       List.map (fun n => (index_of c line, n))
                (List.filter (dwithin c) nodes))
    line.

(** The column [substitutions] of [with_substitutions] for one line. *)
Definition substitutions_of (nodes : list Coord) (line : Coords)
  : list (nat * Coord) :=
  substitution_order (pairs_of nodes line).

(** The join on [(x, y)] with the node table. *)
Definition node_at (nodes : list Coord) (c : Coord) : option Z :=
  match List.filter (fun ic => coord_eqb (snd ic) c) (enumerate nodes) with
  | ic :: _ => Some (Z.of_nat (fst ic))
  | [] => None
  end.

Definition segment_edge (nodes : list Coord) (piece : Coords)
  : Py.result Edge :=
  first ← Shapely.first piece;
  last ← Shapely.last piece;
  let g := LineString piece in
  Py.Ok (mkEdge (node_at nodes first) (node_at nodes last) 0 g
                (round2 (utm_length g))).

(** The rows of [with_substitutions]: a line is present when one of its
    coordinates is paired with a node.  A row whose list of pieces is empty
    leaves a missing value in [segments], which has no [coords]. *)
Definition pieces_of (nodes : list Coord) (line : Coords)
  : Py.result (list Coords) :=
  match pairs_of nodes line with
  | [] => Py.Ok []
  | _ :: _ =>
      match fn set_order line (substitutions_of nodes line) with
      | [] => Py.Raise (Py.PyError "AttributeError" "coords")
      | pieces => Py.Ok pieces
      end
  end.

Definition make_edges (lines : list Coords) (nodes : list Coord)
  : Py.result (list Edge) :=
  pieces ← Clean.mapM (pieces_of nodes) lines;
  let segments := List.concat pieces in
  edges ← Clean.mapM (segment_edge nodes) segments;
  let edges := List.filter (fun e => ne (u e) (v e)) edges in
  let reversed_edges := List.map reversed_edge edges in
  Py.Ok (edges ++ reversed_edges).

End MakeEdges.

(** Edge pairing as [make_edges] builds it: every [key = 0] row [(u, v)]
    has a [key = 1] row [(v, u)] with the same geometry and length. *)
Definition paired (rows : list Edge) : Prop :=
  forall r, In r rows -> key r = 0 ->
    exists r', In r' rows /\ key r' = 1 /\ u r' = v r /\ v r' = u r
               /\ geometry r' = geometry r /\ length r' = length r.


(** [a < b] on coordinate pairs, compared as tuples. *)
Definition coord_lt (a b : Coord) : Prop :=
  coord_leb a b = true /\ coord_eqb a b = false.

(** No two distinct points of [coords] are within [threshold] of each
    other after projection. *)
Definition separated (project : Coord -> Coord) (threshold : Q)
  (coords : list Coord) : Prop :=
  forall a b,
    In a coords -> In b coords ->
    coord_eqb (project b) (project a) = false ->
    Qle_bool (dist2 (project a) (project b)) (threshold * threshold) = false.

(** Edge pairing with the geometry of the [key = 1] row reversed. *)
Definition paired_reversed (rows : list Edge) : Prop :=
  forall r, In r rows -> key r = 0 ->
    exists r', In r' rows /\ key r' = 1 /\ u r' = v r /\ v r' = u r
               /\ is_reversed (geometry r) (geometry r') = true
               /\ Qeq (length r') (length r).

End Prepare.

(** * routing/__init__.py *)

Module Routing.

Import Shapely.

(** The [(u, v, key)] index of an edge table. *)
Abbreviation Index := (Z * Z * Z)%type.

(** A row of an edge table: its index and the two attribute columns. *)
Record EdgeRow : Type := mkEdge {
  e_u : Z;
  e_v : Z;
  e_key : Z;
  e_geometry : Geometry;
  e_length : Q
}.

Definition index (r : EdgeRow) : Index := (e_u r, e_v r, e_key r).

(** A row of a node table, indexed by [osmid]. *)
Record NodeRow : Type := mkNode {
  n_osmid : Z;
  n_x : Q;
  n_y : Q;
  n_geometry : Geometry
}.

(** An insertion-ordered [dict] whose keys are node ids. *)
Definition has_key {A} (n : Z) (d : list (Z * A)) : bool :=
  existsb (fun x => fst x =? n) d.

(** [d[n]], with [dflt] for a key that is missing. *)
Definition get {A} (n : Z) (dflt : A) (d : list (Z * A)) : A :=
  match List.find (fun x => fst x =? n) d with
  | Some x => snd x
  | None => dflt
  end.

(** [if n not in d: d[n] = a] *)
Definition setdefault {A} (n : Z) (a : A) (d : list (Z * A)) : list (Z * A) :=
  if has_key n d then d else d ++ [(n, a)].

(** [d[n] = f(d[n])] for a key that is present; its position is kept. *)
Definition adjust {A} (n : Z) (f : A -> A) (d : list (Z * A)) : list (Z * A) :=
  List.map (fun x => if fst x =? n then (fst x, f (snd x)) else x) d.

(** The adjacency [G._succ]: every node in the order in which the nodes
    were added, with its neighbours in the order in which a first edge to
    them was added, each with the keys of the edges to it in the order in
    which they were added.  This is the order in which [G.edges] is
    iterated. *)
Abbreviation Succ := (list (Z * list (Z * list Z)))%type.

(** The networkx [MultiDiGraph]: node attributes (a node that only occurs
    as an edge endpoint has none), edge attributes by [(u, v, key)], and
    the order of the adjacency. *)
Record Graph : Type := mkGraph {
  g_nodes : gmap Z (option (Q * Q * Geometry));
  g_edges : gmap Index (Geometry * Q);
  g_succ : Succ
}.

Definition empty_graph : Graph := mkGraph ∅ ∅ [].

Definition add_endpoint (n : Z) (m : gmap Z (option (Q * Q * Geometry)))
  : gmap Z (option (Q * Q * Geometry)) :=
  match m !! n with
  | Some _ => m
  | None => <[n := None]> m
  end.

(** [if n not in self._succ: self._succ[n] = {}] *)
Definition succ_add_node (n : Z) (succ : Succ) : Succ := setdefault n [] succ.

(** The adjacency after [add_edge(u, v, key)]: both ends are added as
    nodes, [u] first; a first edge to [v] appends [v] to the neighbours of
    [u]; a new key is appended to the keys of [(u, v)]. *)
Definition succ_add_edge (u v key : Z) (succ : Succ) : Succ :=
  adjust u
    (fun nbrs =>
       adjust v
         (fun keys => if existsb (Z.eqb key) keys then keys else keys ++ [key])
         (setdefault v [] nbrs))
    (succ_add_node v (succ_add_node u succ)).

(** The keys of the edges from [u] to [v], [self._adj[u][v]]. *)
Definition keys_of (succ : Succ) (u v : Z) : list Z := get v [] (get u [] succ).

(** [G.edges(keys=True)] in iteration order. *)
Definition out_edges (G : Graph) : list Index :=
  List.flat_map
    (fun n =>
       List.flat_map
         (fun nbr => List.map (fun k => (fst n, fst nbr, k)) (snd nbr))
         (snd n))
    (g_succ G).

(** [G.add_edge(u, v, key=k, **data)] *)
Definition add_edge (G : Graph) (r : EdgeRow) : Graph :=
  mkGraph (add_endpoint (e_v r) (add_endpoint (e_u r) (g_nodes G)))
          (<[index r := (e_geometry r, e_length r)]> (g_edges G))
          (succ_add_edge (e_u r) (e_v r) (e_key r) (g_succ G)).

Definition set_node (G : Graph) (r : NodeRow) : Graph :=
  mkGraph (<[n_osmid r := Some (n_x r, n_y r, n_geometry r)]> (g_nodes G))
          (g_edges G)
          (succ_add_node (n_osmid r) (g_succ G)).

(** [ox.convert.graph_from_gdfs(nodes, edges)]: the edges are added in row
    order, each under the key of its row, then the nodes that no edge has
    (in table order here; the library takes them from a set), then the
    node attributes are set.  (The validation osmnx runs on its arguments
    is not modelled.) *)
Definition graph_from_gdfs (nodes : list NodeRow) (edges : list EdgeRow)
  : Graph :=
  foldl set_node (foldl add_edge empty_graph edges) nodes.

(** The edge attributes after adding the rows, in order, to [m]. *)
Definition edge_map (m : gmap Index (Geometry * Q)) (rows : list EdgeRow)
  : gmap Index (Geometry * Q) :=
  foldl (fun m r => <[index r := (e_geometry r, e_length r)]> m) m rows.

(** The loop [while key in keydict: key += 1] of [new_edge_key]. *)
Fixpoint first_free (fuel : nat) (key : Z) (keydict : list Z) : Z :=
  match fuel with
  | O => key
  | S fuel' =>
      if existsb (Z.eqb key) keydict then first_free fuel' (key + 1) keydict
      else key
  end.

(** [G.new_edge_key(u, v)]: 0 when there is no edge from [u] to [v], else
    the least integer from [len(keydict)] on that is not a key of one. *)
Definition new_edge_key (G : Graph) (u v : Z) : Z :=
  let keydict := keys_of (g_succ G) u v in
  first_free (S (List.length keydict)) (Z.of_nat (List.length keydict)) keydict.

(** [G.add_edges_from([(u, v, data)])] for a tuple that carries no key:
    [add_edge] is called with [key=None] and takes [new_edge_key(u, v)]. *)
Definition add_edge_fresh (G : Graph) (u v : Z) (data : Geometry * Q) : Graph :=
  let key := new_edge_key G u v in
  mkGraph (add_endpoint v (add_endpoint u (g_nodes G)))
          (<[(u, v, key) := data]> (g_edges G))
          (succ_add_edge u v key (g_succ G)).

(** One tuple [(u, v, data)] of [H.edges.data()], for the edge of [H] with
    the index [i], in [G.add_edges_from]. *)
Definition add_edge_of (H G : Graph) (i : Index) : Graph :=
  match g_edges H !! i with
  | Some data => add_edge_fresh G (fst (fst i)) (snd (fst i)) data
  | None => G
  end.

(** [G.update(H)] for a graph [H]:
    [G.add_nodes_from(H.nodes.data())], where attributes that [H] carries
    replace those of [G], then [G.add_edges_from(H.edges.data())].
    [H.edges.data()] yields [(u, v, data)] without the key, in the order of
    [H.edges], so that every edge of [H] enters [G] under a fresh key and
    not under the key it has in [H]. *)
Definition update (G H : Graph) : Graph :=
  let with_nodes :=
    mkGraph
      (union_with (fun h g => Some (match h with Some a => Some a | None => g end))
                  (g_nodes H) (g_nodes G))
      (g_edges G)
      (foldl (fun succ n => succ_add_node n succ) (g_succ G)
             (List.map fst (g_succ H))) in
  foldl (add_edge_of H) with_nodes (out_edges H).

(** The two ends of a row. *)
Definition ends (r : EdgeRow) : Z * Z := (e_u r, e_v r).

(** The row as [update] enters it in the graph when no edge runs from
    its [u] to its [v] yet: under key 0. *)
Definition rekeyed (r : EdgeRow) : EdgeRow :=
  mkEdge (e_u r) (e_v r) 0 (e_geometry r) (e_length r).

(** Every edge of the graph joins two nodes that a row of the table
    joins in the same direction. *)
Definition covers (edges : list EdgeRow) (G : Graph) : Prop :=
  forall a b k,
    is_Some (g_edges G !! (a, b, k)) \/ In k (keys_of (g_succ G) a b) ->
    exists r, In r edges /\ e_u r = a /\ e_v r = b.

Definition index_eqb (i j : Index) : bool :=
  match i, j with
  | (a, b, c), (a', b', c') => (a =? a') && (b =? b') && (c =? c')
  end.

(** Tuple comparison [i <= j]. *)
Definition index_leb (i j : Index) : bool :=
  match i, j with
  | (a, b, c), (a', b', c') =>
      (a <? a') || ((a =? a') && ((b <? b') || ((b =? b') && (c <=? c'))))
  end.

(** [edges.index.max()]: the greatest index tuple. *)
Fixpoint index_max (edges : list EdgeRow) : option Index :=
  match edges with
  | [] => None
  | r :: rest =>
      match index_max rest with
      | None => Some (index r)
      | Some m => Some (if index_leb m (index r) then index r else m)
      end
  end.

(** [max(t)] for a tuple [t = (u, v, key)]. *)
Definition tuple_max (i : Index) : Z :=
  match i with (a, b, c) => Z.max (Z.max a b) c end.

(** [Point.x], [Point.y] *)
Definition point_xy (p : Geometry) : Py.result Coord :=
  match p with
  | Point [c] => Py.Ok c
  | _ => Py.Raise (Py.PyError "ValueError" "not a point")
  end.

(** [LineString([a, b])] for two points. *)
Definition line_between (a b : Geometry) : Py.result Geometry :=
  ca ← point_xy a;
  cb ← point_xy b;
  Py.Ok (LineString [ca; cb]).

(** [df.rename(columns={"u": "v", "v": "u"})] followed by [df["key"] = 1]:
    the node ids change places, the other columns are kept as they are. *)
Definition reversed_row (r : EdgeRow) : EdgeRow :=
  mkEdge (e_v r) (e_u r) 1 (e_geometry r) (e_length r).


(** Edge pairing in an edge table: every [key = 0] row [(u, v)] has a
    [key = 1] row [(v, u)] with the same geometry and length. *)
Definition paired (rows : list EdgeRow) : Prop :=
  forall r, In r rows -> e_key r = 0 ->
    exists r', In r' rows /\ e_key r' = 1 /\ e_u r' = e_v r /\ e_v r' = e_u r
               /\ e_geometry r' = e_geometry r /\ e_length r' = e_length r.

(** Edge pairing in a graph. *)
Definition graph_paired (G : Graph) : Prop :=
  forall a b attrs,
    g_edges G !! (a, b, 0) = Some attrs -> g_edges G !! (b, a, 1) = Some attrs.

(** The invariants of an edge table of the data model: node ids are not
    negative, no row is a self-edge, keys are 0 or 1, and every row has a
    row that runs the other way. *)
Definition well_formed (edges : list EdgeRow) : bool :=
  forallb
    (fun r =>
       (0 <=? e_u r) && (0 <=? e_v r) && negb (e_u r =? e_v r)
       && ((e_key r =? 0) || (e_key r =? 1))
       && existsb (fun r' => (e_u r' =? e_v r) && (e_v r' =? e_u r)) edges)
    edges.

(** [m] is the greatest node id in use in an edge table. *)
Definition greatest_id (edges : list EdgeRow) (m : Z) : Prop :=
  (exists r, In r edges /\ (e_u r = m \/ e_v r = m))
  /\ (forall r, In r edges -> e_u r <= m /\ e_v r <= m).

Section SplitGraph.

(** Distance between two geometries in the [utm] CRS; a geometry that is
    empty has none. *)
Variable utm_distance : Geometry -> Geometry -> option Q.
(** [line.line_locate_point(p, normalized=True)] *)
Variable line_locate_point : Geometry -> Geometry -> Py.lib Q.
(** [line.interpolate(d, normalized=True)] *)
Variable interpolate : Geometry -> Q -> Py.lib Geometry.
(** [shapely.ops.substring(line, a, b, normalized=True)] *)
Variable substring : Geometry -> Q -> Q -> Py.lib Geometry.
(** [gdf.to_crs(utm).length] of one geometry *)
Variable utm_length : Geometry -> Q.

Fixpoint min_distance (target : Geometry) (edges : list EdgeRow) : option Q :=
  match edges with
  | [] => None
  | r :: rest =>
      match utm_distance target (e_geometry r), min_distance target rest with
      | Some d, Some m => Some (if Qle_bool d m then d else m)
      | Some d, None => Some d
      | None, m => m
      end
  end.

Definition is_nearest (target : Geometry) (edges : list EdgeRow) (r : EdgeRow)
  : bool :=
  match utm_distance target (e_geometry r), min_distance target edges with
  | Some d, Some m => Qle_bool d m
  | _, _ => false
  end.

(** [gpd.sjoin_nearest(target, edges)[["u", "v", "key"]]]: the indexes of
    the rows at the least distance (all of them on a tie). *)
Definition sjoin_nearest (target : Geometry) (edges : list EdgeRow)
  : list Index :=
  List.map index (List.filter (is_nearest target edges) edges).

(** [edges.join(candidates.set_index(["u", "v", "key"]), how="inner")]:
    the rows of [edges], in their order, whose index is among the
    candidates'. *)
Definition join_candidates (edges : list EdgeRow) (candidates : list Index)
  : list EdgeRow :=
  List.filter (fun r => existsb (index_eqb (index r)) candidates) edges.

(** [new_edges["length"] = round(new_edges.to_crs(utm).length, 2)] *)
Definition with_length (uvg : Z * Z * Geometry) : EdgeRow :=
  match uvg with
  | (a, b, g) => mkEdge a b 0 g (round2 (utm_length g))
  end.

Definition split_graph (G : Graph) (target : Geometry) (edges : list EdgeRow)
  : Py.result (Z * list EdgeRow * Geometry * Graph) :=
  let candidates := join_candidates edges (sjoin_nearest target edges) in
  node_id ← match index_max edges with
            | Some m => Py.Ok (tuple_max m + 1)
            | None => Py.Raise (Py.PyError "TypeError" "max of an empty index")
            end;
  txy ← point_xy target;
  let new_nodes := [mkNode node_id (fst txy) (snd txy) target] in
  edge ← Shapely.first candidates;
  let closest_line := e_geometry edge in
  normalized_distance ← Py.call (line_locate_point closest_line target);
  point_on_line ← Py.call (interpolate closest_line normalized_distance);
  '(new_nodes, new_edges) ←
    (if Qlt_bool 0 normalized_distance && Qlt_bool normalized_distance 1 then
       left ← Py.call (substring closest_line 0 normalized_distance);
       right ← Py.call (substring closest_line normalized_distance 1);
       let intermediate_node_id := node_id + 1 in
       pxy ← point_xy point_on_line;
       connector ← line_between point_on_line target;
       Py.Ok (new_nodes
                ++ [mkNode intermediate_node_id (fst pxy) (snd pxy) point_on_line],
              [(e_u edge, intermediate_node_id, left);
               (intermediate_node_id, e_v edge, right);
               (intermediate_node_id, node_id, connector)])
     else if Qle_bool normalized_distance 0 then
       connector ← line_between point_on_line target;
       Py.Ok (new_nodes, [(e_u edge, node_id, connector)])
     else
       connector ← line_between point_on_line target;
       Py.Ok (new_nodes, [(e_v edge, node_id, connector)]));
  let new_edges := List.map with_length new_edges in
  let reversed_new_edges := List.map reversed_row new_edges in
  let all_new_edges := new_edges ++ reversed_new_edges in
  let G' := update G (graph_from_gdfs new_nodes all_new_edges) in
  Py.Ok (node_id, edges ++ all_new_edges, target, G').

End SplitGraph.

End Routing.

(** * routing/lambda_handler.py *)

Module LambdaHandler.

Import Shapely Routing.

(** ** [parse_arn] *)

(** [s.split(sep, maxsplit)] for a one-character separator. *)
Fixpoint split_max (sep : ascii) (maxsplit : nat) (s : string) : list string :=
  match s with
  | EmptyString => [EmptyString]
  | String c s' =>
      match maxsplit with
      | O => [s]
      | S n =>
          if Ascii.eqb c sep then EmptyString :: split_max sep n s'
          else
            match split_max sep maxsplit s' with
            | h :: t => String c h :: t
            | [] => [String c EmptyString]
            end
      end
  end.

(** [s.split(sep)[0]] *)
Fixpoint before (sep : ascii) (s : string) : string :=
  match s with
  | EmptyString => EmptyString
  | String c s' => if Ascii.eqb c sep then EmptyString else String c (before sep s')
  end.

(** [sep in s] for a one-character [sep]. *)
Fixpoint has_char (sep : ascii) (s : string) : bool :=
  match s with
  | EmptyString => false
  | String c s' => Ascii.eqb c sep || has_char sep s'
  end.

Record ArnComponents : Type := mkArn {
  arn_arn : string;
  arn_partition : string;
  arn_service : string;
  arn_region : string;
  arn_account : string;
  arn_resource : string;
  arn_resource_type : option string
}.

Definition colon : ascii := ascii_of_nat 58.
Definition slash : ascii := ascii_of_nat 47.
Definition hash : ascii := ascii_of_nat 35.

(** [parse_arn(arn)] for a [str]; fewer than six elements make
    [elements[k]] fail. *)
Definition parse_arn_str (arn : string) : Py.result ArnComponents :=
  match split_max colon 5 arn with
  | [e0; e1; e2; e3; e4; e5] =>
      let result := mkArn e0 e1 e2 e3 e4 e5 None in
      if has_char slash e5 then
        match split_max slash 1 e5 with
        | [t; r] => Py.Ok (mkArn e0 e1 e2 e3 e4 r (Some t))
        | _ => Py.Ok result
        end
      else if has_char colon e5 then
        match split_max colon 1 e5 with
        | [t; r] => Py.Ok (mkArn e0 e1 e2 e3 e4 r (Some t))
        | _ => Py.Ok result
        end
      else Py.Ok result
  | _ => Py.Raise (Py.PyError "IndexError" "list index out of range")
  end.

(** [parse_arn(arn)] for whatever the request holds under ["Arn"]: only a
    [str] has [split]. *)
Definition parse_arn (arn : Json.value) : Py.result ArnComponents :=
  match arn with
  | Json.Str a => parse_arn_str a
  | _ => Py.Raise (Py.PyError "AttributeError" "split")
  end.

(** How often [sep] occurs in [s]. *)
Fixpoint count_char (sep : ascii) (s : string) : nat :=
  match s with
  | EmptyString => 0
  | String c s' => (if Ascii.eqb c sep then 1 else 0) + count_char sep s'
  end.

(** The text after the fifth colon of an ARN, as [parse_arn] takes it
    apart: the resource alone, or type and resource around the first
    slash, or else around the first colon. *)
Definition arn_tail (c : ArnComponents) (rest : string) : Prop :=
  match arn_resource_type c with
  | None =>
      rest = arn_resource c
      /\ has_char slash rest = false /\ has_char colon rest = false
  | Some t =>
      (rest = t +:+ "/" +:+ arn_resource c /\ has_char slash t = false)
      \/ (rest = t +:+ ":" +:+ arn_resource c
          /\ has_char slash rest = false /\ has_char colon t = false)
  end.

(** ** [remap_missing_nodes] *)

Definition mem (n : Z) (l : list Z) : bool := existsb (Z.eqb n) l.

(** The inner function [remap], with the closure cell
    [current_missing_node_id] passed in and out. *)
Definition remap (removed_nodes : list Z) (row : Index)
  (current_missing_node_id : Z) : Index * Z :=
  match row with
  | (u, v, key) =>
      let '(u, current_missing_node_id) :=
        if mem u removed_nodes
        then (current_missing_node_id, current_missing_node_id + 1)
        else (u, current_missing_node_id) in
      let '(v, current_missing_node_id) :=
        if mem v removed_nodes
        then (current_missing_node_id, current_missing_node_id + 1)
        else (v, current_missing_node_id) in
      ((u, v, key), current_missing_node_id)
  end.

(** [index.map(f)] for a function that owns a cell: the rows are mapped in
    order, each call seeing the cell as the call before left it. *)
Fixpoint index_map (f : Index -> Z -> Index * Z) (rows : list Index) (cell : Z)
  : list Index * Z :=
  match rows with
  | [] => ([], cell)
  | row :: rest =>
      let '(row', cell) := f row cell in
      let '(rest', cell) := index_map f rest cell in
      (row' :: rest', cell)
  end.

(** [index.map(remap_missing_nodes(starting_node_id, removed_nodes))] *)
Definition remap_missing_nodes (starting_node_id : Z) (removed_nodes : list Z)
  (rows : list Index) : list Index :=
  fst (index_map (remap removed_nodes) rows starting_node_id).

(** The node ids of an index, in the order in which [remap] looks at
    them: [u] then [v], row after row. *)
Definition endpoints (rows : list Index) : list Z :=
  List.flat_map (fun i => [fst (fst i); snd (fst i)]) rows.

(** How many of the ids in [l] are removed nodes. *)
Definition occurrences (removed_nodes : list Z) (l : list Z) : nat :=
  List.length (List.filter (fun a => mem a removed_nodes) l).

(** The effect of [remap] on the sequence of endpoints, with the cell
    starting at [c]. *)
Fixpoint relabel (removed : list Z) (c : Z) (l : list Z) : list Z :=
  match l with
  | [] => []
  | a :: l' =>
      if mem a removed then c :: relabel removed (c + 1) l'
      else a :: relabel removed c l'
  end.

(** ** The libraries and the module globals *)

(** What [paginator.paginate(CollectionName=resource)] yields in the end:
    the entries of all pages (each with its ["GeofenceId"]), a
    [botocore.exceptions.ClientError], or another exception. *)
Inductive Fetched : Type :=
| Entries (es : list (string * Json.value))
| ClientError
| Failure (kind : string) (message : string).

Record Env : Type := mkEnv {
  (** [original_graph], and [nodes], [edges] read from it at import *)
  original_graph : Graph;
  nodes : list NodeRow;
  edges : list EdgeRow;
  (** [json.loads] *)
  json_loads : string -> Py.lib Json.value;
  (** [Point] and [Polygon], applied to an unpacked argument list *)
  shapely_Point : list Json.value -> Py.lib Geometry;
  shapely_Polygon : list Json.value -> Py.lib Geometry;
  (** [transform(inv_project, transform(project, center).buffer(radius))] *)
  circle_area : Geometry -> Json.value -> Py.lib Geometry;
  (** [boto3.client("location", region_name=region)] and its
      [list_geofences] paginator *)
  list_geofences : string -> string -> Fetched;
  (** [geom.difference(exclusion_areas)] *)
  difference : Geometry -> Geometry -> Geometry;
  utm_distance : Geometry -> Geometry -> option Q;
  line_locate_point : Geometry -> Geometry -> Py.lib Q;
  interpolate : Geometry -> Q -> Py.lib Geometry;
  substring : Geometry -> Q -> Q -> Py.lib Geometry;
  utm_length : Geometry -> Q;
  (** [ox.shortest_path(G, a, b, weight="length")]: [None] without a path *)
  shortest_path : Graph -> Z -> Z -> Py.lib (option (list Z));
  (** [ox.routing.route_to_gdf(G, route).to_json(drop_id=True)] *)
  route_to_json : Graph -> list Z -> Py.lib string
}.

(** Iterating over a decoded JSON value ([for x in v], and unpacking with a star). *)
Definition py_iter (v : Json.value) : Py.result (list Json.value) :=
  match v with
  | Json.Arr xs => Py.Ok xs
  | Json.Obj kvs => Py.Ok (List.map (fun kv => Json.Str (fst kv)) kvs)
  | Json.Str s =>
      Py.Ok (List.map (fun c => Json.Str (String c EmptyString)) (list_ascii_of_string s))
  | _ => Py.Raise (Py.PyError "TypeError" "object is not iterable")
  end.

(** A computation raises a [LambdaException] only with a status in [S]. *)
Definition raises_only (S : list Z) {A} (m : Py.result A) : Prop :=
  forall status message,
    m = Py.Raise (Py.LambdaException status message) -> In status S.

(** A computation raises a [LambdaException] only with a status and a
    message that [P] admits. *)
Definition raises_with (P : Z -> string -> Prop) {A} (m : Py.result A) : Prop :=
  forall status message,
    m = Py.Raise (Py.LambdaException status message) -> P status message.

(** What a computation returns, when it returns. *)
Definition returns_only {A} (P : A -> Prop) (m : Py.result A) : Prop :=
  forall a, m = Py.Ok a -> P a.

(** [str(e)] *)
Definition exn_str (e : Py.exn) : string :=
  match e with
  | Py.PyError _ m => m
  | Py.LambdaException _ m => m
  end.

(** [try: body except Exception as e: raise LambdaException(400, f"{prefix}{e}")] *)
Definition or_invalid {A} (prefix : string) (body : Py.result A) : Py.result A :=
  match body with
  | Py.Ok a => Py.Ok a
  | Py.Raise e => Py.Raise (Py.LambdaException 400 (prefix +:+ exn_str e))
  end.

Definition only_one : string :=
  "Only one of {Circle, Polygon, Arn} may be provided per Area.".

(** The statuses and messages of the [LambdaException]s that the module
    raises, one constructor for each [raise]. *)
Inductive ErrorResponse : Z -> string -> Prop :=
| NoRoute : ErrorResponse 404 "No route found."
| OnlyOne : ErrorResponse 400 only_one
| UnrecognizedService (service : string) :
    ErrorResponse 400 ("Unrecognized service: " +:+ service)
| InvalidCircle (reason : string) :
    ErrorResponse 400 ("Invalid Circle area: " +:+ reason)
| InvalidPolygon (reason : string) :
    ErrorResponse 400 ("Invalid Polygon area: " +:+ reason)
| GeofenceMissing (arn : string) :
    ErrorResponse 500 ("Unable to fetch geofence (" +:+ arn +:+ ")")
| PrefetchFailed (region resource : string) :
    ErrorResponse 500
      ("Unable to pre-fetch geofences (" +:+ region +:+ " / " +:+ resource +:+ ")").

(** An area of a request that carries no ARN: a [dict] whose ["Area"], if
    it has one, is a [dict] without the key ["Arn"]. *)
Definition without_arn (x : Json.value) : Prop :=
  exists kvs members,
    x = Json.Obj kvs
    /\ from_option id (Json.Obj []) (Json.assoc "Area" kvs) = Json.Obj members
    /\ Json.assoc "Arn" members = None.

(** An area that gives one of Circle, Polygon and Arn, under ["Area"]. *)
Definition area_of (member : string) (v : Json.value) : Json.value :=
  Json.Obj [("Area", Json.Obj [(member, v)])].

(** The headers of a success response. *)
Definition success_headers : list (string * string) :=
  [("Access-Control-Allow-Origin", "*");
   ("Content-Type", "application/geo+json")].

(** Setting [d[k] = v] in a [dict] kept in insertion order. *)
Fixpoint dict_set {V} (k : string) (v : V) (d : list (string * V))
  : list (string * V) :=
  match d with
  | [] => [(k, v)]
  | (k', v') :: d' =>
      if String.eqb k k' then (k, v) :: d' else (k', v') :: dict_set k v d'
  end.

Fixpoint dict_get {V} (k : string) (d : list (string * V)) : option V :=
  match d with
  | [] => None
  | (k', v') :: d' => if String.eqb k k' then Some v' else dict_get k d'
  end.

Section Handler.

Variable env : Env.

(** ** [prefetch_geofences] *)

(** One step of the lazy [map]/[filter] chain that builds [arns]. *)
Definition arn_of_area (x : Json.value)
  : Py.result (option (string * ArnComponents)) :=
  a ← Json.get x "Area" (Json.Obj []);
  b ← Json.contains a "Arn";
  if b : bool then
    a ← Json.getitem x "Area";
    arn ← Json.getitem a "Arn";
    c ← parse_arn arn;
    match arn with
    | Json.Str s => Py.Ok (Some (s, c))
    | _ => Py.Raise (Py.PyError "AttributeError" "split")
    end
  else Py.Ok None.

(** The nested [defaultdict] [grouped]: region, then resource, to the ARN
    without its entry id. *)
Definition group_arn (grouped : list (string * list (string * string)))
  (a : string * ArnComponents) : list (string * list (string * string)) :=
  let arn_without_id := before hash (fst a) in
  let region := arn_region (snd a) in
  let resources := from_option id [] (dict_get region grouped) in
  match dict_get arn_without_id resources with
  | Some _ => dict_set region resources grouped
  | None =>
      dict_set region
        (dict_set (before hash (arn_resource (snd a))) arn_without_id resources)
        grouped
  end.

Definition fetch_resource (region : string) (geofences : gmap string Json.value)
  (ra : string * string) : Py.result (gmap string Json.value) :=
  match list_geofences env region (fst ra) with
  | Entries es =>
      Py.Ok (foldl (fun g e => <[snd ra +:+ "#" +:+ fst e := snd e]> g) geofences es)
  | ClientError =>
      Py.Raise (Py.LambdaException 500
        ("Unable to pre-fetch geofences (" +:+ region +:+ " / " +:+ fst ra +:+ ")"))
  | Failure k m => Py.Raise (Py.PyError k m)
  end.

Fixpoint foldM {A B} (f : B -> A -> Py.result B) (b : B) (l : list A)
  : Py.result B :=
  match l with
  | [] => Py.Ok b
  | x :: l' => b' ← f b x; foldM f b' l'
  end.

Definition prefetch_geofences (areas : Json.value)
  : Py.result (gmap string Json.value) :=
  xs ← py_iter areas;
  found ← Clean.mapM arn_of_area xs;
  let arns := omap id found in
  let grouped := foldl group_arn [] arns in
  foldM (fun g rr => foldM (fetch_resource (fst rr)) g (snd rr)) ∅ grouped.

(** ** [get_exclusion_areas] *)

(** [len(list(filter(lambda x: x, [circle, polygon, arn])))] *)
Definition provided (circle polygon arn : Json.value) : nat :=
  List.length (List.filter Json.truthy [circle; polygon; arn]).

(** The body of the first [try]. *)
Definition circle_geometries (circle : Json.value) : Py.result (list Geometry) :=
  if Json.truthy circle then
    c ← Json.getitem circle "Center";
    args ← py_iter c;
    center ← Py.call (shapely_Point env args);
    radius ← Json.getitem circle "Radius";
    g ← Py.call (circle_area env center radius);
    Py.Ok [g]
  else Py.Ok [].

(** The body of the second [try]. *)
Definition polygon_geometries (polygon : Json.value) : Py.result (list Geometry) :=
  if Json.truthy polygon then
    args ← py_iter polygon;
    g ← Py.call (shapely_Polygon env args);
    Py.Ok [g]
  else Py.Ok [].

(** The [if arn:] block: the geofence's geometry overrides [polygon] or
    [circle]. *)
Definition resolve_arn (geofences : gmap string Json.value)
  (circle polygon arn : Json.value) : Py.result (Json.value * Json.value) :=
  if Json.truthy arn then
    arn_components ← parse_arn arn;
    if negb (String.eqb (arn_service arn_components) "geo") then
      Py.Raise (Py.LambdaException 400
        ("Unrecognized service: " +:+ arn_service arn_components))
    else
      match arn with
      | Json.Str a =>
          match geofences !! a with
          | None =>
              Py.Raise (Py.LambdaException 500
                ("Unable to fetch geofence (" +:+ a +:+ ")"))
          | Some geofence =>
              geometry ← Json.getitem geofence "Geometry";
              p ← Json.get geometry "Polygon" Json.Null;
              if Json.truthy p then Py.Ok (circle, p)
              else
                c ← Json.get geometry "Circle" Json.Null;
                if Json.truthy c then Py.Ok (c, polygon)
                else Py.Ok (circle, polygon)
          end
      | _ => Py.Raise (Py.PyError "AttributeError" "split")
      end
  else Py.Ok (circle, polygon).

(** One turn of the loop [for area in areas]: the geometries it appends. *)
Definition exclusion_area (geofences : gmap string Json.value)
  (area : Json.value) : Py.result (list Geometry) :=
  _area ← Json.get area "Area" (Json.Obj []);
  circle ← Json.get _area "Circle" Json.Null;
  polygon ← Json.get _area "Polygon" Json.Null;
  arn ← Json.get _area "Arn" Json.Null;
  if negb (Nat.eqb (provided circle polygon arn) 1) then
    Py.Raise (Py.LambdaException 400 only_one)
  else
    '(circle, polygon) ← resolve_arn geofences circle polygon arn;
    cs ← or_invalid "Invalid Circle area: " (circle_geometries circle);
    ps ← or_invalid "Invalid Polygon area: " (polygon_geometries polygon);
    Py.Ok (cs ++ ps).

Definition get_exclusion_areas (areas : Json.value)
  (geofences : gmap string Json.value) : Py.result Geometry :=
  xs ← py_iter areas;
  gss ← Clean.mapM (exclusion_area geofences) xs;
  Py.Ok (GeometryCollection (List.concat gss)).

(** ** The branch [if exclusion_areas:] of [handle] *)

(** [nodes.index.max()]; [None] stands for the [nan] of an empty index,
    against which every comparison is false. *)
Definition index_max_nodes (ns : list NodeRow) : option Z :=
  match ns with
  | [] => None
  | n :: rest => Some (foldl Z.max (n_osmid n) (List.map n_osmid rest))
  end.

(** A row of [edges.xs(0, level="key")], re-indexed with [key = 0], with
    the geometry and length columns recomputed.  (The difference is
    computed for the whole table and assigned by index; each key-0 row
    gets the difference of its own geometry.) *)
Definition clip_edge (exclusion_areas : Geometry) (r : EdgeRow) : EdgeRow :=
  let g := difference env (e_geometry r) exclusion_areas in
  mkEdge (e_u r) (e_v r) 0 g (round2 (utm_length env g)).

Definition clip_node (exclusion_areas : Geometry) (n : NodeRow) : NodeRow :=
  mkNode (n_osmid n) (n_x n) (n_y n) (difference env (n_geometry n) exclusion_areas).

Definition reindex (r : EdgeRow) (i : Index) : EdgeRow :=
  match i with
  | (a, b, k) => mkEdge a b k (e_geometry r) (e_length r)
  end.

Definition above (max_node_id : option Z) (n : Z) : bool :=
  match max_node_id with
  | Some m => m <? n
  | None => false
  end.

(** The inner function [make_nodes]: the columns [u_geometry] and
    [v_geometry] it sets on a row, if any. *)
Definition make_nodes (max_node_id : option Z) (row : EdgeRow)
  : Py.result (option Coord * option Coord) :=
  ug ← (if above max_node_id (e_u row) then
          cs ← Shapely.coords (e_geometry row);
          c ← Shapely.first cs;
          Py.Ok (Some c)
        else Py.Ok None);
  vg ← (if above max_node_id (e_v row) then
          cs ← Shapely.coords (e_geometry row);
          c ← Shapely.last cs;
          Py.Ok (Some c)
        else Py.Ok None);
  Py.Ok (ug, vg).

(** [extra_nodes[column]]: the column exists when some row set it. *)
Definition column {A} (name : string) (cells : list (option A))
  : Py.result (list (option A)) :=
  if existsb (fun c => match c with Some _ => true | None => false end) cells
  then Py.Ok cells
  else Py.Raise (Py.PyError "KeyError" name).

(** [df.drop_duplicates()] on the one column [geometry]: a row whose point
    an earlier row already has is dropped, whatever its index. *)
Fixpoint drop_duplicates (seen : list Coord) (rows : list (Z * Coord))
  : list (Z * Coord) :=
  match rows with
  | [] => []
  | (i, c) :: rest =>
      if existsb (coord_eqb c) seen then drop_duplicates seen rest
      else (i, c) :: drop_duplicates (c :: seen) rest
  end.

Definition notna {A} (ids : list Z) (cells : list (option A)) : list (Z * A) :=
  omap (fun ic => match snd ic with Some c => Some (fst ic, c) | None => None end)
       (combine ids cells).

Definition specialize (exclusion_areas : Geometry)
  : Py.result (Graph * list EdgeRow) :=
  let local_nodes := List.map (clip_node exclusion_areas) (nodes env) in
  local_edges ←
    match List.filter (fun r => e_key r =? 0) (edges env) with
    | [] => Py.Raise (Py.PyError "KeyError" "0")
    | rows => Py.Ok (List.map (clip_edge exclusion_areas) rows)
    end;
  let nodes_to_remove :=
    List.filter (fun n => is_empty (n_geometry n)) local_nodes in
  let local_nodes :=
    List.filter (fun n => negb (is_empty (n_geometry n))) local_nodes in
  let max_node_id := index_max_nodes (nodes env) in
  (* without a node there is no removed node, and the start is not used *)
  let starting_node_id := from_option (fun m => m + 1) 0 max_node_id in
  let new_index :=
    remap_missing_nodes starting_node_id (List.map n_osmid nodes_to_remove)
      (List.map index local_edges) in
  let local_edges := List.map (fun ri => reindex (fst ri) (snd ri))
                              (combine local_edges new_index) in
  extra_nodes ← Clean.mapM (make_nodes max_node_id) local_edges;
  u_geometry ← column "'u_geometry'" (List.map fst extra_nodes);
  v_geometry ← column "'v_geometry'" (List.map snd extra_nodes);
  let new_nodes :=
    drop_duplicates []
      (notna (List.map e_u local_edges) u_geometry
       ++ notna (List.map e_v local_edges) v_geometry) in
  let new_nodes :=
    List.map (fun ic => mkNode (fst ic) (fst (snd ic)) (snd (snd ic)) (Point [snd ic]))
             new_nodes in
  let local_nodes := local_nodes ++ new_nodes in
  let reversed_edges := List.map reversed_row local_edges in
  let local_edges := local_edges ++ reversed_edges in
  Py.Ok (graph_from_gdfs local_nodes local_edges, local_edges).

(** The ids of the nodes that the exclusion areas mask out. *)
Definition removed_nodes (exclusion_areas : Geometry) : list Z :=
  List.map n_osmid
    (List.filter
       (fun n => is_empty (difference env (n_geometry n) exclusion_areas))
       (nodes env)).

(** ** [handle] *)

(** [d.get(k)] on a [dict] whose members are [kvs]. *)
Definition field (kvs : list (string * Json.value)) (k : string) : Json.value :=
  from_option id Json.Null (Json.assoc k kvs).

Record Response : Type := mkResponse {
  statusCode : Z;
  headers : list (string * string);
  body : string
}.

(** [json.dumps({"Error": message})] *)
Definition error_body (message : string) : string :=
  Json.dumps (fun _ => EmptyString) (Json.Obj [("Error", Json.Str message)]).

(** [Point] applied to the unpacked request value. *)
Definition request_point (v : Json.value) : Py.result Geometry :=
  args ← py_iter v;
  Py.call (shapely_Point env args).

(** The body of the [try] in [handle]. *)
Definition handle_try (event : Json.value) : Py.result Response :=
  raw ← Json.getitem event "body";
  body ← match raw with
         | Json.Str s => Py.call (json_loads env s)
         | _ => Py.Raise (Py.PyError "TypeError" "the JSON object must be str")
         end;
  o ← Json.getitem body "Origin";
  origin ← request_point o;
  d ← Json.getitem body "Destination";
  destination ← request_point d;
  avoid ← Json.get body "Avoid" (Json.Obj []);
  areas ← Json.get avoid "Areas" (Json.Arr []);
  let G := original_graph env in
  geofences ← prefetch_geofences areas;
  exclusion_areas ← get_exclusion_areas areas geofences;
  '(G, local_edges) ←
    (if negb (is_empty exclusion_areas) then specialize exclusion_areas
     else Py.Ok (G, edges env));
  '(origin_id, all_edges, _, G) ←
    split_graph (utm_distance env) (line_locate_point env) (interpolate env)
                (substring env) (utm_length env) G origin local_edges;
  '(destination_id, _, _, G) ←
    split_graph (utm_distance env) (line_locate_point env) (interpolate env)
                (substring env) (utm_length env) G destination all_edges;
  route ← Py.call (shortest_path env G origin_id destination_id);
  match route with
  | None => Py.Raise (Py.LambdaException 404 "No route found.")
  | Some route =>
      route_geojson ← Py.call (route_to_json env G route);
      Py.Ok (mkResponse 200
               [("Access-Control-Allow-Origin", "*");
                ("Content-Type", "application/geo+json")]
               route_geojson)
  end.

(** [handle(event)]: the only handler is [except LambdaException as e]. *)
Definition handle (event : Json.value) : Py.result Response :=
  match handle_try event with
  | Py.Ok r => Py.Ok r
  | Py.Raise (Py.LambdaException status message) =>
      Py.Ok (mkResponse status [("Access-Control-Allow-Origin", "*")]
                        (error_body message))
  | Py.Raise e => Py.Raise e
  end.

(** The headers of an error response. *)
Definition cors : list (string * string) :=
  [("Access-Control-Allow-Origin", "*")].



(** [handle] answers every event with a response. *)
Definition always_responds : Prop :=
  forall event, exists r, handle event = Py.Ok r.

End Handler.

End LambdaHandler.

(** * Sample data for the examples *)

Module Sample.

Import Shapely.

(** ** clean.py *)

(** The sample properties hold no float. *)
Definition float_repr (q : Q) : string := "0.0".

Definition props_ab : Json.value :=
  Json.Obj [("a", Json.Int 1); ("b", Json.Int 2)].
Definition props_ba : Json.value :=
  Json.Obj [("b", Json.Int 2); ("a", Json.Int 1)].

Definition feature_ab : Clean.Feature := Clean.mkFeature Json.Null props_ab.
Definition feature_ba : Clean.Feature := Clean.mkFeature Json.Null props_ba.

(** ** prepare.py *)

(** The sample coordinates are metric already, and the sample lines run
    along the axes, where the length of a line is the sum of the
    coordinate differences of its segments. *)
Definition project (c : Coord) : Coord := c.

Definition Qabs_diff (a b : Q) : Q := Qabs (a - b).

Fixpoint coords_length (cs : Coords) : Q :=
  match cs with
  | a :: ((b :: _) as rest) =>
      (Qabs_diff (fst a) (fst b) + Qabs_diff (snd a) (snd b) + coords_length rest)%Q
  | _ => 0%Q
  end.

Definition axis_length (g : Geometry) : Q :=
  match g with
  | LineString cs => coords_length cs
  | MultiLineString ls => fold_right Qplus 0%Q (List.map coords_length ls)
  | _ => 0%Q
  end.

(** A projection that is not affine, with its inverse. *)
Definition bent (c : Coord) : Coord := (fst c, (snd c + fst c * fst c)%Q).
Definition unbent (c : Coord) : Coord := (fst c, (snd c - fst c * fst c)%Q).

(** Two points, two units apart before the projection. *)
Definition near_points : list Coord := [(0%Q, 0%Q); (2%Q, 0%Q)].

(** One line of ten metres between two nodes. *)
Definition one_line : list Coords := [[(0%Q, 0%Q); (10%Q, 0%Q)]].
Definition two_nodes : list Coord := [(0%Q, 0%Q); (10%Q, 0%Q)].

(** The scenarios of tests/test_prepare.py, in tens of metres. *)
Definition simple_lines : list Coords :=
  [[(0%Q, 0%Q); (10%Q, 10%Q)];
   [(10%Q, 10%Q); (20%Q, 20%Q)];
   [(10%Q, 10%Q); (20%Q, 0%Q)]].

Definition approximate_lines : list Coords :=
  [[(0%Q, 0%Q); (10001 # 1000, 10%Q)];
   [(10%Q, 10%Q); (20%Q, 20%Q)];
   [(9998 # 1000, 10%Q); (20%Q, 0%Q)]].

Definition disconnected_lines : list Coords :=
  simple_lines
  ++ [[(0%Q, 10%Q); (0%Q, 20%Q)]; [(0%Q, 20%Q); (0%Q, 30%Q)]].

(** Iteration of the sets of the samples.  CPython keeps a small int in
    the slot of its value modulo the size of the hash table (8 for a set
    of up to four members) and iterates by slot: positions below 8 are
    listed in increasing order, and the set of 0, 5 and 8 as 0, 8, 5. *)
Definition set_order (l : list nat) : list nat :=
  if Prepare.list_eqb l [0; 5; 8]%nat then [0; 8; 5]%nat else Prepare.to_set l.

(** No position of a sample line has two substitutions, so the order in
    which the loop of [fn] meets them does not show in the result; they
    are listed once each, as first met. *)
Definition substitution_eqb (a b : nat * Coord) : bool :=
  Nat.eqb (fst a) (fst b) && coord_eqb (snd a) (snd b).

Fixpoint first_met (seen l : list (nat * Coord)) : list (nat * Coord) :=
  match l with
  | [] => []
  | x :: l' =>
      if existsb (substitution_eqb x) seen then first_met seen l'
      else x :: first_met (x :: seen) l'
  end.

Definition substitution_order (l : list (nat * Coord)) : list (nat * Coord) :=
  first_met [] l.

(** A line of nine coordinates along the x axis, ten metres apart, and a
    node on its sixth. *)
Definition long_line : Coords :=
  List.map (fun i => (inject_Z (10 * Z.of_nat i), 0%Q)) (seq 0 9).
Definition sixth_node : list Coord := [(50%Q, 0%Q)].

Definition prepare_counts (lines : list Coords) : Py.result (nat * nat) :=
  let nodes := Prepare.make_nodes project 5 lines in
  edges ← Prepare.make_edges project axis_length 5 set_order
            substitution_order lines nodes;
  Py.Ok (List.length nodes, List.length edges).

(** ** routing: an exact kernel for single segments

    The sample graph is a street along the x axis.  The kernel below is
    exact on what the examples use: points, line strings of one segment,
    and axis-parallel rectangles as exclusion areas.  Nearness is decided
    on squared distances, which order the candidates as distances do. *)

Import Routing LambdaHandler.

(** The normalized position of the foot of [p] on the segment [a b]. *)
Definition seg_param (a b p : Coord) : Q :=
  let dx := (fst b - fst a)%Q in
  let dy := (snd b - snd a)%Q in
  let len2 := (dx * dx + dy * dy)%Q in
  if Qeq_bool len2 0 then 0%Q
  else
    let t := (((fst p - fst a) * dx + (snd p - snd a) * dy) / len2)%Q in
    if Qle_bool t 0 then 0%Q else if Qle_bool 1 t then 1%Q else Qred t.

Definition seg_point (a b : Coord) (t : Q) : Coord :=
  (Qred (fst a + t * (fst b - fst a)), Qred (snd a + t * (snd b - snd a))).

Definition utm_distance (target g : Geometry) : option Q :=
  match target, g with
  | Point [p], LineString [a; b] =>
      Some (Qred (Prepare.dist2 p (seg_point a b (seg_param a b p))))
  | _, _ => None
  end.

Definition line_locate_point (line target : Geometry) : Py.lib Q :=
  match line, target with
  | LineString [a; b], Point [p] => Py.Returns (seg_param a b p)
  | _, _ => Py.Throws "GEOSException" "not a single segment"
  end.

Definition interpolate (line : Geometry) (d : Q) : Py.lib Geometry :=
  match line with
  | LineString [a; b] => Py.Returns (Point [seg_point a b d])
  | _ => Py.Throws "GEOSException" "not a single segment"
  end.

Definition substring (line : Geometry) (s e : Q) : Py.lib Geometry :=
  match line with
  | LineString [a; b] => Py.Returns (LineString [seg_point a b s; seg_point a b e])
  | _ => Py.Throws "GEOSException" "not a single segment"
  end.

(** The rectangle spanned by a ring: [(xmin, xmax, ymin, ymax)]. *)
Definition Qmin (a b : Q) : Q := if Qle_bool a b then a else b.
Definition Qmax (a b : Q) : Q := if Qle_bool a b then b else a.

Fixpoint bbox (cs : Coords) : option (Q * Q * Q * Q) :=
  match cs with
  | [] => None
  | c :: cs' =>
      match bbox cs' with
      | None => Some (fst c, fst c, snd c, snd c)
      | Some (x0, x1, y0, y1) =>
          Some (Qmin (fst c) x0, Qmax (fst c) x1, Qmin (snd c) y0, Qmax (snd c) y1)
      end
  end.

Definition excluded_box (exclusion_areas : Geometry) : option (Q * Q * Q * Q) :=
  match exclusion_areas with
  | GeometryCollection (Polygon p :: _) => bbox (exterior p)
  | _ => None
  end.

Definition inside (box : Q * Q * Q * Q) (c : Coord) : bool :=
  match box with
  | (x0, x1, y0, y1) =>
      Qle_bool x0 (fst c) && Qle_bool (fst c) x1
      && Qle_bool y0 (snd c) && Qle_bool (snd c) y1
  end.

(** What is left of a left-to-right horizontal segment outside the box. *)
Definition clip_horizontal (box : Q * Q * Q * Q) (a b : Coord) : Geometry :=
  match box with
  | (x0, x1, y0, y1) =>
      let y := snd a in
      let before :=
        if Qlt_bool (fst a) x0 then [[a; (Qmin (fst b) x0, y)]] else [] in
      let after :=
        if Qlt_bool x1 (fst b) then [[(Qmax (fst a) x1, y); b]] else [] in
      match before ++ after with
      | [] => LineString []
      | [part] => LineString part
      | parts => MultiLineString parts
      end
  end.

Definition difference (g exclusion_areas : Geometry) : Geometry :=
  match excluded_box exclusion_areas with
  | None => g
  | Some box =>
      match g with
      | Point [c] => if inside box c then Point [] else g
      | LineString [a; b] =>
          match box with
          | (_, _, y0, y1) =>
              if Qeq_bool (snd a) (snd b) && Qle_bool (fst a) (fst b)
                 && Qle_bool y0 (snd a) && Qle_bool (snd a) y1
              then clip_horizontal box a b
              else g
          end
      | _ => g
      end
  end.

Definition number (v : Json.value) : option Q :=
  match v with
  | Json.Int n => Some (inject_Z n)
  | Json.Float q => Some q
  | _ => None
  end.

Definition coordinate (v : Json.value) : option Coord :=
  match v with
  | Json.Arr [x; y] =>
      match number x, number y with
      | Some a, Some b => Some (a, b)
      | _, _ => None
      end
  | _ => None
  end.

Definition shapely_Point (args : list Json.value) : Py.lib Geometry :=
  match coordinate (Json.Arr args) with
  | Some c => Py.Returns (Point [c])
  | None => Py.Throws "TypeError" "Point"
  end.

Fixpoint ring (vs : list Json.value) : option Coords :=
  match vs with
  | [] => Some []
  | v :: vs' =>
      match coordinate v, ring vs' with
      | Some c, Some cs => Some (c :: cs)
      | _, _ => None
      end
  end.

Definition shapely_Polygon (args : list Json.value) : Py.lib Geometry :=
  match args with
  | [Json.Arr shell] =>
      match ring shell with
      | Some cs => Py.Returns (Polygon (mkPolygon cs []))
      | None => Py.Throws "TypeError" "Polygon"
      end
  | _ => Py.Throws "TypeError" "Polygon"
  end.

(** A circle is buffered to the square around it. *)
Definition circle_area (center : Geometry) (radius : Json.value)
  : Py.lib Geometry :=
  match center, number radius with
  | Point [(x, y)], Some r =>
      Py.Returns
        (Polygon (mkPolygon
           [((x - r)%Q, (y - r)%Q); ((x + r)%Q, (y - r)%Q);
            ((x + r)%Q, (y + r)%Q); ((x - r)%Q, (y + r)%Q);
            ((x - r)%Q, (y - r)%Q)] []))
  | _, _ => Py.Throws "TypeError" "buffer"
  end.

(** One collection of geofences is known. *)
Definition fence : Json.value :=
  Json.Obj
    [("GeofenceId", Json.Str "fence-1");
     ("Geometry",
      Json.Obj
        [("Polygon",
          Json.Arr
            [Json.Arr
               [Json.Arr [Json.Int 8; Json.Int (-1)];
                Json.Arr [Json.Int 12; Json.Int (-1)];
                Json.Arr [Json.Int 12; Json.Int 1];
                Json.Arr [Json.Int 8; Json.Int 1];
                Json.Arr [Json.Int 8; Json.Int (-1)]]])])].

Definition list_geofences (region resource : string) : Fetched :=
  if String.eqb region "us-west-2" && String.eqb resource "fences"
  then Entries [("fence-1", fence)]
  else ClientError.

(** The street: four nodes ten metres apart, three edges. *)
Definition street_node (i : Z) : NodeRow :=
  mkNode i (inject_Z (10 * i)) 0%Q (Point [(inject_Z (10 * i), 0%Q)]).

Definition street_edge (a : Z) : EdgeRow :=
  mkEdge a (a + 1) 0
         (LineString [(inject_Z (10 * a), 0%Q); (inject_Z (10 * (a + 1)), 0%Q)])
         10%Q.

Definition nodes : list NodeRow := List.map street_node [0; 1; 2; 3].
Definition forward_edges : list EdgeRow := List.map street_edge [0; 1; 2].
Definition edges : list EdgeRow :=
  forward_edges ++ List.map reversed_row forward_edges.

(** The exclusion area that resolving a rectangle request gives. *)
Definition excluded_polygon (x0 x1 : Z) : Geometry :=
  Polygon (mkPolygon
    [(inject_Z x0, inject_Z (-1)); (inject_Z x1, inject_Z (-1));
     (inject_Z x1, inject_Z 1); (inject_Z x0, inject_Z 1);
     (inject_Z x0, inject_Z (-1))] []).

Definition excluded (x0 x1 : Z) : Geometry :=
  GeometryCollection [excluded_polygon x0 x1].

(** Request bodies. *)
Definition point (x y : Z) : Json.value := Json.Arr [Json.Int x; Json.Int y].

Definition rectangle (x0 x1 : Z) : Json.value :=
  Json.Arr
    [Json.Arr [point x0 (-1); point x1 (-1); point x1 1; point x0 1; point x0 (-1)]].

Definition request (areas : list Json.value) : Json.value :=
  Json.Obj
    [("Origin", point 0 0);
     ("Destination", point 30 0);
     ("Avoid", Json.Obj [("Areas", Json.Arr areas)])].

Definition area (members : list (string * Json.value)) : Json.value :=
  Json.Obj [("Area", Json.Obj members)].

Definition circle : Json.value :=
  Json.Obj [("Center", point 15 0); ("Radius", Json.Int 2)].

(** An area over the whole edge between the nodes 1 and 2. *)
Definition covering_request : Json.value :=
  request [area [("Polygon", rectangle 8 22)]].

(** An area over the node 1 alone. *)
Definition node_request : Json.value :=
  request [area [("Polygon", rectangle 8 12)]].

(** An area with both a circle and a polygon, after a valid one. *)
Definition invalid_request : Json.value :=
  request [area [("Polygon", rectangle 14 16)];
           area [("Circle", circle); ("Polygon", rectangle 8 22)]].

(** An area with a circle and an ARN that is no ARN. *)
Definition bad_arn_request : Json.value :=
  request [area [("Circle", circle); ("Arn", Json.Str "fence-1")]].

(** A geofence that the collection does not hold, then an area with both
    a circle and a polygon. *)
Definition missing_fence : string :=
  "arn:aws:geo:us-west-2:123456789012:geofence-collection/fences#missing".

Definition missing_fence_request : Json.value :=
  request [area [("Arn", Json.Str missing_fence)];
           area [("Circle", circle); ("Polygon", rectangle 8 22)]].

(** A geofence that the collection holds. *)
Definition known_fence : string :=
  "arn:aws:geo:us-west-2:123456789012:geofence-collection/fences#fence-1".

(** A service that is not Amazon Location. *)
Definition bucket : string := "arn:aws:s3:us-west-2:123456789012:bucket/fences".

(** A body without a destination. *)
Definition no_destination_request : Json.value :=
  Json.Obj [("Origin", point 0 0)].

Definition bodies : list Json.value :=
  [covering_request; node_request; invalid_request; bad_arn_request;
   missing_fence_request; no_destination_request].

(** [json.loads] on the texts of the sample bodies. *)
Definition json_loads (s : string) : Py.lib Json.value :=
  match List.find (fun v => String.eqb (Json.dumps float_repr v) s) bodies with
  | Some v => Py.Returns v
  | None => Py.Throws "JSONDecodeError" "Expecting value"
  end.

(** [make_request_event] of tests/test_lambda_handler.py, reduced to the
    key that [handle] reads. *)
Definition make_request_event (body : Json.value) : Json.value :=
  Json.Obj [("body", Json.Str (Json.dumps float_repr body))].

(** The examples end before a route is searched. *)
Definition env : Env :=
  mkEnv (graph_from_gdfs nodes edges) nodes edges
        json_loads shapely_Point shapely_Polygon circle_area list_geofences
        difference utm_distance line_locate_point interpolate substring
        axis_length
        (fun _ _ _ => Py.Throws "NotImplementedError" "shortest_path")
        (fun _ _ => Py.Throws "NotImplementedError" "route_to_gdf").

(** A request without areas, and an environment whose router finds no
    path. *)
Definition plain_request : Json.value :=
  Json.Obj [("Origin", point 4 3); ("Destination", point 26 (-2))].

Definition json_loads_plain (s : string) : Py.lib Json.value :=
  if String.eqb (Json.dumps float_repr plain_request) s
  then Py.Returns plain_request
  else Py.Throws "JSONDecodeError" "Expecting value".

Definition env_without_path : Env :=
  mkEnv (graph_from_gdfs nodes edges) nodes edges
        json_loads_plain shapely_Point shapely_Polygon circle_area
        list_geofences difference utm_distance line_locate_point interpolate
        substring axis_length
        (fun _ _ _ => Py.Returns None)
        (fun _ _ => Py.Throws "NotImplementedError" "route_to_gdf").

End Sample.
(** * Proof tools *)

(** Inversion of one step of a computation that returned: the step
    returned [x], with equation [E]. *)
Tactic Notation "bind_ok" hyp(H) "as" ident(x) ident(E) :=
  match type of H with
  | mbind _ ?m = Py.Ok _ =>
      destruct m as [x|?] eqn:E;
      [cbn [mbind result_bind Py.bind] in H | discriminate H]
  end.

(** * Facts about clean.py *)

Module CleanFacts.

Import Shapely Clean.

(** Induction over geometries that reaches the members of a collection. *)
Lemma Geometry_members_ind (P : Geometry -> Prop) :
  (forall c, P (Point c)) ->
  (forall cs, P (LineString cs)) ->
  (forall cs, P (LinearRing cs)) ->
  (forall p, P (Polygon p)) ->
  (forall cs, P (MultiPoint cs)) ->
  (forall ls, P (MultiLineString ls)) ->
  (forall ps, P (MultiPolygon ps)) ->
  (forall gs, Forall P gs -> P (GeometryCollection gs)) ->
  forall g, P g.
Proof.
  intros HPoint HLineString HLinearRing HPolygon HMultiPoint
         HMultiLineString HMultiPolygon HCollection.
  fix IH 1. intros g. destruct g as [c|cs|cs|p|cs|ls|ps|gs].
  - apply HPoint.
  - apply HLineString.
  - apply HLinearRing.
  - apply HPolygon.
  - apply HMultiPoint.
  - apply HMultiLineString.
  - apply HMultiPolygon.
  - apply HCollection. induction gs as [|x gs IHgs].
    + apply List.Forall_nil.
    + apply List.Forall_cons; [apply IH|exact IHgs].
Qed.

Lemma filter_twice {A} (f : A -> bool) (l : list A) :
  List.filter f (List.filter f l) = List.filter f l.
Proof.
  induction l as [|x l IH]; simpl; [reflexivity|].
  destruct (f x) eqn:Hx; simpl; [rewrite Hx, IH; reflexivity|exact IH].
Qed.

Lemma tweeze_polygon_twice ring_area p :
  tweeze_polygon ring_area (tweeze_polygon ring_area p)
  = tweeze_polygon ring_area p.
Proof.
  unfold tweeze_polygon; simpl. rewrite filter_twice. reflexivity.
Qed.

(** C9.  Sliver removal is idempotent: for every geometry [g] and every
    area function, [tweeze (tweeze g) = tweeze g]. *)
Theorem tweeze_idempotent :
  forall (ring_area : Coords -> Q) (g : Geometry),
    tweeze ring_area (tweeze ring_area g) = tweeze ring_area g.
Proof.
  intros ring_area g.
  induction g as [c|cs|cs|p|cs|ls|ps|gs IH] using Geometry_members_ind;
    cbn [tweeze]; try reflexivity.
  - now rewrite tweeze_polygon_twice.
  - f_equal. rewrite List.map_map. apply List.map_ext.
    intros p. apply tweeze_polygon_twice.
  - f_equal. rewrite List.map_map. apply List.map_ext_in.
    intros g Hg. rewrite List.Forall_forall in IH. now apply IH.
Qed.

(** The polygons of a collection are those of its members that are
    polygons, in order. *)
Lemma polygon_parts_filter gs :
  polygon_parts (List.filter is_Polygon gs) = polygon_parts gs.
Proof.
  induction gs as [|g gs IH]; simpl; [reflexivity|].
  destruct g; simpl; try apply IH. now rewrite IH.
Qed.

Lemma filter_is_Polygon gs :
  List.filter is_Polygon gs = List.map Polygon (polygon_parts gs).
Proof.
  induction gs as [|g gs IH]; simpl; [reflexivity|].
  destruct g; simpl; try apply IH. now rewrite IH.
Qed.

Lemma in_polygon_parts gs p : In p (polygon_parts gs) <-> In (Polygon p) gs.
Proof.
  induction gs as [|g gs IH]; simpl; [tauto|].
  destruct g; simpl; rewrite IH; intuition (try discriminate).
  - left. congruence.
  - left. congruence.
Qed.

Lemma truthy_filter_false {A} (f : A -> bool) l :
  truthy_list (List.filter f l) = false <-> (forall x, In x l -> f x = false).
Proof.
  induction l as [|x l IH]; simpl.
  - split; [intros _ y []|reflexivity].
  - destruct (f x) eqn:Hx; simpl.
    + split; [discriminate|]. intros H. rewrite (H x) in Hx; [discriminate|auto].
    + rewrite IH. split.
      * intros H y [<-|Hy]; auto.
      * intros H y Hy. apply H. auto.
Qed.

(** C10.  On a collection holding a polygon and a line string, [lint_roll]
    returns the polygon members alone (the polygon itself when there is
    one, a multi-polygon of all of them when there are several); every
    other member is discarded, points as well as line strings: the parts
    of the result are exactly the members that are polygons.  Every other geometry is returned as it
    is: a collection without a polygon, a collection without a line
    string, and whatever is not a collection. *)
Theorem lint_roll_spec :
  forall g : Geometry,
    (forall gs,
        g = GeometryCollection gs ->
        (exists p, In (Polygon p) gs) ->
        (exists l, In l gs /\ is_LineString l = true) ->
        (forall p, In p (polygon_parts gs) <-> In (Polygon p) gs)
        /\ (forall p, polygon_parts gs = [p] -> lint_roll g = Polygon p)
        /\ ((1 < List.length (polygon_parts gs))%nat ->
            lint_roll g = MultiPolygon (polygon_parts gs)))
    /\ (forall gs,
           g = GeometryCollection gs ->
           (forall p, ~ In (Polygon p) gs)
           \/ (forall l, In l gs -> is_LineString l = false) ->
           lint_roll g = g)
    /\ ((forall gs, g <> GeometryCollection gs) -> lint_roll g = g).
Proof.
  intros g. split; [|split].
  - intros gs -> [p Hp] [l [Hl Hline]]. unfold lint_roll.
    assert (Hpoly : truthy_list (List.filter is_Polygon gs) = true).
    { destruct (truthy_list (List.filter is_Polygon gs)) eqn:E; [reflexivity|].
      rewrite truthy_filter_false in E. now specialize (E _ Hp). }
    assert (Hls : truthy_list (List.filter is_LineString gs) = true).
    { destruct (truthy_list (List.filter is_LineString gs)) eqn:E; [reflexivity|].
      rewrite truthy_filter_false in E. specialize (E _ Hl). congruence. }
    rewrite Hpoly, Hls. simpl. rewrite polygon_parts_filter.
    rewrite filter_is_Polygon, List.length_map.
    split; [intros q; apply in_polygon_parts|]. split.
    + intros q Hq. rewrite Hq. reflexivity.
    + intros Hlen.
      destruct (1 <? Z.of_nat (List.length (polygon_parts gs))) eqn:E; [reflexivity|].
      apply Z.ltb_ge in E. lia.
  - intros gs -> H. unfold lint_roll.
    destruct H as [H|H].
    + assert (E : truthy_list (List.filter is_Polygon gs) = false).
      { apply truthy_filter_false. intros x Hx. destruct x; try reflexivity.
        now apply H in Hx. }
      now rewrite E.
    + assert (E : truthy_list (List.filter is_LineString gs) = false).
      { now apply truthy_filter_false. }
      rewrite E. now rewrite andb_false_r.
  - intros H. destruct g; try reflexivity. now specialize (H gs).
Qed.


Lemma lint_roll_spec_witness :
  lint_roll (GeometryCollection
               [Point [(0%Q, 0%Q)];
                Polygon (mkPolygon [(0%Q, 0%Q); (1%Q, 0%Q); (0%Q, 1%Q); (0%Q, 0%Q)] []);
                LineString [(0%Q, 0%Q); (1%Q, 1%Q)]])
  = Polygon (mkPolygon [(0%Q, 0%Q); (1%Q, 0%Q); (0%Q, 1%Q); (0%Q, 0%Q)] []).
Proof.
  apply (proj1 (lint_roll_spec _) _ eq_refl).
  - eexists. right. now left.
  - eexists. split; [right; right; now left|reflexivity].
  - reflexivity.
Defined.

Example lint_roll_drops_point :
  lint_roll (GeometryCollection
               [Point [(0%Q, 0%Q)];
                Polygon (mkPolygon [(0%Q, 0%Q); (1%Q, 0%Q); (0%Q, 1%Q); (0%Q, 0%Q)] []);
                LineString [(0%Q, 0%Q); (1%Q, 1%Q)]])
  = Polygon (mkPolygon [(0%Q, 0%Q); (1%Q, 0%Q); (0%Q, 1%Q); (0%Q, 0%Q)] []).
Proof. reflexivity. Qed.

Example lint_roll_keeps_points :
  lint_roll (GeometryCollection
               [Point [(0%Q, 0%Q)];
                Polygon (mkPolygon [(0%Q, 0%Q); (1%Q, 0%Q); (0%Q, 1%Q); (0%Q, 0%Q)] [])])
  = GeometryCollection
      [Point [(0%Q, 0%Q)];
       Polygon (mkPolygon [(0%Q, 0%Q); (1%Q, 0%Q); (0%Q, 1%Q); (0%Q, 0%Q)] [])].
Proof. reflexivity. Qed.

(** ** Sorting and grouping by the serialized properties *)

Lemma ascii_compare_trans a b c r :
  Ascii.compare a b = r -> Ascii.compare b c = r -> r <> Eq ->
  Ascii.compare a c = r.
Proof.
  unfold Ascii.compare. intros H1 H2 Hr. destruct r; try congruence.
  - rewrite N.compare_lt_iff in *. lia.
  - rewrite N.compare_gt_iff in *. lia.
Qed.

Lemma string_leb_trans a b c :
  String.leb a b = true -> String.leb b c = true -> String.leb a c = true.
Proof.
  unfold String.leb. revert b c.
  induction a as [|x a IH]; intros [|y b] [|z c]; simpl; try congruence; auto.
  destruct (Ascii.compare x y) eqn:Hxy; destruct (Ascii.compare y z) eqn:Hyz;
    try congruence; intros H1 H2.
  - apply Ascii.compare_eq_iff in Hxy, Hyz. subst.
    assert (Ascii.compare z z = Eq) as -> by (unfold Ascii.compare; apply N.compare_refl).
    eapply IH; eauto.
  - apply Ascii.compare_eq_iff in Hxy. subst. rewrite Hyz. reflexivity.
  - apply Ascii.compare_eq_iff in Hyz. subst. rewrite Hxy. reflexivity.
  - rewrite (ascii_compare_trans x y z Lt Hxy Hyz); [reflexivity|discriminate].
Qed.

Section SortGroup.

Context {A : Type}.
Variable key : A -> string.

Local Abbreviation key_le := (Clean.key_le key).

Lemma insert_by_perm x l : Permutation (insert_by key x l) (x :: l).
Proof.
  induction l as [|y l IH]; simpl; [reflexivity|].
  destruct (String.leb (key x) (key y)); [reflexivity|].
  rewrite IH. apply perm_swap.
Qed.

Lemma sorted_perm l : Permutation (sorted key l) l.
Proof.
  induction l as [|x l IH]; simpl; [reflexivity|].
  rewrite insert_by_perm. now rewrite IH.
Qed.

Lemma insert_by_sorted x l :
  StronglySorted key_le l -> StronglySorted key_le (insert_by key x l).
Proof.
  induction 1 as [|y l Hl IH Hy]; simpl.
  - constructor; constructor.
  - destruct (String.leb (key x) (key y)) eqn:E.
    + constructor; [constructor; assumption|].
      constructor; [exact E|].
      rewrite List.Forall_forall in *. intros z Hz.
      unfold key_le. eapply string_leb_trans; [exact E|]. now apply Hy.
    + constructor; [exact IH|].
      rewrite List.Forall_forall in *. intros z Hz.
      apply (Permutation_in _ (insert_by_perm x l)) in Hz.
      destruct Hz as [<-|Hz]; [|now apply Hy].
      unfold key_le. destruct (String.leb_total (key x) (key y)) as [H|H];
        congruence.
Qed.

Lemma sorted_sorted l : StronglySorted key_le (sorted key l).
Proof.
  induction l as [|x l IH]; simpl; [constructor|].
  now apply insert_by_sorted.
Qed.

Lemma groupby_flat l : List.concat (List.map snd (groupby key l)) = l.
Proof.
  induction l as [|x l IH]; simpl; [reflexivity|].
  destruct (groupby key l) as [|[k xs] gs]; simpl in *.
  - now rewrite <- IH.
  - destruct (String.eqb (key x) k); simpl; now rewrite IH.
Qed.

Lemma groupby_keys l k xs :
  In (k, xs) (groupby key l) -> xs <> [] /\ forall x, In x xs -> key x = k.
Proof.
  revert k xs. induction l as [|x l IH]; simpl; [tauto|].
  intros k xs. destruct (groupby key l) as [|[k' xs'] gs].
  - intros [H|[]]. inversion H; subst. split; [discriminate|].
    intros y [<-|[]]. reflexivity.
  - destruct (String.eqb_spec (key x) k') as [E|E].
    + intros [H|H].
      * inversion H; subst. split; [discriminate|].
        intros y [<-|Hy]; [reflexivity|].
        now apply (IH (key x) xs'); [left|].
      * apply IH. now right.
    + intros [H|H].
      * inversion H; subst. split; [discriminate|].
        intros y [<-|[]]. reflexivity.
      * now apply IH.
Qed.

Lemma groupby_head x l :
  exists xs gs, groupby key (x :: l) = (key x, xs) :: gs.
Proof.
  simpl. destruct (groupby key l) as [|[k xs] gs]; [eauto|].
  destruct (String.eqb_spec (key x) k) as [->|E]; eauto.
Qed.

Lemma groupby_key_in l k :
  In k (List.map fst (groupby key l)) -> exists x, In x l /\ key x = k.
Proof.
  intros H. apply in_map_iff in H. destruct H as [[k' xs] [Hk Hin]].
  simpl in Hk. subst k'. destruct (groupby_keys _ _ _ Hin) as [Hne Hall].
  destruct xs as [|y xs]; [congruence|].
  exists y. split; [|apply Hall; now left].
  rewrite <- (groupby_flat l). apply in_concat.
  exists (y :: xs). split; [|now left].
  apply in_map_iff. exists (k, y :: xs). auto.
Qed.

Lemma groupby_cons x l :
  groupby key (x :: l) =
  match groupby key l with
  | (k, xs) :: gs =>
      if String.eqb (key x) k then (k, x :: xs) :: gs
      else (key x, [x]) :: (k, xs) :: gs
  | [] => [(key x, [x])]
  end.
Proof. reflexivity. Qed.

Lemma groupby_NoDup l :
  StronglySorted key_le l -> List.NoDup (List.map fst (groupby key l)).
Proof.
  induction 1 as [|x l Hl IH Hx]; [apply List.NoDup_nil|].
  destruct l as [|y l'].
  - simpl. apply List.NoDup_cons_iff. split; [intros []|apply List.NoDup_nil].
  - destruct (groupby_head y l') as [xs [gs Hg]].
    rewrite groupby_cons, Hg. rewrite Hg in IH.
    destruct (String.eqb_spec (key x) (key y)) as [E|E]; [exact IH|].
    cbn [List.map fst]. apply List.NoDup_cons_iff. split; [|exact IH].
    intros Hin.
    assert (Hk : In (key x) (List.map fst (groupby key (y :: l')))).
    { rewrite Hg. exact Hin. }
    apply groupby_key_in in Hk. destruct Hk as [z [Hz Hkz]].
    rewrite List.Forall_forall in Hx.
    apply E. apply String.leb_antisym.
    + apply Hx. now left.
    + rewrite <- Hkz. destruct Hz as [<-|Hz].
      * destruct (String.leb_total (key y) (key y)); assumption.
      * inversion Hl as [|? ? _ Hy]; subst.
        rewrite List.Forall_forall in Hy. now apply Hy.
Qed.

Lemma groupby_member l x :
  In x l -> exists xs, In (key x, xs) (groupby key l) /\ In x xs.
Proof.
  intros Hx. rewrite <- (groupby_flat l) in Hx.
  apply in_concat in Hx. destruct Hx as [xs [Hxs Hin]].
  apply in_map_iff in Hxs. destruct Hxs as [[k xs'] [E Hg]].
  simpl in E. subst xs'.
  destruct (groupby_keys _ _ _ Hg) as [_ Hall].
  rewrite <- (Hall x Hin) in Hg. eauto.
Qed.

End SortGroup.

Lemma filterM_spec {A} (f : A -> Py.result bool) l kept :
  filterM f l = Py.Ok kept ->
  forall x, In x kept <-> In x l /\ f x = Py.Ok true.
Proof.
  revert kept. induction l as [|y l IH]; simpl; intros kept H.
  - inversion H. simpl. tauto.
  - destruct (f y) as [b|e] eqn:Hy; [|discriminate]. cbn in H.
    destruct (filterM f l) as [r|e]; [|discriminate]. cbn in H.
    inversion H; subst. intros x. specialize (IH r eq_refl x).
    destruct b; simpl; rewrite ?IH.
    + split.
      * intros [<-|[H1 H2]]; auto.
      * intros [[<-|H1] H2]; auto.
    + split.
      * intros [H1 H2]; auto.
      * intros [[<-|H1] H2]; [congruence|auto].
Qed.

Lemma mapM_fst {A B} (f : A -> Py.result (string * B)) (k : A -> string) l out :
  (forall x y, f x = Py.Ok y -> fst y = k x) ->
  mapM f l = Py.Ok out -> List.map fst out = List.map k l.
Proof.
  intros Hf. revert out. induction l as [|x l IH]; simpl; intros out H.
  - inversion H. reflexivity.
  - destruct (f x) as [y|e] eqn:Hy; [|discriminate]. cbn in H.
    destruct (mapM f l) as [r|e]; [|discriminate]. cbn in H.
    inversion H; subst. simpl. f_equal; [now apply Hf|now apply IH].
Qed.

(** C6 (as the code has it).  The features that pass the visibility
    filter are grouped by the text [json.dumps] gives for their
    properties: every such feature lies in the group of its text, no two
    groups have the same text, a group holds only features of its text,
    and [clean_geometries] emits exactly one feature per group.  So two
    features share a group exactly when their properties serialize to the
    same text, which depends on the order of the keys. *)
Theorem grouped_by_serialization :
  forall (float_repr : Q -> string) (features : list Feature)
         (gs : list (string * list Feature)),
    grouped float_repr features = Py.Ok gs ->
    List.NoDup (List.map fst gs)
    /\ (forall f, In f features -> visible f = Py.Ok true ->
        exists fs, In (keyfunc float_repr f, fs) gs /\ In f fs)
    /\ (forall k fs f, In (k, fs) gs -> In f fs ->
        keyfunc float_repr f = k /\ In f features)
    /\ (forall ring_area to_shape union_all out,
        clean_geometries float_repr ring_area to_shape union_all features = Py.Ok out ->
        List.map fst out = List.map fst gs).
Proof.
  intros float_repr features gs H. unfold grouped in H.
  destruct (filterM visible features) as [kept|e] eqn:Hk; [|discriminate].
  cbn in H. inversion H; subst gs; clear H.
  pose proof (filterM_spec _ _ _ Hk) as Hkept.
  repeat split.
  - apply groupby_NoDup, sorted_sorted.
  - intros f Hf Hv. apply groupby_member.
    apply (Permutation_in _ (Permutation_sym (sorted_perm _ kept))).
    apply Hkept. auto.
  - destruct (groupby_keys _ _ _ _ H) as [_ Hall]. now apply Hall.
  - assert (Hin : In f (sorted (keyfunc float_repr) kept)).
    { rewrite <- (groupby_flat (keyfunc float_repr)). apply in_concat.
      exists fs. split; [|assumption].
      apply in_map_iff. exists (k, fs). auto. }
    apply (Permutation_in _ (sorted_perm _ kept)) in Hin.
    now apply Hkept in Hin.
  - intros ring_area to_shape union_all out Hout.
    unfold clean_geometries, grouped in Hout. rewrite Hk in Hout. cbn in Hout.
    eapply mapM_fst; [|exact Hout].
    intros g y Hy. unfold clean_group in Hy.
    destruct (mapM _ (snd g)); [|discriminate]. cbn in Hy.
    inversion Hy. reflexivity.
Qed.

Lemma grouped_by_serialization_witness :
  List.NoDup (List.map fst
     (groupby (keyfunc Sample.float_repr)
        (sorted (keyfunc Sample.float_repr)
           [Sample.feature_ab; Sample.feature_ba; Sample.feature_ab])))
  /\ List.length
       (groupby (keyfunc Sample.float_repr)
          (sorted (keyfunc Sample.float_repr)
             [Sample.feature_ab; Sample.feature_ba; Sample.feature_ab])) = 2%nat.
Proof.
  split.
  - exact (proj1 (grouped_by_serialization Sample.float_repr
             [Sample.feature_ab; Sample.feature_ba; Sample.feature_ab] _ eq_refl)).
  - vm_compute. reflexivity.
Defined.

(** C6 (as claimed) fails: two features whose properties are the same
    mapping written in two key orders end in two groups. *)
Lemma grouping_depends_on_key_order :
  ~ groups_by_mapping Sample.float_repr [Sample.feature_ab; Sample.feature_ba].
Proof.
  intros H.
  destruct (H _ Sample.feature_ab Sample.feature_ba eq_refl)
    as [k [fs [Hg [H1 H2]]]].
  - now left.
  - right. now left.
  - reflexivity.
  - reflexivity.
  - intros k. simpl.
    destruct (String.eqb_spec k "a") as [->|Ha]; [reflexivity|].
    destruct (String.eqb_spec k "b") as [->|Hb]; reflexivity.
  - vm_compute in Hg.
    destruct Hg as [Hg|[Hg|[]]]; inversion Hg; subst fs.
    + destruct H2 as [H2|[]]. discriminate H2.
    + destruct H1 as [H1|[]]. discriminate H1.
Qed.

(** ** What [tweeze] and [lint_roll] change *)





Lemma lint_roll_cases g :
  lint_roll g = g
  \/ (exists p, lint_roll g = Polygon p)
  \/ (exists ps, lint_roll g = MultiPolygon ps).
Proof.
  destruct g as [c|cs|cs|p|cs|ls|ps|gs]; try (left; reflexivity).
  unfold lint_roll.
  destruct (truthy_list (List.filter is_Polygon gs)
            && truthy_list (List.filter is_LineString gs)); [|now left].
  destruct (1 <? Z.of_nat (List.length (List.filter is_Polygon gs))).
  - right. right. eauto.
  - rewrite filter_is_Polygon.
    destruct (polygon_parts gs) as [|p ps]; simpl; [now left|].
    right. left. eauto.
Qed.

(** X2.  [lint_roll] is idempotent: a second pass changes nothing. *)
Theorem lint_roll_idempotent :
  forall g : Geometry, lint_roll (lint_roll g) = lint_roll g.
Proof.
  intros g. destruct (lint_roll_cases g) as [E|[[p E]|[ps E]]].
  - now rewrite E.
  - rewrite E. reflexivity.
  - rewrite E. reflexivity.
Qed.

(** X3.  What [lint_roll] returns is never a collection that holds a
    polygon beside a line string: when the result is a collection, it has
    no polygon member or no line-string member.  (Members of members are
    not looked at: [lint_roll] does not descend.) *)
Theorem lint_roll_result_unmixed :
  forall (g : Geometry) (gs : list Geometry),
    lint_roll g = GeometryCollection gs ->
    (forall p, ~ In (Polygon p) gs)
    \/ (forall l, In l gs -> is_LineString l = false).
Proof.
  intros g gs H.
  destruct g as [c|cs|cs|p|cs|ls|ps|gs0]; try discriminate H.
  unfold lint_roll in H.
  destruct (truthy_list (List.filter is_Polygon gs0)) eqn:Ep.
  - destruct (truthy_list (List.filter is_LineString gs0)) eqn:El.
    + cbn [andb] in H.
      destruct (1 <? Z.of_nat (List.length (List.filter is_Polygon gs0)));
        [discriminate H|].
      rewrite filter_is_Polygon in H.
      destruct (polygon_parts gs0) as [|p ps] eqn:Eparts; simpl in H;
        [|discriminate H].
      rewrite filter_is_Polygon, Eparts in Ep. discriminate Ep.
    + cbn [andb] in H. inversion H; subst gs0. right.
      now apply truthy_filter_false.
  - cbn [andb] in H. inversion H; subst gs0. left.
    intros p Hp. rewrite truthy_filter_false in Ep.
    specialize (Ep _ Hp). discriminate Ep.
Qed.

Lemma lint_roll_result_unmixed_witness :
  (forall p,
      ~ In (Polygon p)
          [Point [(0%Q, 0%Q)]; LineString [(0%Q, 0%Q); (1%Q, 1%Q)]])
  \/ (forall l,
         In l [Point [(0%Q, 0%Q)]; LineString [(0%Q, 0%Q); (1%Q, 1%Q)]] ->
         is_LineString l = false).
Proof.
  apply (lint_roll_result_unmixed
           (GeometryCollection
              [Point [(0%Q, 0%Q)]; LineString [(0%Q, 0%Q); (1%Q, 1%Q)]])).
  reflexivity.
Defined.

Lemma is_Polygon_tweeze ring_area g :
  is_Polygon (tweeze ring_area g) = is_Polygon g.
Proof. destruct g; reflexivity. Qed.

Lemma is_LineString_tweeze ring_area g :
  is_LineString (tweeze ring_area g) = is_LineString g.
Proof. destruct g; reflexivity. Qed.

Lemma filter_map_commute {A} (p : A -> bool) (f : A -> A) (l : list A) :
  (forall x, p (f x) = p x) ->
  List.filter p (List.map f l) = List.map f (List.filter p l).
Proof.
  intros H. induction l as [|x l IH]; simpl; [reflexivity|].
  rewrite H. destruct (p x); simpl; now rewrite IH.
Qed.

Lemma truthy_list_map {A B} (f : A -> B) (l : list A) :
  truthy_list (List.map f l) = truthy_list l.
Proof. destruct l; reflexivity. Qed.

Lemma polygon_parts_tweeze ring_area gs :
  polygon_parts (List.map (tweeze ring_area) gs)
  = List.map (tweeze_polygon ring_area) (polygon_parts gs).
Proof.
  induction gs as [|g gs IH]; simpl; [reflexivity|].
  destruct g; simpl; try apply IH. now rewrite IH.
Qed.

(** X4.  Sliver removal and line removal commute: [lint_roll] after
    [tweeze], the order in which [clean_geometries] applies them, gives
    the same geometry as [tweeze] after [lint_roll]. *)
Theorem lint_roll_tweeze_commute :
  forall (ring_area : Coords -> Q) (g : Geometry),
    lint_roll (tweeze ring_area g) = tweeze ring_area (lint_roll g).
Proof.
  intros ring_area g.
  destruct g as [c|cs|cs|p|cs|ls|ps|gs]; try reflexivity.
  cbn [tweeze]. unfold lint_roll.
  rewrite !(filter_map_commute _ (tweeze ring_area))
    by (intros; first [apply is_Polygon_tweeze|apply is_LineString_tweeze]).
  rewrite !truthy_list_map, List.length_map.
  destruct (truthy_list (List.filter is_Polygon gs)
            && truthy_list (List.filter is_LineString gs)); [|reflexivity].
  destruct (1 <? Z.of_nat (List.length (List.filter is_Polygon gs))).
  - cbn [tweeze]. f_equal.
    rewrite <- polygon_parts_tweeze.
    rewrite <- (filter_map_commute is_Polygon (tweeze ring_area))
      by (intros; apply is_Polygon_tweeze).
    reflexivity.
  - destruct (List.filter is_Polygon gs) as [|p0 rest]; reflexivity.
Qed.

(** ** The groups of [clean_geometries] *)

Section Stable.

Context {A : Type}.
Variable key : A -> string.

Local Abbreviation key_le := (Clean.key_le key).
Local Abbreviation has_key k := (fun y : A => String.eqb (key y) k).

Lemma string_leb_refl (a : string) : String.leb a a = true.
Proof. destruct (String.leb_total a a); assumption. Qed.

(** [sorted] is stable: the elements with one key keep their order. *)
Lemma filter_insert_by k x l :
  List.filter (has_key k) (insert_by key x l)
  = List.filter (has_key k) (x :: l).
Proof.
  induction l as [|y l IH]; [reflexivity|].
  cbn [insert_by]. destruct (String.leb (key x) (key y)) eqn:E; [reflexivity|].
  change (List.filter (has_key k) (y :: insert_by key x l))
    with (if String.eqb (key y) k
          then y :: List.filter (has_key k) (insert_by key x l)
          else List.filter (has_key k) (insert_by key x l)).
  rewrite IH. cbn [List.filter].
  destruct (String.eqb_spec (key x) k) as [Hx|Hx];
    destruct (String.eqb_spec (key y) k) as [Hy|Hy]; try reflexivity.
  exfalso. rewrite Hx, Hy, string_leb_refl in E. discriminate E.
Qed.

Lemma filter_sorted k l :
  List.filter (has_key k) (sorted key l) = List.filter (has_key k) l.
Proof.
  induction l as [|x l IH]; [reflexivity|].
  cbn [sorted]. rewrite filter_insert_by. cbn [List.filter]. now rewrite IH.
Qed.

Lemma sorted_head_least x l z :
  StronglySorted key_le (x :: l) -> In z (x :: l) ->
  String.leb (key x) (key z) = true.
Proof.
  intros Hs [<-|Hz]; [apply string_leb_refl|].
  inversion Hs as [|? ? _ Hx]; subst.
  rewrite List.Forall_forall in Hx. now apply Hx.
Qed.

Lemma filter_none {B} (p : B -> bool) l :
  (forall z, In z l -> p z = false) -> List.filter p l = [].
Proof.
  induction l as [|y l IH]; intros H; [reflexivity|].
  simpl. rewrite (H y) by now left. apply IH. intros z Hz. apply H. now right.
Qed.

(** In a sorted list a run of [groupby] holds every element of its
    key. *)
Lemma groupby_runs l : forall k xs,
  StronglySorted key_le l ->
  In (k, xs) (groupby key l) ->
  xs = List.filter (has_key k) l.
Proof.
  induction l as [|x l IH]; intros k xs Hs Hin; [destruct Hin|].
  assert (Hl : StronglySorted key_le l) by (inversion Hs; assumption).
  rewrite groupby_cons in Hin.
  destruct (groupby key l) as [|[k' xs'] gs] eqn:Hg.
  - assert (l = []) as ->.
    { rewrite <- (groupby_flat key l), Hg. reflexivity. }
    destruct Hin as [Hin|[]]. inversion Hin; subst.
    simpl. now rewrite String.eqb_refl.
  - assert (Hother : key x <> k' -> forall z, In z l -> key z <> key x).
    { intros Hne z Hz Hzx. destruct l as [|y0 l0]; [destruct Hz|].
      destruct (groupby_head key y0 l0) as [ys [gs' Hhead]].
      rewrite Hhead in Hg. inversion Hg; subst k'.
      apply Hne. apply String.leb_antisym.
      - apply (sorted_head_least x (y0 :: l0)); [exact Hs|right; now left].
      - rewrite <- Hzx. now apply (sorted_head_least y0 l0). }
    destruct (String.eqb_spec (key x) k') as [E|E].
    + destruct Hin as [Hin|Hin].
      * inversion Hin; subst k xs. cbn [List.filter].
        rewrite E, String.eqb_refl. f_equal.
        apply IH; [exact Hl|now left].
      * assert (Hk : k <> k').
        { pose proof (groupby_NoDup key l Hl) as Hnd. rewrite Hg in Hnd.
          cbn [List.map fst] in Hnd. apply List.NoDup_cons_iff in Hnd.
          intros ->. apply (proj1 Hnd).
          apply in_map_iff. exists (k', xs). auto. }
        cbn [List.filter].
        destruct (String.eqb_spec (key x) k) as [Hx|Hx]; [congruence|].
        apply IH; [exact Hl|now right].
    + destruct Hin as [Hin|Hin].
      * inversion Hin; subst k xs. cbn [List.filter].
        rewrite String.eqb_refl. f_equal. symmetry. apply filter_none.
        intros z Hz. apply String.eqb_neq. now apply Hother.
      * cbn [List.filter].
        destruct (String.eqb_spec (key x) k) as [Hx|Hx]; [|now apply IH].
        exfalso. rewrite <- Hg in Hin.
        pose proof (groupby_keys key _ _ _ Hin) as [Hne Hall].
        destruct xs as [|z xs]; [congruence|].
        apply (Hother E z).
        -- rewrite <- (groupby_flat key l). apply in_concat.
           exists (z :: xs). split; [|now left].
           apply in_map_iff. exists (k, z :: xs). auto.
        -- rewrite Hx. apply Hall. now left.
Qed.

(** The keys of the runs of a sorted list increase strictly. *)
Lemma groupby_increasing l :
  StronglySorted key_le l ->
  StronglySorted str_lt (List.map fst (groupby key l)).
Proof.
  induction 1 as [|x l Hl IH Hx]; [constructor|].
  destruct l as [|y l'].
  - simpl. constructor; constructor.
  - destruct (groupby_head key y l') as [xs [gs Hg]].
    rewrite groupby_cons, Hg. rewrite Hg in IH.
    destruct (String.eqb_spec (key x) (key y)) as [E|E]; [exact IH|].
    cbn [List.map fst] in *. constructor; [exact IH|].
    rewrite List.Forall_forall in *. intros k Hk.
    assert (Hin : In k (List.map fst (groupby key (y :: l')))).
    { rewrite Hg. exact Hk. }
    apply groupby_key_in in Hin. destruct Hin as [z [Hz Hkz]].
    assert (Hle : String.leb (key x) k = true).
    { rewrite <- Hkz. now apply Hx. }
    split; [exact Hle|]. intros Hxk. apply E.
    apply String.leb_antisym; [apply Hx; now left|].
    rewrite Hxk, <- Hkz. now apply (sorted_head_least y l').
Qed.

End Stable.

Lemma filterM_filter {A} (f : A -> Py.result bool) l kept :
  filterM f l = Py.Ok kept ->
  kept = List.filter (fun x => match f x with
                               | Py.Ok b => b
                               | Py.Raise _ => false
                               end) l.
Proof.
  revert kept. induction l as [|y l IH]; simpl; intros kept H.
  - now inversion H.
  - destruct (f y) as [b|e] eqn:Hy; [|discriminate]. cbn in H.
    destruct (filterM f l) as [r|e]; [|discriminate]. cbn in H.
    inversion H; subst. specialize (IH r eq_refl).
    destruct b; simpl; congruence.
Qed.

Lemma filter_filter {A} (p q : A -> bool) l :
  List.filter q (List.filter p l) = List.filter (fun x => p x && q x) l.
Proof.
  induction l as [|x l IH]; simpl; [reflexivity|].
  destruct (p x); simpl; [destruct (q x)|]; now rewrite IH.
Qed.

(** X5.  A group of [clean_geometries] holds every visible feature whose
    properties serialize to the group's text, and holds them in the order
    of the input: sorting is stable and a run of [groupby] over the sorted
    features is never cut.  A feature is visible when its properties have
    no ["visibility"] or a truthy one. *)
Theorem grouped_members :
  forall (float_repr : Q -> string) (features : list Feature)
         (gs : list (string * list Feature)) (k : string) (fs : list Feature),
    grouped float_repr features = Py.Ok gs ->
    In (k, fs) gs ->
    fs = List.filter
           (fun f => is_visible f && String.eqb (keyfunc float_repr f) k)
           features.
Proof.
  intros float_repr features gs k fs H Hin. unfold grouped in H.
  bind_ok H as kept Hk. inversion H; subst gs; clear H.
  apply groupby_runs in Hin; [|apply sorted_sorted].
  rewrite filter_sorted in Hin.
  rewrite (filterM_filter _ _ _ Hk), filter_filter in Hin. exact Hin.
Qed.

Lemma grouped_members_witness :
  [Sample.feature_ab; Sample.feature_ab]
  = List.filter
      (fun f => is_visible f
                && String.eqb (keyfunc Sample.float_repr f)
                              (keyfunc Sample.float_repr Sample.feature_ab))
      [Sample.feature_ab; Sample.feature_ba; Sample.feature_ab].
Proof.
  apply (grouped_members Sample.float_repr
           [Sample.feature_ab; Sample.feature_ba; Sample.feature_ab]
           _ _ _ eq_refl).
  vm_compute. now left.
Defined.

(** X6.  [clean_geometries] emits its features in strictly increasing
    order of the text of their properties, compared as [str]: the order of
    the input is not kept, and no text is emitted twice. *)
Theorem clean_geometries_order :
  forall (float_repr : Q -> string) (ring_area : Coords -> Q)
         (to_shape : Json.value -> Py.result Geometry)
         (union_all : list Geometry -> Geometry)
         (features : list Feature) (out : list (string * Geometry)),
    clean_geometries float_repr ring_area to_shape union_all features
    = Py.Ok out ->
    StronglySorted str_lt (List.map fst out).
Proof.
  intros float_repr ring_area to_shape union_all features out H.
  unfold clean_geometries, grouped in H.
  bind_ok H as gs Hg. bind_ok Hg as kept Hk. inversion Hg; subst gs; clear Hg.
  assert (Hfst : List.map fst out
                 = List.map fst (groupby (keyfunc float_repr)
                                   (sorted (keyfunc float_repr) kept))).
  { eapply mapM_fst; [|exact H].
    intros g y Hy. unfold clean_group in Hy.
    destruct (mapM _ (snd g)); [|discriminate]. cbn in Hy.
    inversion Hy. reflexivity. }
  rewrite Hfst. apply groupby_increasing, sorted_sorted.
Qed.

Lemma clean_geometries_order_witness :
  StronglySorted str_lt
    [keyfunc Sample.float_repr Sample.feature_ab;
     keyfunc Sample.float_repr Sample.feature_ba].
Proof.
  apply (clean_geometries_order Sample.float_repr
           (fun _ => 0%Q) (fun _ => Py.Ok (Point []))
           (fun gs => GeometryCollection gs)
           [Sample.feature_ba; Sample.feature_ab; Sample.feature_ba]
           [(keyfunc Sample.float_repr Sample.feature_ab,
             GeometryCollection [Point []]);
            (keyfunc Sample.float_repr Sample.feature_ba,
             GeometryCollection [Point []; Point []])]).
  vm_compute. reflexivity.
Defined.

(** What [mapM] returns comes from its arguments, one for one. *)
Lemma mapM_in {A B} (f : A -> Py.result B) l out :
  mapM f l = Py.Ok out ->
  forall y, In y out -> exists x, In x l /\ f x = Py.Ok y.
Proof.
  revert out. induction l as [|x l IH]; simpl; intros out H y Hy.
  - inversion H; subst. destruct Hy.
  - destruct (f x) as [y0|e] eqn:Hx; [|discriminate]. cbn in H.
    destruct (mapM f l) as [r|e]; [|discriminate]. cbn in H.
    inversion H; subst. destruct Hy as [<-|Hy]; [eauto|].
    destruct (IH r eq_refl y Hy) as [x' [Hx' Hf]]. eauto.
Qed.

End CleanFacts.

(** * Facts about prepare.py *)

Module PrepareFacts.

Import Shapely Prepare.

(** ** The scenarios of tests/test_prepare.py *)


Example prepare_simple : Sample.prepare_counts Sample.simple_lines = Py.Ok (4%nat, 6%nat).
Proof. vm_compute. reflexivity. Qed.

Example prepare_disconnected :
  Sample.prepare_counts Sample.disconnected_lines = Py.Ok (7%nat, 10%nat).
Proof. vm_compute. reflexivity. Qed.

Example prepare_approximate :
  Sample.prepare_counts Sample.approximate_lines = Py.Ok (4%nat, 6%nat).
Proof. vm_compute. reflexivity. Qed.

(** ** Edge pairing in [make_edges] *)

Lemma with_reversed_paired (es : list Edge) :
  paired (es ++ List.map reversed_edge es).
Proof.
  intros r Hr Hk. apply in_app_or in Hr. destruct Hr as [Hr|Hr].
  - exists (reversed_edge r). repeat split; try reflexivity.
    apply in_or_app. right. now apply in_map.
  - apply in_map_iff in Hr. destruct Hr as [r0 [<- _]].
    simpl in Hk. discriminate.
Qed.

Lemma make_edges_paired project utm_length threshold set_order
  substitution_order lines nodes edges :
  make_edges project utm_length threshold set_order substitution_order
             lines nodes = Py.Ok edges ->
  paired edges.
Proof.
  unfold make_edges. intros H.
  bind_ok H as pieces Ep. bind_ok H as es Ee. inversion H; subst.
  apply with_reversed_paired.
Qed.

(** ** [cluster] *)

Lemma coord_eqb_refl c : coord_eqb c c = true.
Proof.
  unfold coord_eqb. apply andb_true_iff. split; apply Qeq_bool_iff; reflexivity.
Qed.

Lemma coord_eqb_sym a b : coord_eqb a b = true -> coord_eqb b a = true.
Proof.
  unfold coord_eqb. rewrite !andb_true_iff, !Qeq_bool_iff.
  intros [H1 H2]. split; symmetry; assumption.
Qed.

Lemma set_add_in n s x : In x (set_add n s) <-> x = n \/ In x s.
Proof.
  induction s as [|m s IH]; simpl; [intuition|].
  destruct (Nat.ltb_spec n m); [simpl; intuition|].
  destruct (Nat.eqb_spec n m) as [->|Hne]; simpl; [intuition|].
  rewrite IH. intuition.
Qed.



Lemma in_combine_seq {A} (l : list A) : forall s i x,
  In (i, x) (combine (seq s (List.length l)) l)
  <-> (s <= i)%nat /\ nth_error l (i - s) = Some x.
Proof.
  induction l as [|y l IH]; intros s i x; simpl.
  - split; [intros []|]. intros [_ H]. destruct (i - s)%nat; discriminate.
  - rewrite IH. split.
    + intros [H|[H1 H2]].
      * inversion H; subst. rewrite Nat.sub_diag. auto.
      * split; [lia|]. replace (i - s)%nat with (S (i - S s)) by lia. exact H2.
    + intros [H1 H2]. destruct (i - s)%nat as [|k] eqn:E.
      * left. simpl in H2. inversion H2. f_equal. lia.
      * right. split; [lia|]. simpl in H2.
        replace (i - S s)%nat with k by lia. exact H2.
Qed.

Lemma in_enumerate {A} (l : list A) i x :
  In (i, x) (enumerate l) <-> nth_error l i = Some x.
Proof.
  unfold enumerate. rewrite in_combine_seq, Nat.sub_0_r.
  split; [tauto|]. intros H. split; [lia|exact H].
Qed.




Lemma uniq_insert_in c l :
  (exists c', In c' (uniq_insert c l) /\ coord_eqb c' c = true)
  /\ (forall d, In d l -> In d (uniq_insert c l)).
Proof.
  induction l as [|d l [[c' [Hc' He]] IH]]; simpl.
  - split; [|intros d []]. exists c. split; [now left|apply coord_eqb_refl].
  - destruct (coord_eqb c d) eqn:Ecd.
    + split; [|auto]. exists d. split; [now left|now apply coord_eqb_sym].
    + destruct (coord_leb c d).
      * split; [|intros x Hx; now right].
        exists c. split; [now left|apply coord_eqb_refl].
      * split.
        -- exists c'. split; [now right|assumption].
        -- intros x [<-|Hx]; [now left|right; now apply IH].
Qed.

Lemma uniq_coords_in l c :
  In c l -> exists c', In c' (uniq_coords l) /\ coord_eqb c' c = true.
Proof.
  induction l as [|d l IH]; simpl; [intros []|].
  intros [<-|Hc].
  - apply (proj1 (uniq_insert_in _ _)).
  - destruct (IH Hc) as [c' [Hc' He]].
    exists c'. split; [|assumption]. now apply (proj2 (uniq_insert_in _ _)).
Qed.



Example cluster_near_points :
  clusters Sample.bent 5 Sample.near_points = [[0%nat; 1%nat]]
  /\ cluster Sample.bent 5 Sample.near_points = [(1%Q, 0%Q)]
  /\ reprojected_centroid Sample.bent Sample.unbent Sample.near_points [0%nat; 1%nat]
     = (1%Q, (2 - 1 * 1)%Q).
Proof. vm_compute. repeat split. Qed.


(** ** The order of coordinates *)

Lemma Qlt_bool_iff (a b : Q) : Qlt_bool a b = true <-> (a < b)%Q.
Proof.
  unfold Qlt_bool. rewrite negb_true_iff. split.
  - intros H. apply Qnot_le_lt. intros Hle.
    apply Qle_bool_iff in Hle. congruence.
  - intros H. destruct (Qle_bool b a) eqn:E; [|reflexivity].
    apply Qle_bool_iff in E. lra.
Qed.

Lemma coord_leb_iff a b :
  coord_leb a b = true
  <-> (fst a < fst b \/ (fst a == fst b /\ snd a <= snd b))%Q.
Proof.
  unfold coord_leb.
  rewrite orb_true_iff, andb_true_iff, Qlt_bool_iff, Qeq_bool_iff, Qle_bool_iff.
  reflexivity.
Qed.

Lemma coord_eqb_iff a b :
  coord_eqb a b = true <-> (fst a == fst b /\ snd a == snd b)%Q.
Proof. unfold coord_eqb. now rewrite andb_true_iff, !Qeq_bool_iff. Qed.

Lemma coord_eqb_trans a b c :
  coord_eqb a b = true -> coord_eqb b c = true -> coord_eqb a c = true.
Proof.
  rewrite !coord_eqb_iff. intros [H1 H2] [H3 H4]. split; lra.
Qed.

Lemma coord_lt_iff a b :
  coord_lt a b
  <-> (fst a < fst b \/ (fst a == fst b /\ snd a < snd b))%Q.
Proof.
  unfold coord_lt. rewrite coord_leb_iff, <- not_true_iff_false, coord_eqb_iff.
  split.
  - intros [[H|[H1 H2]] Hne]; [now left|right].
    split; [exact H1|].
    destruct (Qlt_le_dec (snd a) (snd b)) as [|Hle]; [assumption|].
    exfalso. apply Hne. split; [exact H1|]. lra.
  - intros [H|[H1 H2]].
    + split; [now left|]. intros [E _]. lra.
    + split; [right; split; [exact H1|lra]|]. intros [_ E]. lra.
Qed.

Lemma coord_lt_trans a b c : coord_lt a b -> coord_lt b c -> coord_lt a c.
Proof.
  rewrite !coord_lt_iff.
  intros [H1|[H1 H1']] [H2|[H2 H2']];
    [left; lra|left; lra|left; lra|right; split; lra].
Qed.

(** Two coordinates that are not equal are ordered one way or the
    other. *)
Lemma coord_lt_total c d :
  coord_eqb c d = false -> coord_leb c d = false -> coord_lt d c.
Proof.
  rewrite <- !not_true_iff_false, coord_eqb_iff, coord_leb_iff, coord_lt_iff.
  intros Hne Hle.
  destruct (Q_dec (fst d) (fst c)) as [[H|H]|H].
  - now left.
  - exfalso. apply Hle. now left.
  - right. split; [exact H|].
    destruct (Qlt_le_dec (snd d) (snd c)) as [|Hs]; [assumption|].
    exfalso. apply Hle. right. split; [lra|exact Hs].
Qed.

Lemma uniq_insert_elem c l z :
  In z (uniq_insert c l) -> z = c \/ In z l.
Proof.
  induction l as [|d l IH]; simpl.
  - intros [<-|[]]. now left.
  - destruct (coord_eqb c d); [auto|].
    destruct (coord_leb c d).
    + intros [<-|H]; auto.
    + intros [<-|H]; [auto|]. destruct (IH H); auto.
Qed.

Lemma uniq_insert_sorted c l :
  StronglySorted coord_lt l -> StronglySorted coord_lt (uniq_insert c l).
Proof.
  induction 1 as [|d l Hl IH Hd]; simpl.
  - constructor; constructor.
  - destruct (coord_eqb c d) eqn:Ee; [now constructor|].
    destruct (coord_leb c d) eqn:El.
    + constructor; [now constructor|].
      assert (Hcd : coord_lt c d) by (split; assumption).
      constructor; [exact Hcd|].
      rewrite List.Forall_forall in *. intros z Hz.
      apply (coord_lt_trans c d z); auto.
    + constructor; [exact IH|].
      rewrite List.Forall_forall in *. intros z Hz.
      apply uniq_insert_elem in Hz. destruct Hz as [->|Hz]; [|auto].
      now apply coord_lt_total.
Qed.

Lemma uniq_coords_sorted l : StronglySorted coord_lt (uniq_coords l).
Proof.
  induction l as [|c l IH]; simpl; [constructor|].
  now apply uniq_insert_sorted.
Qed.

Lemma uniq_coords_subset l c : In c (uniq_coords l) -> In c l.
Proof.
  induction l as [|d l IH]; simpl; [auto|].
  intros H. apply uniq_insert_elem in H. destruct H as [->|H]; auto.
Qed.

(** X7.  The node table that [cluster] returns is in strictly increasing
    order of [(x, y)]: no two nodes have the same coordinates, so the
    join of a segment end with the node table finds one node at most. *)
Theorem cluster_increasing :
  forall (project : Coord -> Coord) (threshold : Q) (coords : list Coord),
    StronglySorted coord_lt (cluster project threshold coords)
    /\ forall i j a b,
         nth_error (cluster project threshold coords) i = Some a ->
         nth_error (cluster project threshold coords) j = Some b ->
         coord_eqb a b = true -> i = j.
Proof.
  intros project threshold coords.
  assert (Hs : StronglySorted coord_lt (cluster project threshold coords))
    by apply uniq_coords_sorted.
  split; [exact Hs|].
  generalize dependent (cluster project threshold coords).
  intros l Hs. induction Hs as [|d l Hl IH Hd]; intros i j a b Hi Hj E.
  - destruct i; discriminate Hi.
  - rewrite List.Forall_forall in Hd.
    destruct i as [|i], j as [|j]; simpl in Hi, Hj.
    + reflexivity.
    + inversion Hi; subst. apply nth_error_In in Hj.
      destruct (Hd _ Hj) as [_ Hne]. congruence.
    + inversion Hj; subst. apply nth_error_In in Hi.
      destruct (Hd _ Hi) as [_ Hne]. apply coord_eqb_sym in E. congruence.
    + f_equal. now apply (IH i j a b).
Qed.

(** ** Coordinates that are too far apart to be clustered *)

Lemma least_in l m : least l = Some m -> In m l.
Proof.
  revert m. induction l as [|d l IH]; simpl; intros m H; [discriminate|].
  destruct (least l) as [m'|].
  - inversion H; subst. destruct (Qle_bool d m'); [now left|right; now apply IH].
  - inversion H; subst. now left.
Qed.

Lemma map_snd_enumerate {A} (l : list A) : List.map snd (enumerate l) = l.
Proof.
  unfold enumerate. generalize 0%nat.
  induction l as [|x l IH]; intros s; simpl; [reflexivity|]. now rewrite IH.
Qed.

Lemma nearest_separated project threshold coords a :
  separated project threshold coords -> In a coords ->
  nearest threshold (List.map project coords) (project a) = [].
Proof.
  intros Hsep Ha. unfold nearest.
  destruct (least _) as [m|] eqn:E; [|reflexivity].
  apply least_in in E. apply in_map_iff in E.
  destruct E as [[i pb] [<- Hin]]. apply filter_In in Hin.
  destruct Hin as [Hin Hne]. apply in_enumerate in Hin.
  apply nth_error_In in Hin. apply in_map_iff in Hin.
  destruct Hin as [b [<- Hb]]. simpl in Hne |- *.
  apply negb_true_iff in Hne.
  now rewrite (Hsep a b Ha Hb Hne).
Qed.

Lemma clusters_separated project threshold coords :
  separated project threshold coords ->
  clusters project threshold coords = [].
Proof.
  intros Hsep. unfold clusters.
  assert (dest_groups threshold (List.map project coords) = []) as ->;
    [|reflexivity].
  unfold dest_groups. apply CleanFacts.filter_none.
  intros [i bs] Hin. apply in_map_iff in Hin.
  destruct Hin as [[i' pa] [Heq Hin]]. simpl in Heq.
  injection Heq as -> <-.
  apply in_enumerate, nth_error_In, in_map_iff in Hin.
  destruct Hin as [a [<- Ha]].
  now rewrite (nearest_separated _ _ _ _ Hsep Ha).
Qed.

Lemma cluster_separated project threshold coords :
  separated project threshold coords ->
  cluster project threshold coords = uniq_coords coords.
Proof.
  intros Hsep. unfold cluster. rewrite (clusters_separated _ _ _ Hsep).
  simpl. unfold non_clustered. simpl.
  rewrite List.forallb_filter_id, map_snd_enumerate; [reflexivity|].
  apply forallb_forall. reflexivity.
Qed.

(** X8.  When no two distinct coordinates of the lines are within the
    threshold of each other (after projection), the two passes of
    [cluster] in [make_nodes] merge nothing: no cluster is formed, every
    node is a coordinate of a line as it was given, and every coordinate
    of a line is a node. *)
Theorem make_nodes_separated :
  forall (project : Coord -> Coord) (threshold : Q) (lines : list Coords),
    separated project threshold (get_coords lines) ->
    clusters project threshold (get_coords lines) = []
    /\ (forall c,
           In c (make_nodes project threshold lines) ->
           exists line, In line lines /\ In c line)
    /\ (forall line c,
           In line lines -> In c line ->
           exists c',
             In c' (make_nodes project threshold lines)
             /\ coord_eqb c' c = true).
Proof.
  intros project threshold lines Hsep.
  assert (Hsep' : separated project threshold (uniq_coords (get_coords lines))).
  { intros a b Ha Hb. apply Hsep; now apply uniq_coords_subset. }
  assert (E : make_nodes project threshold lines
              = uniq_coords (uniq_coords (get_coords lines))).
  { unfold make_nodes.
    now rewrite (cluster_separated _ _ _ Hsep), (cluster_separated _ _ _ Hsep'). }
  split; [now apply clusters_separated|]. rewrite E. split.
  - intros c Hc. apply uniq_coords_subset, uniq_coords_subset in Hc.
    unfold get_coords in Hc. apply in_concat in Hc.
    destruct Hc as [line [Hl Hc]]. eauto.
  - intros line c Hl Hc.
    assert (Hin : In c (get_coords lines)).
    { unfold get_coords. apply in_concat. eauto. }
    destruct (uniq_coords_in _ _ Hin) as [c1 [Hc1 E1]].
    destruct (uniq_coords_in _ _ Hc1) as [c2 [Hc2 E2]].
    exists c2. split; [exact Hc2|]. now apply (coord_eqb_trans c2 c1 c).
Qed.

Lemma make_nodes_separated_witness :
  clusters Sample.project 5 (get_coords Sample.simple_lines) = [].
Proof.
  apply (make_nodes_separated Sample.project 5 Sample.simple_lines).
  intros a b Ha Hb.
  simpl in Ha, Hb.
  repeat (destruct Ha as [<-|Ha]; [
    repeat (destruct Hb as [<-|Hb]; [vm_compute; tauto|]); destruct Hb|]).
  destruct Ha.
Defined.

(** ** Rounding to the hundredth *)

Lemma round2_cases q :
  exists n : Z,
    (inject_Z n <= q * 100 /\ q * 100 < inject_Z n + 1)%Q
    /\ ((round2 q == inject_Z n * (1 # 100)
         /\ q * 100 - inject_Z n <= 1 # 2)
        \/ (round2 q == (inject_Z n + 1) * (1 # 100)
            /\ 1 # 2 <= q * 100 - inject_Z n))%Q.
Proof.
  exists (Qfloor (q * 100)). split.
  - split; [apply Qfloor_le|].
    pose proof (Qlt_floor (q * 100)) as H. rewrite inject_Z_plus in H. exact H.
  - unfold round2.
    destruct (q * 100 - inject_Z (Qfloor (q * 100)) ?= 1 # 2)%Q eqn:E.
    + apply Qeq_alt in E. destruct (Z.odd (Qfloor (q * 100))).
      * right. rewrite inject_Z_plus. split; [reflexivity|].
        rewrite E. apply Qle_refl.
      * left. split; [reflexivity|]. rewrite E. apply Qle_refl.
    + apply Qlt_alt in E. left. split; [reflexivity|]. now apply Qlt_le_weak.
    + apply Qgt_alt in E. right. rewrite inject_Z_plus. split; [reflexivity|].
      now apply Qlt_le_weak.
Qed.

(** X9.  The length stored with an edge, [round(length, 2)], is a whole
    number of hundredths and differs from the measured length by half a
    hundredth at most. *)
Theorem round2_within :
  forall q : Q,
    (Qabs (round2 q - q) <= 1 # 200)%Q
    /\ exists n : Z, (round2 q == inject_Z n * (1 # 100))%Q.
Proof.
  intros q. destruct (round2_cases q) as [n [[H1 H2] [[E H]|[E H]]]].
  - split; [apply Qabs_Qle_condition; rewrite E; split; lra|].
    exists n. exact E.
  - split; [apply Qabs_Qle_condition; rewrite E; split; lra|].
    exists (n + 1). now rewrite inject_Z_plus.
Qed.

(** ** The rows of [make_edges] *)

(** X10.  The table of [make_edges] is a list of key-0 rows followed by
    their key-1 copies with [u] and [v] exchanged, in the same order.  A
    key-0 row is a line string whose ends are joined with the node table
    on equal coordinates: [u] is the node at its first coordinate and [v]
    the node at its last; its two ends are not the same node; its length
    is the rounded metric length of its geometry. *)
Theorem make_edges_rows :
  forall (project : Coord -> Coord) (utm_length : Geometry -> Q)
         (threshold : Q) (set_order : list nat -> list nat)
         (substitution_order : list (nat * Coord) -> list (nat * Coord))
         (lines : list Coords) (nodes : list Coord) (rows : list Edge),
    make_edges project utm_length threshold set_order substitution_order
               lines nodes = Py.Ok rows ->
    exists forward,
      rows = forward ++ List.map reversed_edge forward
      /\ forall e, In e forward ->
           key e = 0
           /\ ne (u e) (v e) = true
           /\ length e = round2 (utm_length (geometry e))
           /\ exists cs a b,
                geometry e = LineString cs
                /\ Shapely.first cs = Py.Ok a
                /\ Shapely.last cs = Py.Ok b
                /\ u e = node_at nodes a
                /\ v e = node_at nodes b.
Proof.
  intros project utm_length threshold set_order substitution_order lines
    nodes rows H.
  unfold make_edges in H.
  bind_ok H as pieces Ep. bind_ok H as es Ee. inversion H; subst; clear H.
  eexists. split; [reflexivity|].
  intros e He. apply filter_In in He. destruct He as [He Hne].
  destruct (CleanFacts.mapM_in _ _ _ Ee e He) as [piece [_ Hseg]].
  unfold segment_edge in Hseg.
  bind_ok Hseg as a Ea. bind_ok Hseg as b Eb. inversion Hseg; subst e.
  simpl in *. repeat split; try assumption; try reflexivity.
  exists piece, a, b. repeat split; assumption.
Qed.

Lemma make_edges_rows_witness :
  exists forward,
    [mkEdge (Some 0) (Some 1) 0 (LineString [(0%Q, 0%Q); (10%Q, 0%Q)]) (1000 # 100)%Q;
     mkEdge (Some 1) (Some 0) 1 (LineString [(0%Q, 0%Q); (10%Q, 0%Q)]) (1000 # 100)%Q]
    = forward ++ List.map reversed_edge forward.
Proof.
  destruct (make_edges_rows Sample.project Sample.axis_length 5
              Sample.set_order Sample.substitution_order
              Sample.one_line Sample.two_nodes
              [mkEdge (Some 0) (Some 1) 0
                      (LineString [(0%Q, 0%Q); (10%Q, 0%Q)]) (1000 # 100)%Q;
               mkEdge (Some 1) (Some 0) 1
                      (LineString [(0%Q, 0%Q); (10%Q, 0%Q)]) (1000 # 100)%Q])
    as [forward [E _]].
  - vm_compute. reflexivity.
  - exists forward. exact E.
Defined.

(** ** The pieces that [fn] cuts *)


Lemma set_add_sorted n s :
  StronglySorted Nat.lt s -> StronglySorted Nat.lt (set_add n s).
Proof.
  induction 1 as [|m s Hs IH Hm]; simpl.
  - constructor; constructor.
  - destruct (Nat.ltb_spec n m) as [Hlt|Hge].
    + constructor; [now constructor|]. constructor; [exact Hlt|].
      rewrite List.Forall_forall in *. intros x Hx.
      specialize (Hm x Hx). unfold Nat.lt in *. lia.
    + destruct (Nat.eqb_spec n m) as [->|Hne]; [now constructor|].
      constructor; [exact IH|].
      rewrite List.Forall_forall in *. intros x Hx.
      apply set_add_in in Hx. destruct Hx as [->|Hx]; [|now apply Hm].
      unfold Nat.lt. lia.
Qed.

Lemma to_set_sorted l : StronglySorted Nat.lt (to_set l).
Proof.
  induction l as [|n l IH]; simpl; [constructor|].
  now apply set_add_sorted.
Qed.













(** ** Split positions that are not listed in increasing order *)

Lemma mapM_all_ok {A B} (f : A -> Py.result B) l out :
  Clean.mapM f l = Py.Ok out ->
  forall x, In x l -> exists y, In y out /\ f x = Py.Ok y.
Proof.
  revert out. induction l as [|x0 l IH]; simpl; intros out H x Hx.
  - destruct Hx.
  - destruct (f x0) as [y0|e] eqn:Hx0; [|discriminate]. cbn in H.
    destruct (Clean.mapM f l) as [ys|e] eqn:Hl; [|discriminate]. cbn in H.
    inversion H; subst. destruct Hx as [<-|Hx].
    + exists y0. split; [now left|exact Hx0].
    + destruct (IH ys eq_refl x Hx) as [y [Hy Hf]].
      exists y. split; [now right|exact Hf].
Qed.

(** X29.  [make_edges] depends on the order in which Python lists the set
    of split positions.  When a line with a coordinate near a node has
    more than two split positions and they are listed with a position
    before a smaller one, [fn] cuts the empty slice between the two, and
    [make_edges] raises instead of returning a table: the empty piece has
    no first coordinate. *)
Theorem make_edges_unordered_splits :
  forall (project : Coord -> Coord) (utm_length : Geometry -> Q)
         (threshold : Q) (set_order : list nat -> list nat)
         (substitution_order : list (nat * Coord) -> list (nat * Coord))
         (lines : list Coords) (nodes : list Coord) (line : Coords)
         (a b : nat),
    In line lines ->
    pairs_of project threshold nodes line <> [] ->
    List.length
      (set_order
         (split_positions line
            (substitutions_of project threshold substitution_order
                              nodes line))) <> 2%nat ->
    In (a, b)
       (pairwise
          (set_order
             (split_positions line
                (substitutions_of project threshold substitution_order
                                  nodes line)))) ->
    (b < a)%nat ->
    exists e,
      make_edges project utm_length threshold set_order substitution_order
                 lines nodes = Py.Raise e.
Proof.
  intros project utm_length threshold set_order substitution_order lines
    nodes line a b Hline Hpairs Hlen Hab Hlt.
  destruct (make_edges project utm_length threshold set_order
              substitution_order lines nodes) as [rows|e] eqn:H;
    [exfalso|now exists e].
  unfold make_edges in H.
  bind_ok H as pieces Ep. bind_ok H as es Ee. clear H.
  destruct (mapM_all_ok _ _ _ Ep line Hline) as [ps [Hps Hof]].
  unfold pieces_of in Hof.
  destruct (pairs_of project threshold nodes line) as [|p0 prs];
    [congruence|].
  assert (Hempty : In [] (fn set_order line
                            (substitutions_of project threshold
                               substitution_order nodes line))).
  { unfold fn. apply Nat.eqb_neq in Hlen. rewrite Hlen.
    apply in_map_iff. exists (a, b). split; [|exact Hab].
    unfold slice. cbn [fst snd].
    replace (b + 1 - a)%nat with 0%nat by lia. reflexivity. }
  destruct (fn set_order line
              (substitutions_of project threshold substitution_order
                                nodes line)) as [|q qs];
    [destruct Hempty|].
  inversion Hof; subst ps.
  assert (Hseg : In [] (List.concat pieces)).
  { apply List.in_concat. exists (q :: qs). split; assumption. }
  destruct (mapM_all_ok _ _ _ Ee [] Hseg) as [y [_ Hy]].
  unfold segment_edge in Hy. cbn in Hy. discriminate Hy.
Qed.

Lemma make_edges_unordered_splits_witness :
  exists e,
    make_edges Sample.project Sample.axis_length 5 Sample.set_order
               Sample.substitution_order [Sample.long_line]
               Sample.sixth_node = Py.Raise e.
Proof.
  apply (make_edges_unordered_splits Sample.project Sample.axis_length 5
           Sample.set_order Sample.substitution_order [Sample.long_line]
           Sample.sixth_node Sample.long_line 8%nat 5%nat).
  - now left.
  - vm_compute. discriminate.
  - vm_compute. discriminate.
  - vm_compute. right. now left.
  - lia.
Defined.

(** The sample line is segmented as CPython lists its split positions:
    the whole line, then an empty piece, and the call raises. *)
Example long_line_pieces :
  fn Sample.set_order Sample.long_line [(5%nat, (50%Q, 0%Q))]
  = [Sample.long_line; []].
Proof. vm_compute. reflexivity. Qed.

End PrepareFacts.

(** * Facts about routing/__init__.py *)

Module RoutingFacts.

Import Shapely Routing.

(** ** The edges of a graph built from an edge table *)


Lemma g_edges_add_edges rows : forall G,
  g_edges (foldl add_edge G rows) = edge_map (g_edges G) rows.
Proof.
  induction rows as [|r rows IH]; intros G; [reflexivity|].
  simpl. now rewrite IH.
Qed.

Lemma g_edges_set_nodes ns : forall G,
  g_edges (foldl set_node G ns) = g_edges G.
Proof.
  induction ns as [|n ns IH]; intros G; [reflexivity|].
  simpl. now rewrite IH.
Qed.

Lemma g_edges_graph_from_gdfs ns rows :
  g_edges (graph_from_gdfs ns rows) = edge_map ∅ rows.
Proof.
  unfold graph_from_gdfs. now rewrite g_edges_set_nodes, g_edges_add_edges.
Qed.

Lemma edge_map_app m a b : edge_map m (a ++ b) = edge_map (edge_map m a) b.
Proof. unfold edge_map. apply foldl_app. Qed.

Lemma edge_map_other rows : forall m i,
  (forall r, In r rows -> index r <> i) ->
  edge_map m rows !! i = m !! i.
Proof.
  induction rows as [|r rows IH]; intros m i H; [reflexivity|].
  simpl. rewrite IH by (intros; apply H; now right).
  apply lookup_insert_ne. apply H. now left.
Qed.

Lemma edge_map_member rows : forall m r,
  List.NoDup (List.map index rows) -> In r rows ->
  edge_map m rows !! index r = Some (e_geometry r, e_length r).
Proof.
  induction rows as [|r0 rows IH]; intros m r Hnd Hr; [destruct Hr|].
  simpl in Hnd. apply List.NoDup_cons_iff in Hnd. destruct Hnd as [Hni Hnd].
  simpl. destruct Hr as [->|Hr].
  - rewrite edge_map_other.
    + apply lookup_insert_eq.
    + intros r' Hr' E. apply Hni. rewrite <- E. now apply in_map.
  - now apply IH.
Qed.

(** A table followed by its reversed rows gives a paired graph. *)
Lemma edge_map_reversed (L : list EdgeRow) :
  Forall (fun r => e_key r = 0) L ->
  forall m a b,
    edge_map m (List.map reversed_row L) !! (b, a, 1)
    = match edge_map ∅ L !! (a, b, 0) with
      | Some x => Some x
      | None => m !! (b, a, 1)
      end.
Proof.
  induction L as [|r L IH] using rev_ind; intros HL m a b.
  - simpl. now rewrite lookup_empty.
  - apply List.Forall_app in HL. destruct HL as [HL Hr].
    inversion Hr as [|? ? Hk _]; subst.
    rewrite List.map_app, !edge_map_app. simpl.
    destruct (decide (index r = (a, b, 0))) as [E|E].
    + assert (E' : index (reversed_row r) = (b, a, 1)).
      { unfold index in *. simpl. inversion E; subst. reflexivity. }
      rewrite E, E', !lookup_insert_eq. reflexivity.
    + assert (E' : index (reversed_row r) <> (b, a, 1)).
      { unfold index in *. simpl. intros E'. apply E.
        inversion E'; subst. now rewrite Hk. }
      rewrite (lookup_insert_ne _ _ _ _ E), (lookup_insert_ne _ _ _ _ E').
      now apply IH.
Qed.

Lemma graph_from_gdfs_paired ns (L : list EdgeRow) :
  Forall (fun r => e_key r = 0) L ->
  graph_paired (graph_from_gdfs ns (L ++ List.map reversed_row L)).
Proof.
  intros HL a b attrs. rewrite g_edges_graph_from_gdfs, edge_map_app.
  rewrite (edge_map_other (List.map reversed_row L) (edge_map ∅ L) (a, b, 0)).
  - intros H. rewrite (edge_map_reversed L HL). now rewrite H.
  - intros r Hr. apply in_map_iff in Hr. destruct Hr as [r0 [<- _]].
    unfold index. simpl. congruence.
Qed.

Lemma with_reversed_rows_paired (L : list EdgeRow) :
  paired (L ++ List.map reversed_row L).
Proof.
  intros r Hr Hk. apply in_app_or in Hr. destruct Hr as [Hr|Hr].
  - exists (reversed_row r). repeat split; try reflexivity.
    apply in_or_app. right. now apply in_map.
  - apply in_map_iff in Hr. destruct Hr as [r0 [<- _]].
    simpl in Hk. discriminate.
Qed.

(** ** Insertion-ordered dicts *)

Lemma has_key_app {A} n (d d' : list (Z * A)) :
  has_key n (d ++ d') = has_key n d || has_key n d'.
Proof. unfold has_key. apply existsb_app. Qed.

Lemma get_missing {A} n (dflt : A) d :
  has_key n d = false -> get n dflt d = dflt.
Proof.
  unfold get, has_key. induction d as [|x d IH]; [reflexivity|].
  simpl. destruct (fst x =? n); [discriminate|exact IH].
Qed.

Lemma get_app {A} n (dflt : A) d d' :
  get n dflt (d ++ d') = if has_key n d then get n dflt d else get n dflt d'.
Proof.
  unfold get, has_key. induction d as [|x d IH]; [reflexivity|].
  simpl. destruct (fst x =? n); [reflexivity|exact IH].
Qed.

Lemma has_key_setdefault {A} n n' (a : A) d :
  has_key n (setdefault n' a d) = has_key n d || (n' =? n).
Proof.
  unfold setdefault. destruct (has_key n' d) eqn:E.
  - destruct (Z.eqb_spec n' n) as [->|Hne]; [|now rewrite orb_false_r].
    now rewrite E.
  - rewrite has_key_app. simpl. now rewrite orb_false_r.
Qed.

Lemma get_setdefault {A} n n' (dflt : A) d :
  get n dflt (setdefault n' dflt d) = get n dflt d.
Proof.
  unfold setdefault. destruct (has_key n' d) eqn:E; [reflexivity|].
  rewrite get_app. destruct (has_key n d) eqn:E'; [reflexivity|].
  rewrite (get_missing n dflt d E'). unfold get. simpl.
  destruct (n' =? n); reflexivity.
Qed.

Lemma has_key_adjust {A} n n' (f : A -> A) d :
  has_key n (adjust n' f d) = has_key n d.
Proof.
  unfold has_key, adjust. induction d as [|x d IH]; [reflexivity|].
  simpl. rewrite IH. destruct (fst x =? n'); reflexivity.
Qed.

Lemma get_adjust {A} n n' (f : A -> A) (dflt : A) d :
  get n dflt (adjust n' f d)
  = if (n =? n') && has_key n d then f (get n dflt d) else get n dflt d.
Proof.
  unfold get, has_key, adjust. induction d as [|x d IH].
  - simpl. now rewrite andb_false_r.
  - simpl.
    assert (E : fst (if fst x =? n' then (fst x, f (snd x)) else x) = fst x)
      by (destruct (fst x =? n'); reflexivity).
    rewrite E. destruct (Z.eqb_spec (fst x) n) as [Hx|Hx].
    + simpl. rewrite andb_true_r. subst n.
      destruct (fst x =? n'); reflexivity.
    + simpl. exact IH.
Qed.

(** ** The keys of the edges between two nodes *)

Lemma keys_of_add_node n s a b :
  keys_of (succ_add_node n s) a b = keys_of s a b.
Proof. unfold keys_of, succ_add_node. now rewrite get_setdefault. Qed.

Lemma keys_of_add_nodes ns : forall s a b,
  keys_of (foldl (fun succ n => succ_add_node n succ) s ns) a b
  = keys_of s a b.
Proof.
  induction ns as [|n ns IH]; intros s a b; [reflexivity|].
  simpl. now rewrite IH, keys_of_add_node.
Qed.

Lemma keys_of_add_edge u v k s a b :
  keys_of (succ_add_edge u v k s) a b
  = if (a =? u) && (b =? v)
    then (if existsb (Z.eqb k) (keys_of s u v) then keys_of s u v
          else keys_of s u v ++ [k])
    else keys_of s a b.
Proof.
  unfold keys_of, succ_add_edge, succ_add_node.
  rewrite get_adjust, !has_key_setdefault, !get_setdefault.
  destruct (Z.eqb_spec a u) as [->|Hau]; [|reflexivity].
  rewrite Z.eqb_refl, orb_true_r. cbn [andb orb].
  rewrite get_adjust, has_key_setdefault, get_setdefault.
  destruct (Z.eqb_spec b v) as [->|Hbv]; [|reflexivity].
  rewrite Z.eqb_refl, orb_true_r. reflexivity.
Qed.


(** ** [update] enters the edges under fresh keys *)

Lemma new_edge_key_fresh G u v :
  keys_of (g_succ G) u v = [] -> new_edge_key G u v = 0.
Proof. unfold new_edge_key. intros ->. reflexivity. Qed.

Lemma rekeyed_index r : index (rekeyed r) = (e_u r, e_v r, 0).
Proof. reflexivity. Qed.

Lemma ends_index rows :
  List.map ends rows = List.map (fun i : Index => fst i) (List.map index rows).
Proof. rewrite List.map_map. reflexivity. Qed.

Lemma ends_nodup rows :
  List.NoDup (List.map ends rows) -> List.NoDup (List.map index rows).
Proof. rewrite ends_index. apply List.NoDup_map_inv. Qed.

Lemma ends_rekeyed_nodup rows :
  List.NoDup (List.map ends rows) ->
  List.NoDup (List.map index (List.map rekeyed rows)).
Proof.
  intros H. apply (List.NoDup_map_inv (fun i : Index => fst i)).
  rewrite !List.map_map. exact H.
Qed.

(** Rows between pairs of nodes that no edge joins yet, no two rows for
    the same pair, enter the graph under key 0. *)
Lemma add_edges_rekeyed H rows : forall G0,
  (forall r, In r rows ->
     g_edges H !! index r = Some (e_geometry r, e_length r)) ->
  List.NoDup (List.map ends rows) ->
  (forall r, In r rows -> keys_of (g_succ G0) (e_u r) (e_v r) = []) ->
  g_edges (foldl (add_edge_of H) G0 (List.map index rows))
  = edge_map (g_edges G0) (List.map rekeyed rows).
Proof.
  induction rows as [|r rows IH]; intros G0 HH Hnd Hfresh; [reflexivity|].
  simpl in Hnd. apply List.NoDup_cons_iff in Hnd. destruct Hnd as [Hni Hnd].
  cbn [List.map foldl edge_map].
  unfold add_edge_of at 2. rewrite (HH r) by now left.
  change (fst (fst (index r))) with (e_u r).
  change (snd (fst (index r))) with (e_v r).
  rewrite IH.
  - unfold add_edge_fresh. cbn [g_edges].
    rewrite new_edge_key_fresh by (apply Hfresh; now left). reflexivity.
  - intros r' Hr'. apply HH. now right.
  - exact Hnd.
  - intros r' Hr'. unfold add_edge_fresh. cbn [g_succ].
    rewrite keys_of_add_edge.
    destruct (Z.eqb_spec (e_u r') (e_u r)) as [Eu|Eu];
      [|apply Hfresh; now right].
    destruct (Z.eqb_spec (e_v r') (e_v r)) as [Ev|Ev];
      [|apply Hfresh; now right].
    exfalso. apply Hni. apply in_map_iff. exists r'. split; [|exact Hr'].
    unfold ends. now rewrite Eu, Ev.
Qed.

Lemma update_rekeys G ns rows :
  out_edges (graph_from_gdfs ns rows) = List.map index rows ->
  List.NoDup (List.map ends rows) ->
  (forall r, In r rows -> keys_of (g_succ G) (e_u r) (e_v r) = []) ->
  g_edges (update G (graph_from_gdfs ns rows))
  = edge_map (g_edges G) (List.map rekeyed rows).
Proof.
  intros Hout Hnd Hfresh. unfold update. rewrite Hout.
  rewrite add_edges_rekeyed; [reflexivity| |exact Hnd|].
  - intros r Hr. rewrite g_edges_graph_from_gdfs.
    apply edge_map_member; [now apply ends_nodup|exact Hr].
  - intros r Hr. cbn [g_succ]. rewrite keys_of_add_nodes. now apply Hfresh.
Qed.

(** ** The node attributes after [update] *)

Lemma add_endpoint_some n (m : gmap Z (option (Q * Q * Geometry))) k x :
  m !! k = Some x -> add_endpoint n m !! k = Some x.
Proof.
  intros H. unfold add_endpoint. destruct (m !! n) eqn:E; [exact H|].
  rewrite lookup_insert_ne; [exact H|]. intros ->. congruence.
Qed.

Lemma g_nodes_add_edges_of H idx : forall G0 k x,
  g_nodes G0 !! k = Some x ->
  g_nodes (foldl (add_edge_of H) G0 idx) !! k = Some x.
Proof.
  induction idx as [|i idx IH]; intros G0 k x Hk; [exact Hk|].
  cbn [foldl]. apply IH. unfold add_edge_of.
  destruct (g_edges H !! i); [|exact Hk].
  unfold add_edge_fresh. cbn [g_nodes]. now apply add_endpoint_some, add_endpoint_some.
Qed.

Lemma g_nodes_update G H k x :
  union_with (fun h g => Some (match h with Some a => Some a | None => g end))
             (g_nodes H) (g_nodes G) !! k = Some x ->
  g_nodes (update G H) !! k = Some x.
Proof. intros Hk. unfold update. now apply g_nodes_add_edges_of. Qed.

(** ** Graphs whose edges the table covers *)

Lemma covers_incl edges edges' G :
  covers edges G -> (forall r, In r edges -> In r edges') -> covers edges' G.
Proof.
  intros HG Hincl a b k Hk. destruct (HG a b k Hk) as [r [Hr E]].
  exists r. split; [now apply Hincl|exact E].
Qed.

Lemma covers_empty edges : covers edges empty_graph.
Proof.
  intros a b k [H|H].
  - simpl in H. rewrite lookup_empty in H. now destruct H.
  - destruct H.
Qed.

Lemma in_keys_add_edge u v k s a b k' :
  In k' (keys_of (succ_add_edge u v k s) a b) ->
  (a = u /\ b = v) \/ In k' (keys_of s a b).
Proof.
  rewrite keys_of_add_edge.
  destruct (Z.eqb_spec a u) as [->|Hau]; [|now right].
  destruct (Z.eqb_spec b v) as [->|Hbv]; [|now right].
  now left.
Qed.

Lemma covers_add edges G nodes u v k data :
  covers edges G ->
  (exists r, In r edges /\ e_u r = u /\ e_v r = v) ->
  covers edges
    (mkGraph nodes (<[(u, v, k) := data]> (g_edges G))
             (succ_add_edge u v k (g_succ G))).
Proof.
  intros HG Hr a b k' [H|H]; cbn [g_edges g_succ] in H.
  - destruct (decide ((u, v, k) = (a, b, k'))) as [E|E].
    + inversion E; subst. exact Hr.
    + rewrite lookup_insert_ne in H by exact E. apply (HG a b k'). now left.
  - apply in_keys_add_edge in H. destruct H as [[-> ->]|H]; [exact Hr|].
    apply (HG a b k'). now right.
Qed.

Lemma covers_add_edges edges rows : forall G,
  covers edges G -> (forall r, In r rows -> In r edges) ->
  covers edges (foldl add_edge G rows).
Proof.
  induction rows as [|r rows IH]; intros G HG Hin; [exact HG|].
  cbn [foldl]. apply IH; [|intros; apply Hin; now right].
  unfold add_edge, index. apply covers_add; [exact HG|].
  exists r. split; [apply Hin; now left|split; reflexivity].
Qed.

Lemma covers_set_nodes edges ns : forall G,
  covers edges G -> covers edges (foldl set_node G ns).
Proof.
  induction ns as [|n ns IH]; intros G HG; [exact HG|].
  cbn [foldl]. apply IH. intros a b k H. apply (HG a b k).
  unfold set_node in H. cbn [g_edges g_succ] in H.
  now rewrite keys_of_add_node in H.
Qed.

(** A graph that was built from the table is covered by it. *)
Lemma graph_from_gdfs_covers ns rows : covers rows (graph_from_gdfs ns rows).
Proof.
  unfold graph_from_gdfs. apply covers_set_nodes, covers_add_edges.
  - apply covers_empty.
  - auto.
Qed.

Lemma covers_add_edges_of edges H idx : forall G,
  covers edges G ->
  (forall i, In i idx ->
     exists r, In r edges /\ e_u r = fst (fst i) /\ e_v r = snd (fst i)) ->
  covers edges (foldl (add_edge_of H) G idx).
Proof.
  induction idx as [|i idx IH]; intros G HG Hin; [exact HG|].
  cbn [foldl]. apply IH; [|intros; apply Hin; now right].
  unfold add_edge_of. destruct (g_edges H !! i); [|exact HG].
  unfold add_edge_fresh. apply covers_add; [exact HG|].
  apply Hin. now left.
Qed.

Lemma update_covers edges G H :
  covers edges G ->
  (forall i, In i (out_edges H) ->
     exists r, In r edges /\ e_u r = fst (fst i) /\ e_v r = snd (fst i)) ->
  covers edges (update G H).
Proof.
  intros HG Hin. unfold update. apply covers_add_edges_of; [|exact Hin].
  intros a b k Hk. apply (HG a b k). cbn [g_edges g_succ] in Hk.
  now rewrite keys_of_add_nodes in Hk.
Qed.

(** ** The graph that [split_graph] makes of the new rows *)

Ltac ids :=
  repeat match goal with
         | |- context [?a =? ?b] =>
             first [ rewrite (Z.eqb_refl a)
                   | rewrite (proj2 (Z.eqb_neq a b)) by lia ]
         end.

Lemma out_edges_set_nodes ns : forall G,
  out_edges (foldl set_node G ns) = out_edges G.
Proof.
  induction ns as [|n ns IH]; intros G; [reflexivity|].
  cbn [foldl]. rewrite IH. unfold out_edges, set_node, succ_add_node, setdefault.
  cbn [g_succ]. destruct (has_key (n_osmid n) (g_succ G)); [reflexivity|].
  rewrite List.flat_map_app. simpl. now rewrite List.app_nil_r.
Qed.

Lemma g_succ_add_edges rows : forall G,
  g_succ (foldl add_edge G rows)
  = foldl (fun s r => succ_add_edge (e_u r) (e_v r) (e_key r) s) (g_succ G) rows.
Proof.
  induction rows as [|r rows IH]; intros G; [reflexivity|].
  cbn [foldl]. now rewrite IH.
Qed.

Ltac eval_succ :=
  unfold succ_add_edge, succ_add_node, setdefault, adjust, has_key;
  repeat (progress (cbn [existsb List.map fst snd List.app orb andb]; ids)).

(** The innermost [succ_add_edge] of the goal, evaluated on its list. *)
Ltac step_succ :=
  match goal with
  | |- context [succ_add_edge ?a ?b ?k ?s] =>
      lazymatch s with
      | context [succ_add_edge] => fail
      | _ =>
          let H := fresh in
          eassert (H : succ_add_edge a b k s = _);
          [eval_succ; reflexivity | rewrite H; clear H]
      end
  end.

(** The six edges of the branch [0 < d < 1] are iterated in the order
    of their rows. *)
Lemma out_edges_interior ns u v N g1 l1 g2 l2 g3 l3 :
  u <> v -> u < N -> v < N ->
  let new := [mkEdge u (N + 1) 0 g1 l1; mkEdge (N + 1) v 0 g2 l2;
              mkEdge (N + 1) N 0 g3 l3] in
  out_edges (graph_from_gdfs ns (new ++ List.map reversed_row new))
  = List.map index (new ++ List.map reversed_row new).
Proof.
  intros Huv Hu Hv new. unfold graph_from_gdfs.
  rewrite out_edges_set_nodes. unfold out_edges. rewrite g_succ_add_edges.
  unfold new, index.
  cbn [List.app List.map foldl empty_graph g_succ
       reversed_row e_u e_v e_key e_geometry e_length].
  repeat step_succ. reflexivity.
Qed.

(** So are the two edges of the other branches. *)
Lemma out_edges_endpoint ns a N g l :
  a < N ->
  let row := mkEdge a N 0 g l in
  out_edges (graph_from_gdfs ns [row; reversed_row row])
  = List.map index [row; reversed_row row].
Proof.
  intros Ha row. unfold graph_from_gdfs.
  rewrite out_edges_set_nodes. unfold out_edges. rewrite g_succ_add_edges.
  unfold row, index.
  cbn [List.app List.map foldl empty_graph g_succ
       reversed_row e_u e_v e_key e_geometry e_length].
  repeat step_succ. reflexivity.
Qed.

(** ** [split_graph] *)

Lemma index_leb_iff (i j : Index) :
  index_leb i j = true <->
  (let '(a, b, c) := i in
   let '(a', b', c') := j in
   a < a' \/ (a = a' /\ (b < b' \/ (b = b' /\ c <= c')))).
Proof.
  destruct i as [[a b] c], j as [[a' b'] c']. unfold index_leb.
  rewrite !orb_true_iff, !andb_true_iff, !orb_true_iff, !andb_true_iff.
  rewrite !Z.ltb_lt, !Z.eqb_eq, Z.leb_le. tauto.
Qed.

Lemma index_max_spec edges : forall m,
  index_max edges = Some m ->
  (exists r, In r edges /\ index r = m)
  /\ (forall r, In r edges -> index_leb (index r) m = true).
Proof.
  induction edges as [|r0 edges IH]; intros m H; simpl in H; [discriminate|].
  destruct (index_max edges) as [m'|] eqn:E.
  - destruct (IH m' eq_refl) as [[r1 [Hr1 Hi1]] Hall].
    destruct (index_leb m' (index r0)) eqn:Hle; inversion H; subst m; clear H.
    + split; [exists r0; split; [now left|reflexivity]|].
      intros r [<-|Hr].
      * apply index_leb_iff. destruct (index r0) as [[a b] c]. lia.
      * specialize (Hall r Hr). apply index_leb_iff in Hall, Hle.
        apply index_leb_iff.
        destruct (index r) as [[a b] c], m' as [[a' b'] c'],
          (index r0) as [[a0 b0] c0]. lia.
    + split; [exists r1; split; [now right|assumption]|].
      intros r [<-|Hr]; [|now apply Hall].
      apply index_leb_iff.
      assert (Hn : ~ index_leb m' (index r0) = true) by congruence.
      rewrite index_leb_iff in Hn.
      destruct (index r0) as [[a b] c], m' as [[a' b'] c']. lia.
  - destruct edges as [|r1 edges]; [|simpl in E; destruct (index_max edges); discriminate].
    inversion H; subst. split; [exists r0; split; [now left|reflexivity]|].
    intros r [<-|[]]. apply index_leb_iff. destruct (index r0) as [[a b] c]. lia.
Qed.

Lemma well_formed_row edges r :
  well_formed edges = true -> In r edges ->
  0 <= e_u r /\ 0 <= e_v r /\ e_u r <> e_v r /\ (e_key r = 0 \/ e_key r = 1)
  /\ exists r', In r' edges /\ e_u r' = e_v r /\ e_v r' = e_u r.
Proof.
  unfold well_formed. rewrite forallb_forall. intros H Hr.
  specialize (H r Hr). rewrite !andb_true_iff in H.
  destruct H as [[[[H1 H2] H3] H4] H5].
  apply Z.leb_le in H1, H2. apply negb_true_iff, Z.eqb_neq in H3.
  apply orb_true_iff in H4. rewrite !Z.eqb_eq in H4.
  apply existsb_exists in H5. destruct H5 as [r' [Hr' H5]].
  apply andb_true_iff in H5. rewrite !Z.eqb_eq in H5.
  repeat split; try assumption. exists r'. tauto.
Qed.

(** On a well-formed table [max(edges.index.max()) + 1] is one more than
    the greatest node id in use. *)
Lemma node_id_greatest edges m :
  well_formed edges = true -> index_max edges = Some m ->
  greatest_id edges (tuple_max m).
Proof.
  intros Hwf Hm. destruct (index_max_spec _ _ Hm) as [[r0 [Hr0 Hi0]] Hall].
  destruct (well_formed_row _ _ Hwf Hr0) as (Hu0 & Hv0 & Hne0 & Hk0 & r0' & Hr0' & Hs1 & Hs2).
  assert (Hu : forall r, In r edges -> e_u r <= e_u r0).
  { intros r Hr. specialize (Hall r Hr). apply index_leb_iff in Hall.
    rewrite <- Hi0 in Hall. unfold index in Hall. lia. }
  assert (Hv : forall r, In r edges -> e_v r <= e_u r0).
  { intros r Hr.
    destruct (well_formed_row _ _ Hwf Hr) as (_ & _ & _ & _ & r' & Hr' & E1 & _).
    rewrite <- E1. now apply Hu. }
  assert (Hmax : tuple_max m = e_u r0).
  { rewrite <- Hi0. unfold index, tuple_max.
    specialize (Hv r0 Hr0). lia. }
  rewrite Hmax. split.
  - exists r0. auto.
  - intros r Hr. split; auto.
Qed.


Lemma first_in {A} (l : list A) x : Shapely.first l = Py.Ok x -> In x l.
Proof. destruct l; simpl; intros H; inversion H. now left. Qed.

Lemma index_max_some edges r :
  In r edges -> exists m, index_max edges = Some m.
Proof.
  destruct edges as [|r0 edges]; [intros []|]. intros _. simpl.
  destruct (index_max edges); eauto.
Qed.

Lemma join_candidates_in edges candidates r :
  In r (join_candidates edges candidates) ->
  In r edges /\ exists i, In i candidates /\ index_eqb (index r) i = true.
Proof.
  unfold join_candidates. rewrite filter_In. intros [H1 H2].
  split; [assumption|]. now apply existsb_exists in H2.
Qed.



(** ** The graph after the new rows are added *)

(** No edge of a covered graph has an end that is no node of the table. *)
Lemma fresh_of_covers edges G N a b :
  covers edges G -> (forall r, In r edges -> e_u r < N /\ e_v r < N) ->
  N <= a \/ N <= b -> keys_of (g_succ G) a b = [].
Proof.
  intros HG Hold Hab.
  destruct (keys_of (g_succ G) a b) as [|k ks] eqn:E; [reflexivity|].
  destruct (HG a b k) as [r [Hr [Eu Ev]]]; [right; rewrite E; now left|].
  specialize (Hold r Hr). lia.
Qed.

Lemma absent_of_covers edges G N a b k :
  covers edges G -> (forall r, In r edges -> e_u r < N /\ e_v r < N) ->
  N <= a \/ N <= b -> g_edges G !! (a, b, k) = None.
Proof.
  intros HG Hold Hab.
  destruct (g_edges G !! (a, b, k)) as [x|] eqn:E; [|reflexivity].
  destruct (HG a b k) as [r [Hr [Eu Ev]]]; [left; now rewrite E|].
  specialize (Hold r Hr). lia.
Qed.

Lemma interior_ends u v N g1 l1 g2 l2 g3 l3 :
  u <> v -> u < N -> v < N ->
  let new := [mkEdge u (N + 1) 0 g1 l1; mkEdge (N + 1) v 0 g2 l2;
              mkEdge (N + 1) N 0 g3 l3] in
  List.NoDup (List.map ends (new ++ List.map reversed_row new))
  /\ forall r, In r (new ++ List.map reversed_row new) ->
       N <= e_u r \/ N <= e_v r.
Proof.
  intros Huv Hu Hv new. split.
  - unfold new, ends. simpl.
    repeat (apply List.NoDup_cons_iff; split);
      [..|apply List.NoDup_nil]; simpl;
      intuition (try congruence; try match goal with
                                     | H : (_, _) = (_, _) |- _ =>
                                         inversion H; lia
                                     end).
  - intros r Hr. unfold new in Hr. simpl in Hr.
    repeat (destruct Hr as [<-|Hr]; [simpl; lia|]). destruct Hr.
Qed.

Lemma endpoint_ends a N g l :
  a < N ->
  let row := mkEdge a N 0 g l in
  List.NoDup (List.map ends [row; reversed_row row])
  /\ forall r, In r [row; reversed_row row] -> N <= e_u r \/ N <= e_v r.
Proof.
  intros Ha row. split.
  - unfold row, ends. simpl.
    repeat (apply List.NoDup_cons_iff; split);
      [..|apply List.NoDup_nil]; simpl;
      intuition (try congruence; try match goal with
                                     | H : (_, _) = (_, _) |- _ =>
                                         inversion H; lia
                                     end).
  - intros r Hr. unfold row in Hr. simpl in Hr.
    repeat (destruct Hr as [<-|Hr]; [simpl; lia|]). destruct Hr.
Qed.

(** Rows with an end at a new node, no two between the same pair of
    nodes in the same direction, iterated in row order: every row enters
    the graph under key 0, whatever its own key; no edge is added under
    another key and no edge of the graph is touched. *)
Lemma update_new_rows edges G ns rows N :
  covers edges G -> (forall r, In r edges -> e_u r < N /\ e_v r < N) ->
  out_edges (graph_from_gdfs ns rows) = List.map index rows ->
  List.NoDup (List.map ends rows) ->
  (forall r, In r rows -> N <= e_u r \/ N <= e_v r) ->
  let G' := update G (graph_from_gdfs ns rows) in
  g_edges G' = edge_map (g_edges G) (List.map rekeyed rows)
  /\ (forall r, In r rows ->
        g_edges G' !! (e_u r, e_v r, 0) = Some (e_geometry r, e_length r))
  /\ (forall r k, In r rows -> k <> 0 -> g_edges G' !! (e_u r, e_v r, k) = None)
  /\ (forall i, (forall r, In r rows -> (e_u r, e_v r, 0) <> i) ->
        g_edges G' !! i = g_edges G !! i)
  /\ (forall r, In r edges -> g_edges G' !! index r = g_edges G !! index r)
  /\ covers (edges ++ rows) G'.
Proof.
  intros HG Hold Hout Hnd Hnew G'.
  assert (Heq : g_edges G' = edge_map (g_edges G) (List.map rekeyed rows)).
  { apply update_rekeys; [exact Hout|exact Hnd|].
    intros r Hr. eapply fresh_of_covers; eauto. }
  assert (Hother : forall i, (forall r, In r rows -> (e_u r, e_v r, 0) <> i) ->
                     g_edges G' !! i = g_edges G !! i).
  { intros i Hi. rewrite Heq. apply edge_map_other.
    intros r' Hr'. apply in_map_iff in Hr'. destruct Hr' as [r [<- Hr]].
    rewrite rekeyed_index. now apply Hi. }
  split; [exact Heq|]. split; [|split; [|split; [exact Hother|split]]].
  - intros r Hr. rewrite Heq.
    apply (edge_map_member (List.map rekeyed rows) (g_edges G) (rekeyed r)).
    + now apply ends_rekeyed_nodup.
    + now apply in_map.
  - intros r k Hr Hk. rewrite Hother.
    + eapply absent_of_covers; eauto.
    + intros r' _ E. inversion E. congruence.
  - intros r Hr. apply Hother. intros r' Hr' E.
    specialize (Hold r Hr). specialize (Hnew r' Hr').
    unfold index in E. inversion E. lia.
  - apply update_covers.
    + eapply covers_incl; [exact HG|]. intros r Hr. apply in_or_app. now left.
    + intros i Hi. rewrite Hout in Hi. apply in_map_iff in Hi.
      destruct Hi as [r [<- Hr]]. exists r.
      split; [apply in_or_app; now right|split; reflexivity].
Qed.


(** The target (4, 3) beside the first street segment: the returned
    table has the six new rows, three of them under key 1, and the graph
    has all six as edges under key 0. *)
Example split_street :
  (r ← split_graph Sample.utm_distance Sample.line_locate_point
         Sample.interpolate Sample.substring Sample.axis_length
         (graph_from_gdfs Sample.nodes Sample.edges)
         (Point [(4%Q, 3%Q)]) Sample.edges;
   Py.Ok (fst (fst (fst r)), List.map index (skipn 6 (snd (fst (fst r)))),
          out_edges (snd r)))
  = Py.Ok (4, [(0, 5, 0); (5, 1, 0); (5, 4, 0); (5, 0, 1); (1, 5, 1); (4, 5, 1)],
              [(0, 1, 0); (0, 5, 0); (1, 2, 0); (1, 0, 1); (1, 5, 0);
               (2, 3, 0); (2, 1, 1); (3, 2, 1);
               (5, 1, 0); (5, 4, 0); (5, 0, 0); (4, 5, 0)]).
Proof. vm_compute. reflexivity. Qed.



(** ** The invariants are kept *)

Lemma well_formed_iff edges :
  well_formed edges = true <->
  forall r, In r edges ->
    0 <= e_u r /\ 0 <= e_v r /\ e_u r <> e_v r /\ (e_key r = 0 \/ e_key r = 1)
    /\ exists r', In r' edges /\ e_u r' = e_v r /\ e_v r' = e_u r.
Proof.
  split.
  - intros H r Hr. now apply well_formed_row.
  - intros H. unfold well_formed. apply forallb_forall. intros r Hr.
    destruct (H r Hr) as (H1 & H2 & H3 & H4 & r' & Hr' & H5 & H6).
    rewrite !andb_true_iff. repeat split.
    + now apply Z.leb_le.
    + now apply Z.leb_le.
    + now apply negb_true_iff, Z.eqb_neq.
    + apply orb_true_iff. rewrite !Z.eqb_eq. exact H4.
    + apply existsb_exists. exists r'. split; [exact Hr'|].
      apply andb_true_iff. now rewrite !Z.eqb_eq.
Qed.

(** Rows between old or new nodes, added with their reverses, keep a
    table well formed. *)
Lemma well_formed_extend utm_length edges (uvg : list (Z * Z * Geometry)) :
  well_formed edges = true ->
  (forall a b g, In (a, b, g) uvg -> 0 <= a /\ 0 <= b /\ a <> b) ->
  well_formed
    (edges ++ List.map (with_length utm_length) uvg
           ++ List.map reversed_row (List.map (with_length utm_length) uvg))
  = true.
Proof.
  intros Hwf Hnew. rewrite well_formed_iff in *. intros r Hr.
  apply in_app_or in Hr. destruct Hr as [Hr|Hr].
  - destruct (Hwf r Hr) as (H1 & H2 & H3 & H4 & r' & Hr' & H5).
    repeat split; try assumption. exists r'. split; [|exact H5].
    apply in_or_app. now left.
  - apply in_app_or in Hr. destruct Hr as [Hr|Hr].
    + apply in_map_iff in Hr. destruct Hr as [[[a b] g] [<- Hin]].
      destruct (Hnew _ _ _ Hin) as (H1 & H2 & H3). simpl.
      repeat split; try assumption; [now left|].
      exists (reversed_row (with_length utm_length (a, b, g))).
      split; [|split; reflexivity].
      apply in_or_app. right. apply in_or_app. right.
      apply in_map. apply in_map_iff. exists (a, b, g). auto.
    + apply in_map_iff in Hr. destruct Hr as [r0 [<- Hr0]].
      apply in_map_iff in Hr0. destruct Hr0 as [[[a b] g] [<- Hin]].
      destruct (Hnew _ _ _ Hin) as (H1 & H2 & H3). simpl.
      repeat split; try assumption; [congruence|now right|].
      exists (with_length utm_length (a, b, g)).
      split; [|split; reflexivity].
      apply in_or_app. right. apply in_or_app. left.
      apply in_map_iff. exists (a, b, g). auto.
Qed.

(** The table that [split_graph] returns is well formed when the table it
    was given is, in each of its three branches: the second call in
    [handle] meets the same conditions as the first. *)
Lemma split_graph_well_formed ud llp ip ss ul G target edges N edges' t G' :
  well_formed edges = true ->
  split_graph ud llp ip ss ul G target edges = Py.Ok (N, edges', t, G') ->
  well_formed edges' = true.
Proof.
  intros Hwf H. unfold split_graph in H.
  destruct (index_max edges) as [m|] eqn:Hm; [|discriminate H].
  cbn [mbind result_bind Py.bind] in H.
  bind_ok H as txy Et. bind_ok H as edge Ee.
  bind_ok H as d Ed. bind_ok H as F EF.
  pose proof (first_in _ _ Ee) as Hin.
  apply join_candidates_in in Hin. destruct Hin as [Hedge _].
  destruct (node_id_greatest _ _ Hwf Hm) as [_ Hall].
  destruct (well_formed_row _ _ Hwf Hedge) as (Hu0 & Hv0 & _).
  specialize (Hall _ Hedge).
  bind_ok H as nn En. destruct nn as [new_nodes uvg].
  inversion H; subst; clear H.
  apply well_formed_extend; [exact Hwf|].
  intros a b g Hab.
  destruct (Qlt_bool 0 d && Qlt_bool d 1).
  - bind_ok En as left El. bind_ok En as right Er.
    bind_ok En as pxy Ep. bind_ok En as connector Ec.
    inversion En; subst; clear En.
    destruct Hab as [Hab|[Hab|[Hab|[]]]]; inversion Hab; subst; lia.
  - destruct (Qle_bool d 0).
    + bind_ok En as connector Ec. inversion En; subst; clear En.
      destruct Hab as [Hab|[]]; inversion Hab; subst; lia.
    + bind_ok En as connector Ec. inversion En; subst; clear En.
      destruct Hab as [Hab|[]]; inversion Hab; subst; lia.
Qed.

(** ** What [split_graph] returns, branch by branch *)

(** The rows and nodes that one call adds. *)
Lemma split_graph_inv ud llp ip ss ul G target edges N edges' t G' :
  split_graph ud llp ip ss ul G target edges = Py.Ok (N, edges', t, G') ->
  exists m txy edge new_nodes uvg,
    index_max edges = Some m /\ N = tuple_max m + 1
    /\ point_xy target = Py.Ok txy
    /\ In edge edges
    /\ t = target
    /\ edges' = edges ++ List.map (with_length ul) uvg
                      ++ List.map reversed_row (List.map (with_length ul) uvg)
    /\ G' = update G (graph_from_gdfs new_nodes
                        (List.map (with_length ul) uvg
                         ++ List.map reversed_row (List.map (with_length ul) uvg)))
    /\ ((exists l r c F pxy,
            uvg = [(e_u edge, N + 1, l); (N + 1, e_v edge, r); (N + 1, N, c)]
            /\ new_nodes = [mkNode N (fst txy) (snd txy) target;
                            mkNode (N + 1) (fst pxy) (snd pxy) F])
        \/ (exists a c,
               (a = e_u edge \/ a = e_v edge)
               /\ uvg = [(a, N, c)]
               /\ new_nodes = [mkNode N (fst txy) (snd txy) target])).
Proof.
  intros H. unfold split_graph in H.
  destruct (index_max edges) as [m|] eqn:Hm; [|discriminate H].
  cbn [mbind result_bind Py.bind] in H.
  bind_ok H as txy Et. bind_ok H as edge Ee.
  bind_ok H as d Ed. bind_ok H as F EF.
  pose proof (first_in _ _ Ee) as Hin.
  apply join_candidates_in in Hin. destruct Hin as [Hedge _].
  bind_ok H as nn En. destruct nn as [new_nodes uvg].
  inversion H; subst; clear H.
  exists m, txy, edge, new_nodes, uvg.
  repeat (split; [reflexivity || assumption|]).
  destruct (Qlt_bool 0 d && Qlt_bool d 1).
  - bind_ok En as left El. bind_ok En as right Er.
    bind_ok En as pxy Ep. bind_ok En as connector Ec.
    inversion En; subst; clear En. left.
    exists left, right, connector, F, pxy. split; reflexivity.
  - destruct (Qle_bool d 0).
    + bind_ok En as connector Ec. inversion En; subst; clear En.
      right. exists (e_u edge), connector. auto.
    + bind_ok En as connector Ec. inversion En; subst; clear En.
      right. exists (e_v edge), connector. auto.
Qed.

Lemma greatest_id_unique edges a b :
  greatest_id edges a -> greatest_id edges b -> a = b.
Proof.
  intros [[r [Hr Ha]] Hall] [[r' [Hr' Hb]] Hall'].
  pose proof (Hall _ Hr'). pose proof (Hall' _ Hr). lia.
Qed.

(** The node attributes of a graph built from tables: a node that is in
    no row of the node table has no attributes. *)
Lemma add_endpoint_bare n m k :
  m !! k = None \/ m !! k = Some None ->
  add_endpoint n m !! k = None \/ add_endpoint n m !! k = Some None.
Proof.
  intros H. unfold add_endpoint. destruct (m !! n) eqn:E; [exact H|].
  destruct (decide (k = n)) as [->|Hne].
  - right. apply lookup_insert_eq.
  - now rewrite lookup_insert_ne by congruence.
Qed.

Lemma add_edges_bare rows : forall G k,
  g_nodes G !! k = None \/ g_nodes G !! k = Some None ->
  g_nodes (foldl add_edge G rows) !! k = None
  \/ g_nodes (foldl add_edge G rows) !! k = Some None.
Proof.
  induction rows as [|r rows IH]; intros G k H; [exact H|].
  simpl. apply IH. simpl. now apply add_endpoint_bare, add_endpoint_bare.
Qed.

Lemma set_nodes_other ns : forall G k,
  ~ In k (List.map n_osmid ns) ->
  g_nodes (foldl set_node G ns) !! k = g_nodes G !! k.
Proof.
  induction ns as [|n ns IH]; intros G k H; [reflexivity|].
  simpl in *. rewrite IH by tauto. simpl.
  apply lookup_insert_ne. intros E. apply H. now left.
Qed.

Lemma update_keeps_node G ns rows k x :
  g_nodes G !! k = Some x ->
  ~ In k (List.map n_osmid ns) ->
  g_nodes (update G (graph_from_gdfs ns rows)) !! k = Some x.
Proof.
  intros Hk Hns. apply g_nodes_update. rewrite lookup_union_with.
  unfold graph_from_gdfs. rewrite set_nodes_other by exact Hns.
  destruct (add_edges_bare rows empty_graph k) as [E|E].
  - left. apply lookup_empty.
  - rewrite E, Hk. reflexivity.
  - rewrite E, Hk. reflexivity.
Qed.

(** X11.  At an end of the nearest line.  Let [edge] be the row that
    [split_graph] selects and [d] the normalized position of the target on
    it, with foot point [F].  If [d <= 0] the target is connected to
    [u] of the row, if [d >= 1] to [v]: with [a] this end, [split_graph]
    returns the given table followed by the key-0 row
    [(a, N, line F-target)] and its key-1 reverse, [N] being the target's
    new id; the row is not split and no node is made for [F].  In the
    graph both rows are edges under key 0, [(a, N, 0)] and [(N, a, 0)]:
    [update] gives the reverse a fresh key, and there is no edge
    [(N, a, 1)].  The graph gains the node [N]; every other edge, and
    every other node it had, is as before. *)
Theorem split_graph_endpoint :
  forall (utm_distance : Geometry -> Geometry -> option Q)
         (line_locate_point : Geometry -> Geometry -> Py.lib Q)
         (interpolate : Geometry -> Q -> Py.lib Geometry)
         (substring : Geometry -> Q -> Q -> Py.lib Geometry)
         (utm_length : Geometry -> Q)
         (G : Graph) (target : Geometry) (edges : list EdgeRow)
         (t : Coord) (edge : EdgeRow) (d : Q) (F : Geometry) (f : Coord)
         (a : Z),
    well_formed edges = true ->
    covers edges G ->
    point_xy target = Py.Ok t ->
    Shapely.first (join_candidates edges (sjoin_nearest utm_distance target edges))
    = Py.Ok edge ->
    line_locate_point (e_geometry edge) target = Py.Returns d ->
    ((d <= 0)%Q /\ a = e_u edge) \/ ((1 <= d)%Q /\ a = e_v edge) ->
    interpolate (e_geometry edge) d = Py.Returns F ->
    point_xy F = Py.Ok f ->
    exists (N : Z) (G' : Graph),
      let row := mkEdge a N 0 (LineString [f; t])
                        (round2 (utm_length (LineString [f; t]))) in
      split_graph utm_distance line_locate_point interpolate substring utm_length
                  G target edges
      = Py.Ok (N, edges ++ [row; reversed_row row], target, G')
      /\ greatest_id edges (N - 1)
      /\ g_edges G' !! (a, N, 0) = Some (e_geometry row, e_length row)
      /\ g_edges G' !! (N, a, 0) = Some (e_geometry row, e_length row)
      /\ g_edges G' !! (N, a, 1) = None
      /\ (forall i, i <> (a, N, 0) -> i <> (N, a, 0) ->
          g_edges G' !! i = g_edges G !! i)
      /\ g_nodes G' !! N = Some (Some (fst t, snd t, target))
      /\ (forall n x, n <> N -> g_nodes G !! n = Some x ->
          g_nodes G' !! n = Some x).
Proof.
  intros utm_distance line_locate_point interpolate substring utm_length
         G target edges t edge d F f a Hwf HG Ht Hfirst Hd Hend HF Hf.
  pose proof (first_in _ _ Hfirst) as Hin.
  apply join_candidates_in in Hin. destruct Hin as [Hedge _].
  destruct (index_max_some _ _ Hedge) as [m Hm].
  pose proof (node_id_greatest _ _ Hwf Hm) as Hgreat.
  set (N := tuple_max m + 1).
  set (row := mkEdge a N 0 (LineString [f; t])
                     (round2 (utm_length (LineString [f; t])))).
  exists N, (update G (graph_from_gdfs [mkNode N (fst t) (snd t) target]
                         [row; reversed_row row])).
  cbv zeta. fold row.
  assert (Hold : forall r, In r edges -> e_u r < N /\ e_v r < N).
  { intros r Hr. destruct Hgreat as [_ Hall]. specialize (Hall _ Hr).
    unfold N. lia. }
  assert (Ha : a < N).
  { specialize (Hold _ Hedge). destruct Hend as [[_ ->]|[_ ->]]; lia. }
  destruct (endpoint_ends a N (LineString [f; t])
              (round2 (utm_length (LineString [f; t]))) Ha) as [Hnd Hnew].
  destruct (update_new_rows edges G [mkNode N (fst t) (snd t) target]
              [row; reversed_row row] N HG Hold
              (out_edges_endpoint [mkNode N (fst t) (snd t) target] a N
                 (LineString [f; t])
                 (round2 (utm_length (LineString [f; t]))) Ha)
              Hnd Hnew)
    as (_ & Hin0 & Hin1 & Hother & _ & _).
  split; [|split; [|split; [|split; [|split; [|split; [|split]]]]]].
  - unfold split_graph. rewrite Hm, Ht. cbn [mbind result_bind Py.bind].
    rewrite Hfirst. cbn [mbind result_bind Py.bind].
    rewrite Hd. cbn [mbind result_bind Py.bind Py.call].
    rewrite HF. cbn [mbind result_bind Py.bind Py.call].
    unfold line_between. rewrite Hf, Ht.
    cbn [mbind result_bind Py.bind Py.call].
    destruct Hend as [[Hd0 ->]|[Hd1 ->]].
    + assert (Qlt_bool 0 d = false) as ->.
      { unfold Qlt_bool. apply negb_false_iff. now apply Qle_bool_iff. }
      cbn [andb]. apply Qle_bool_iff in Hd0. rewrite Hd0. reflexivity.
    + assert (Qlt_bool d 1 = false) as ->.
      { unfold Qlt_bool. apply negb_false_iff. now apply Qle_bool_iff. }
      rewrite andb_false_r.
      assert (Qle_bool d 0 = false) as ->.
      { destruct (Qle_bool d 0) eqn:E; [|reflexivity].
        apply Qle_bool_iff in E. lra. }
      reflexivity.
  - replace (N - 1) with (tuple_max m) by (unfold N; lia). exact Hgreat.
  - apply (Hin0 row). now left.
  - apply (Hin0 (reversed_row row)). right. now left.
  - apply (Hin1 (reversed_row row) 1); [right; now left|lia].
  - intros i H0 H1. apply Hother. intros r [<-|[<-|[]]]; simpl; congruence.
  - apply g_nodes_update. rewrite lookup_union_with.
    unfold graph_from_gdfs. cbn [foldl set_node g_nodes n_osmid n_x n_y n_geometry].
    rewrite lookup_insert_eq.
    destruct (g_nodes G !! N); reflexivity.
  - intros n x Hn Hx. apply update_keeps_node; [exact Hx|].
    simpl. intros [E|[]]. congruence.
Qed.

Lemma split_graph_endpoint_witness :
  exists (N : Z) (G' : Graph) (rows : list EdgeRow),
    split_graph Sample.utm_distance Sample.line_locate_point
      Sample.interpolate Sample.substring Sample.axis_length
      (graph_from_gdfs Sample.nodes Sample.edges)
      (Point [((-3)%Q, 4%Q)]) Sample.edges
    = Py.Ok (N, Sample.edges ++ rows, Point [((-3)%Q, 4%Q)], G')
    /\ greatest_id Sample.edges (N - 1).
Proof.
  destruct (split_graph_endpoint
              Sample.utm_distance Sample.line_locate_point
              Sample.interpolate Sample.substring Sample.axis_length
              (graph_from_gdfs Sample.nodes Sample.edges)
              (Point [((-3)%Q, 4%Q)]) Sample.edges
              ((-3)%Q, 4%Q) (Sample.street_edge 0) 0%Q
              (Point [(0%Q, 0%Q)]) (0%Q, 0%Q) 0
              eq_refl (graph_from_gdfs_covers Sample.nodes Sample.edges)
              eq_refl eq_refl eq_refl
              (or_introl (conj (Qle_refl 0) eq_refl))
              eq_refl eq_refl)
    as (N & G' & H & Hg & _).
  exists N, G'. eexists. split; [exact H|exact Hg].
Defined.

(** ** What every call of [split_graph] keeps *)

Lemma with_length_key ul uvg :
  Forall (fun r => e_key r = 0) (List.map (with_length ul) uvg).
Proof.
  apply List.Forall_forall. intros r Hr. apply in_map_iff in Hr.
  destruct Hr as [[[a b] g] [<- _]]. reflexivity.
Qed.

Lemma split_graph_facts ud llp ip ss ul G target edges N edges' t G' :
  well_formed edges = true ->
  split_graph ud llp ip ss ul G target edges = Py.Ok (N, edges', t, G') ->
  t = target
  /\ greatest_id edges (N - 1)
  /\ well_formed edges' = true
  /\ (exists new,
         edges' = edges ++ new ++ List.map reversed_row new
         /\ (List.length new = 1%nat \/ List.length new = 3%nat)
         /\ (exists r, In r new /\ e_v r = N)
         /\ forall r, In r new ->
              e_key r = 0
              /\ e_length r = round2 (ul (e_geometry r))
              /\ (N <= e_u r \/ N <= e_v r)
              /\ e_u r <= N + 1 /\ e_v r <= N + 1)
  /\ (greatest_id edges' N \/ greatest_id edges' (N + 1)).
Proof.
  intros Hwf H.
  pose proof (split_graph_well_formed _ _ _ _ _ _ _ _ _ _ _ _ Hwf H) as Hwf'.
  apply split_graph_inv in H.
  destruct H as (m & txy & edge & new_nodes & uvg & Hm & HN & Ht & Hedge
                 & -> & -> & _ & Hcases).
  pose proof (node_id_greatest _ _ Hwf Hm) as Hgreat.
  assert (Hold : forall r, In r edges -> e_u r < N /\ e_v r < N).
  { intros r Hr. destruct Hgreat as [_ Hall]. specialize (Hall _ Hr). lia. }
  split; [reflexivity|].
  split; [replace (N - 1) with (tuple_max m) by lia; exact Hgreat|].
  split; [exact Hwf'|].
  pose proof (Hold _ Hedge) as Hends.
  destruct Hcases as [(l & r & c & F & pxy & -> & _)|(a & c & Ha & -> & _)].
  - split.
    + eexists. split; [reflexivity|]. split; [right; reflexivity|]. split.
      * eexists. split; [right; right; now left|reflexivity].
      * intros r0 Hr0. simpl in Hr0.
        destruct Hr0 as [<-|[<-|[<-|[]]]]; simpl; repeat split; lia.
    + right. split.
      * eexists. split; [apply in_or_app; right; now left|]. right. reflexivity.
      * intros r0 Hr0. apply in_app_or in Hr0. destruct Hr0 as [Hr0|Hr0].
        -- specialize (Hold _ Hr0). lia.
        -- simpl in Hr0.
           repeat (destruct Hr0 as [<-|Hr0]; [simpl; lia|]). destruct Hr0.
  - assert (Ha' : a < N) by (destruct Ha as [->| ->]; lia).
    split.
    + eexists. split; [reflexivity|]. split; [left; reflexivity|]. split.
      * eexists. split; [now left|reflexivity].
      * intros r0 Hr0. simpl in Hr0.
        destruct Hr0 as [<-|[]]; simpl; repeat split; lia.
    + left. split.
      * eexists. split; [apply in_or_app; right; now left|]. right. reflexivity.
      * intros r0 Hr0. apply in_app_or in Hr0. destruct Hr0 as [Hr0|Hr0].
        -- specialize (Hold _ Hr0). lia.
        -- simpl in Hr0.
           repeat (destruct Hr0 as [<-|Hr0]; [simpl; lia|]). destruct Hr0.
Qed.

(** The node of the target, and the nodes that were there. *)
Lemma split_graph_target_node ud llp ip ss ul G target edges N edges' t G' :
  split_graph ud llp ip ss ul G target edges = Py.Ok (N, edges', t, G') ->
  exists txy,
    point_xy target = Py.Ok txy
    /\ g_nodes G' !! N = Some (Some (fst txy, snd txy, target))
    /\ forall k x, k < N -> g_nodes G !! k = Some x -> g_nodes G' !! k = Some x.
Proof.
  intros H. apply split_graph_inv in H.
  destruct H as (m & txy & edge & new_nodes & uvg & Hm & HN & Ht & Hedge
                 & _ & _ & -> & Hcases).
  exists txy. split; [exact Ht|].
  destruct Hcases as [(l & r & c & F & pxy & -> & ->)|(a & c & Ha & -> & ->)].
  - split.
    + apply g_nodes_update. rewrite lookup_union_with.
      unfold graph_from_gdfs.
      cbn [foldl set_node g_nodes n_osmid n_x n_y n_geometry].
      rewrite lookup_insert_ne by lia. rewrite lookup_insert_eq.
      destruct (g_nodes G !! N); reflexivity.
    + intros k x Hk Hx. apply update_keeps_node; [exact Hx|].
      simpl. intros [E|[E|[]]]; lia.
  - split.
    + apply g_nodes_update. rewrite lookup_union_with.
      unfold graph_from_gdfs.
      cbn [foldl set_node g_nodes n_osmid n_x n_y n_geometry].
      rewrite lookup_insert_eq.
      destruct (g_nodes G !! N); reflexivity.
    + intros k x Hk Hx. apply update_keeps_node; [exact Hx|].
      simpl. intros [E|[]]; lia.
Qed.

(** X12.  Whatever the branch, a call of [split_graph] on a well-formed
    edge table returns the target it was given, the id [N] that follows
    the greatest node id in use, and the given table with rows appended,
    none removed or changed: one key-0 row or three, then their key-1
    reverses.  Every new row has an end at a new node ([N] or [N + 1]), one
    of them ends at the target's node, and each carries the rounded metric
    length of its geometry.  The returned table is well formed again, and
    its greatest node id is [N] or [N + 1]. *)
Theorem split_graph_extends :
  forall (utm_distance : Geometry -> Geometry -> option Q)
         (line_locate_point : Geometry -> Geometry -> Py.lib Q)
         (interpolate : Geometry -> Q -> Py.lib Geometry)
         (substring : Geometry -> Q -> Q -> Py.lib Geometry)
         (utm_length : Geometry -> Q)
         (G : Graph) (target : Geometry) (edges : list EdgeRow)
         (N : Z) (edges' : list EdgeRow) (t : Geometry) (G' : Graph),
    well_formed edges = true ->
    split_graph utm_distance line_locate_point interpolate substring utm_length
                G target edges
    = Py.Ok (N, edges', t, G') ->
    t = target
    /\ greatest_id edges (N - 1)
    /\ well_formed edges' = true
    /\ (exists new,
           edges' = edges ++ new ++ List.map reversed_row new
           /\ (List.length new = 1%nat \/ List.length new = 3%nat)
           /\ (exists r, In r new /\ e_v r = N)
           /\ forall r, In r new ->
                e_key r = 0
                /\ e_length r = round2 (utm_length (e_geometry r))
                /\ (N <= e_u r \/ N <= e_v r)
                /\ e_u r <= N + 1 /\ e_v r <= N + 1)
    /\ (greatest_id edges' N \/ greatest_id edges' (N + 1)).
Proof.
  intros utm_distance line_locate_point interpolate substring utm_length
         G target edges N edges' t G' Hwf H.
  exact (split_graph_facts _ _ _ _ _ _ _ _ _ _ _ _ Hwf H).
Qed.

Lemma split_graph_extends_witness :
  match split_graph Sample.utm_distance Sample.line_locate_point
          Sample.interpolate Sample.substring Sample.axis_length
          empty_graph (Point [(34%Q, 3%Q)]) Sample.edges with
  | Py.Ok (N, edges', t, G') =>
      t = Point [(34%Q, 3%Q)] /\ well_formed edges' = true
  | Py.Raise _ => False
  end.
Proof.
  destruct (split_graph Sample.utm_distance Sample.line_locate_point
              Sample.interpolate Sample.substring Sample.axis_length
              empty_graph (Point [(34%Q, 3%Q)]) Sample.edges)
    as [[[[N edges'] t] G']|e] eqn:E.
  - destruct (split_graph_extends _ _ _ _ _ _ _ Sample.edges _ _ _ _ eq_refl E)
      as (Ht & _ & Hwf & _).
    split; assumption.
  - vm_compute in E. discriminate E.
Defined.

(** X13.  The two calls of [handle], one after the other: on a
    well-formed table the destination gets an id above the origin's, one
    or two above it; the table of the second call holds every row of the
    first and is well formed; and in the graph both targets are nodes with
    their coordinates, the second call leaving the origin's node as the
    first made it. *)
Theorem split_graph_twice :
  forall (utm_distance : Geometry -> Geometry -> option Q)
         (line_locate_point : Geometry -> Geometry -> Py.lib Q)
         (interpolate : Geometry -> Q -> Py.lib Geometry)
         (substring : Geometry -> Q -> Q -> Py.lib Geometry)
         (utm_length : Geometry -> Q)
         (G : Graph) (origin destination : Geometry) (edges : list EdgeRow)
         (N1 N2 : Z) (edges1 edges2 : list EdgeRow) (t1 t2 : Geometry)
         (G1 G2 : Graph),
    well_formed edges = true ->
    split_graph utm_distance line_locate_point interpolate substring utm_length
                G origin edges
    = Py.Ok (N1, edges1, t1, G1) ->
    split_graph utm_distance line_locate_point interpolate substring utm_length
                G1 destination edges1
    = Py.Ok (N2, edges2, t2, G2) ->
    (N2 = N1 + 1 \/ N2 = N1 + 2)
    /\ well_formed edges2 = true
    /\ (forall r, In r edges -> In r edges2)
    /\ (exists o,
           point_xy origin = Py.Ok o
           /\ g_nodes G2 !! N1 = Some (Some (fst o, snd o, origin)))
    /\ (exists d,
           point_xy destination = Py.Ok d
           /\ g_nodes G2 !! N2 = Some (Some (fst d, snd d, destination))).
Proof.
  intros utm_distance line_locate_point interpolate substring utm_length
         G origin destination edges N1 N2 edges1 edges2 t1 t2 G1 G2
         Hwf H1 H2.
  destruct (split_graph_facts _ _ _ _ _ _ _ _ _ _ _ _ Hwf H1)
    as (_ & _ & Hwf1 & (new1 & -> & _) & Hg1).
  destruct (split_graph_facts _ _ _ _ _ _ _ _ _ _ _ _ Hwf1 H2)
    as (_ & Hg2 & Hwf2 & (new2 & -> & _) & _).
  assert (HN : N2 = N1 + 1 \/ N2 = N1 + 2).
  { destruct Hg1 as [Hg1|Hg1];
      pose proof (greatest_id_unique _ _ _ Hg1 Hg2); lia. }
  split; [exact HN|]. split; [exact Hwf2|]. split.
  - intros r Hr. apply in_or_app. left. apply in_or_app. now left.
  - destruct (split_graph_target_node _ _ _ _ _ _ _ _ _ _ _ _ H1)
      as (o & Ho & Hno & _).
    destruct (split_graph_target_node _ _ _ _ _ _ _ _ _ _ _ _ H2)
      as (d & Hd & Hnd & Hkeep).
    split.
    + exists o. split; [exact Ho|]. apply Hkeep; [lia|exact Hno].
    + exists d. split; [exact Hd|exact Hnd].
Qed.

Lemma split_graph_twice_witness :
  match
    '(N1, edges1, _, G1) ←
      split_graph Sample.utm_distance Sample.line_locate_point
        Sample.interpolate Sample.substring Sample.axis_length
        (graph_from_gdfs Sample.nodes Sample.edges)
        (Point [(4%Q, 3%Q)]) Sample.edges;
    '(N2, _, _, _) ←
      split_graph Sample.utm_distance Sample.line_locate_point
        Sample.interpolate Sample.substring Sample.axis_length
        G1 (Point [(26%Q, (-2)%Q)]) edges1;
    Py.Ok (N1, N2)
  with
  | Py.Ok (N1, N2) => N2 = N1 + 1 \/ N2 = N1 + 2
  | Py.Raise _ => False
  end.
Proof.
  destruct (split_graph Sample.utm_distance Sample.line_locate_point
              Sample.interpolate Sample.substring Sample.axis_length
              (graph_from_gdfs Sample.nodes Sample.edges)
              (Point [(4%Q, 3%Q)]) Sample.edges)
    as [[[[N1 edges1] t1] G1]|e] eqn:E1; [|vm_compute in E1; discriminate E1].
  cbn [mbind result_bind Py.bind].
  destruct (split_graph Sample.utm_distance Sample.line_locate_point
              Sample.interpolate Sample.substring Sample.axis_length
              G1 (Point [(26%Q, (-2)%Q)]) edges1)
    as [[[[N2 edges2] t2] G2]|e] eqn:E2.
  - cbn [mbind result_bind Py.bind].
    exact (proj1 (split_graph_twice _ _ _ _ _ _ _ _ Sample.edges
                    _ _ _ _ _ _ _ _ eq_refl E1 E2)).
  - exfalso. vm_compute in E1. inversion E1; subst.
    vm_compute in E2. discriminate E2.
Defined.

(** ** The keys of the edges that [split_graph] adds to the graph *)

(** The edges of the graph after a call, whatever the branch. *)
Lemma split_graph_graph ud llp ip ss ul G target edges N edges' t G' :
  well_formed edges = true ->
  covers edges G ->
  split_graph ud llp ip ss ul G target edges = Py.Ok (N, edges', t, G') ->
  exists new,
    edges' = edges ++ new
    /\ new <> []
    /\ g_edges G' = edge_map (g_edges G) (List.map rekeyed new)
    /\ (forall r, In r new ->
          g_edges G' !! (e_u r, e_v r, 0) = Some (e_geometry r, e_length r))
    /\ (forall r k, In r new -> k <> 0 ->
          g_edges G' !! (e_u r, e_v r, k) = None)
    /\ (forall r, In r new -> In (reversed_row r) new \/ e_key r = 1)
    /\ (forall r, In r new -> e_key r = 0 \/ e_key r = 1)
    /\ (forall r, In r edges -> g_edges G' !! index r = g_edges G !! index r)
    /\ covers edges' G'.
Proof.
  intros Hwf HG H. apply split_graph_inv in H.
  destruct H as (m & txy & edge & new_nodes & uvg & Hm & HN & Ht & Hedge
                 & _ & -> & -> & Hcases).
  pose proof (node_id_greatest _ _ Hwf Hm) as Hgreat.
  assert (Hold : forall r, In r edges -> e_u r < N /\ e_v r < N).
  { intros r Hr. destruct Hgreat as [_ Hall]. specialize (Hall _ Hr). lia. }
  pose proof (Hold _ Hedge) as Hends.
  destruct (well_formed_row _ _ Hwf Hedge) as (_ & _ & Huv & _).
  exists (List.map (with_length ul) uvg
          ++ List.map reversed_row (List.map (with_length ul) uvg)).
  destruct Hcases as [(l & r & c & F & pxy & -> & _)|(a & c & Ha & -> & _)].
  - destruct (interior_ends (e_u edge) (e_v edge) N
                l (round2 (ul l)) r (round2 (ul r)) c (round2 (ul c))
                Huv (proj1 Hends) (proj2 Hends)) as [Hnd Hnew].
    destruct (update_new_rows edges G new_nodes _ N HG Hold
                (out_edges_interior new_nodes (e_u edge) (e_v edge) N
                   l (round2 (ul l)) r (round2 (ul r)) c (round2 (ul c))
                   Huv (proj1 Hends) (proj2 Hends))
                Hnd Hnew)
      as (Heq & Hin0 & Hin1 & _ & Hkept & Hcov).
    split; [reflexivity|]. split; [discriminate|].
    split; [exact Heq|]. split; [exact Hin0|]. split; [exact Hin1|].
    split; [|split; [|split; [exact Hkept|exact Hcov]]].
    + intros r0 Hr0. simpl in Hr0.
      destruct Hr0 as [<-|[<-|[<-|[<-|[<-|[<-|[]]]]]]];
        simpl; tauto.
    + intros r0 Hr0. simpl in Hr0.
      destruct Hr0 as [<-|[<-|[<-|[<-|[<-|[<-|[]]]]]]];
        simpl; tauto.
  - assert (Ha' : a < N) by (destruct Ha as [->| ->]; lia).
    destruct (endpoint_ends a N c (round2 (ul c)) Ha') as [Hnd Hnew].
    destruct (update_new_rows edges G new_nodes _ N HG Hold
                (out_edges_endpoint new_nodes a N c (round2 (ul c)) Ha')
                Hnd Hnew)
      as (Heq & Hin0 & Hin1 & _ & Hkept & Hcov).
    split; [reflexivity|]. split; [discriminate|].
    split; [exact Heq|]. split; [exact Hin0|]. split; [exact Hin1|].
    split; [|split; [|split; [exact Hkept|exact Hcov]]].
    + intros r0 Hr0. simpl in Hr0.
      destruct Hr0 as [<-|[<-|[]]]; simpl; tauto.
    + intros r0 Hr0. simpl in Hr0.
      destruct Hr0 as [<-|[<-|[]]]; simpl; tauto.
Qed.

(** X14.  The graph follows the edge table through [split_graph], but
    for the keys.  If the table is well formed and every edge of the graph
    joins two nodes that a row of the table joins, then after the call the
    edges of the graph are those it had and, for every row appended to the
    table, an edge between the nodes of the row under key 0 (whatever the
    key of the row) with the geometry and length of the row; no edge that
    belongs to a row of the given table is touched; and every edge of the
    new graph joins two nodes that a row of the returned table joins, so
    that the next call meets the same condition. *)
Theorem split_graph_in_step :
  forall (utm_distance : Geometry -> Geometry -> option Q)
         (line_locate_point : Geometry -> Geometry -> Py.lib Q)
         (interpolate : Geometry -> Q -> Py.lib Geometry)
         (substring : Geometry -> Q -> Q -> Py.lib Geometry)
         (utm_length : Geometry -> Q)
         (G : Graph) (target : Geometry) (edges : list EdgeRow)
         (N : Z) (edges' : list EdgeRow) (t : Geometry) (G' : Graph),
    well_formed edges = true ->
    covers edges G ->
    split_graph utm_distance line_locate_point interpolate substring utm_length
                G target edges
    = Py.Ok (N, edges', t, G') ->
    exists new,
      edges' = edges ++ new
      /\ g_edges G' = edge_map (g_edges G) (List.map rekeyed new)
      /\ (forall r, In r new ->
            g_edges G' !! (e_u r, e_v r, 0) = Some (e_geometry r, e_length r))
      /\ (forall r, In r edges -> g_edges G' !! index r = g_edges G !! index r)
      /\ covers edges' G'.
Proof.
  intros utm_distance line_locate_point interpolate substring utm_length
         G target edges N edges' t G' Hwf HG H.
  destruct (split_graph_graph _ _ _ _ _ _ _ _ _ _ _ _ Hwf HG H)
    as (new & He & _ & Heq & Hin0 & _ & _ & _ & Hkept & Hcov).
  exists new. repeat split; assumption.
Qed.

Lemma split_graph_in_step_witness :
  match split_graph Sample.utm_distance Sample.line_locate_point
          Sample.interpolate Sample.substring Sample.axis_length
          (graph_from_gdfs Sample.nodes Sample.edges)
          (Point [(4%Q, 3%Q)]) Sample.edges with
  | Py.Ok (N, edges', t, G') => covers edges' G'
  | Py.Raise _ => False
  end.
Proof.
  destruct (split_graph Sample.utm_distance Sample.line_locate_point
              Sample.interpolate Sample.substring Sample.axis_length
              (graph_from_gdfs Sample.nodes Sample.edges)
              (Point [(4%Q, 3%Q)]) Sample.edges)
    as [[[[N edges'] t] G']|e] eqn:E.
  - destruct (split_graph_in_step _ _ _ _ _ _ _ Sample.edges _ _ _ _ eq_refl
                (graph_from_gdfs_covers Sample.nodes Sample.edges) E)
      as (new & _ & _ & _ & _ & Hcov).
    exact Hcov.
  - vm_compute in E. discriminate E.
Defined.

(** X15.  Edge pairing by key does not survive [split_graph] in the
    graph.  The returned table pairs every new key-0 row [(a, b)] with a
    key-1 row [(b, a)], but [update] enters both in the graph under key 0:
    after every call that returns, on a well-formed table that covers the
    graph, the graph has an edge [(a, b, 0)] whose reverse is a key-1 row
    of the returned table and no edge [(b, a, 1)], and so is not paired. *)
Theorem split_graph_graph_unpaired :
  forall (utm_distance : Geometry -> Geometry -> option Q)
         (line_locate_point : Geometry -> Geometry -> Py.lib Q)
         (interpolate : Geometry -> Q -> Py.lib Geometry)
         (substring : Geometry -> Q -> Q -> Py.lib Geometry)
         (utm_length : Geometry -> Q)
         (G : Graph) (target : Geometry) (edges : list EdgeRow)
         (N : Z) (edges' : list EdgeRow) (t : Geometry) (G' : Graph),
    well_formed edges = true ->
    covers edges G ->
    split_graph utm_distance line_locate_point interpolate substring utm_length
                G target edges
    = Py.Ok (N, edges', t, G') ->
    (exists r,
        In r edges' /\ e_key r = 0 /\ In (reversed_row r) edges'
        /\ g_edges G' !! (e_u r, e_v r, 0) = Some (e_geometry r, e_length r)
        /\ g_edges G' !! (e_v r, e_u r, 0) = Some (e_geometry r, e_length r)
        /\ g_edges G' !! (e_v r, e_u r, 1) = None)
    /\ ~ graph_paired G'.
Proof.
  intros utm_distance line_locate_point interpolate substring utm_length
         G target edges N edges' t G' Hwf HG H.
  destruct (split_graph_graph _ _ _ _ _ _ _ _ _ _ _ _ Hwf HG H)
    as (new & -> & Hne & _ & Hin0 & Hin1 & Hrev & Hkey & _ & _).
  assert (Hr : exists r, In r new /\ e_key r = 0 /\ In (reversed_row r) new).
  { destruct new as [|r0 new]; [congruence|].
    destruct (Hkey r0 (or_introl eq_refl)) as [K|K].
    - exists r0. split; [now left|]. split; [exact K|].
      destruct (Hrev r0 (or_introl eq_refl)) as [Hr|Hr]; [exact Hr|congruence].
    - exfalso. clear - H Hwf K.
      apply split_graph_inv in H.
      destruct H as (m & txy & edge & new_nodes & uvg & _ & _ & _ & _
                     & _ & He & _ & Hcases).
      apply app_inv_head in He.
      destruct Hcases as [(l & r & c & F & pxy & -> & _)|(a & c & Ha & -> & _)];
        simpl in He; inversion He; subst r0; simpl in K; discriminate K. }
  destruct Hr as (r & Hr & K & Hr').
  assert (H0 : g_edges G' !! (e_u r, e_v r, 0) = Some (e_geometry r, e_length r))
    by now apply Hin0.
  assert (H1 : g_edges G' !! (e_v r, e_u r, 1) = None).
  { apply (Hin1 (reversed_row r) 1); [exact Hr'|lia]. }
  split.
  - exists r. split; [apply in_or_app; now right|]. split; [exact K|].
    split; [apply in_or_app; now right|]. split; [exact H0|].
    split; [exact (Hin0 (reversed_row r) Hr')|exact H1].
  - intros Hp. specialize (Hp _ _ _ H0). congruence.
Qed.

Lemma split_graph_graph_unpaired_witness :
  match split_graph Sample.utm_distance Sample.line_locate_point
          Sample.interpolate Sample.substring Sample.axis_length
          (graph_from_gdfs Sample.nodes Sample.edges)
          (Point [(4%Q, 3%Q)]) Sample.edges with
  | Py.Ok (N, edges', t, G') => ~ graph_paired G'
  | Py.Raise _ => False
  end.
Proof.
  destruct (split_graph Sample.utm_distance Sample.line_locate_point
              Sample.interpolate Sample.substring Sample.axis_length
              (graph_from_gdfs Sample.nodes Sample.edges)
              (Point [(4%Q, 3%Q)]) Sample.edges)
    as [[[[N edges'] t] G']|e] eqn:E.
  - exact (proj2 (split_graph_graph_unpaired _ _ _ _ _ _ _ Sample.edges
                    _ _ _ _ eq_refl
                    (graph_from_gdfs_covers Sample.nodes Sample.edges) E)).
  - vm_compute in E. discriminate E.
Defined.

End RoutingFacts.

(** * Facts about lambda_handler.py *)

Module HandlerFacts.

Import Shapely Routing LambdaHandler.

(** ** [remap_missing_nodes] *)


Lemma index_map_endpoints removed rows c :
  endpoints (fst (index_map (remap removed) rows c))
  = relabel removed c (endpoints rows)
  /\ snd (index_map (remap removed) rows c)
     = c + Z.of_nat (occurrences removed (endpoints rows)).
Proof.
  revert c. induction rows as [|[[a b] k] rows IH]; intros c.
  - simpl. split; [reflexivity|]. unfold occurrences. simpl. lia.
  - cbn [index_map remap].
    destruct (mem a removed) eqn:Ha; destruct (mem b removed) eqn:Hb;
      match goal with
      | |- context [index_map (remap removed) rows ?c'] =>
          destruct (IH c') as [IH1 IH2];
          destruct (index_map (remap removed) rows c') as [rest cell]
      end;
      simpl in IH1, IH2; subst cell;
      unfold occurrences in *; simpl; rewrite ?Ha, ?Hb; simpl;
      rewrite IH1; split; try reflexivity; lia.
Qed.

Lemma index_map_keys removed rows c :
  List.map snd (fst (index_map (remap removed) rows c)) = List.map snd rows.
Proof.
  revert c. induction rows as [|[[a b] k] rows IH]; intros c; [reflexivity|].
  cbn [index_map remap].
  destruct (mem a removed); destruct (mem b removed);
    match goal with
    | |- context [index_map (remap removed) rows ?c'] =>
        specialize (IH c');
        destruct (index_map (remap removed) rows c') as [rest cell]
    end; simpl in *; now rewrite IH.
Qed.

Lemma relabel_nth removed l : forall c i a,
  nth_error l i = Some a ->
  nth_error (relabel removed c l) i
  = Some (if mem a removed
          then c + Z.of_nat (occurrences removed (firstn i l))
          else a).
Proof.
  induction l as [|x l IH]; intros c [|i] a H; simpl in H; try discriminate.
  - inversion H; subst. simpl. unfold occurrences. simpl.
    destruct (mem a removed); simpl; f_equal; lia.
  - simpl. destruct (mem x removed) eqn:Hx; simpl.
    + rewrite (IH _ _ _ H). unfold occurrences. simpl. rewrite Hx. simpl.
      destruct (mem a removed); f_equal; lia.
    + rewrite (IH _ _ _ H). unfold occurrences. simpl. rewrite Hx. reflexivity.
Qed.

Lemma occurrences_firstn_lt removed l i j a :
  (i < j)%nat -> nth_error l i = Some a -> mem a removed = true ->
  (occurrences removed (firstn i l) < occurrences removed (firstn j l))%nat.
Proof.
  revert i j. induction l as [|x l IH]; intros [|i] [|j] Hij H Ha;
    simpl in H; try discriminate; try lia.
  - inversion H; subst. unfold occurrences. simpl. rewrite Ha. simpl. lia.
  - assert (Hlt : (i < j)%nat) by lia.
    specialize (IH i j Hlt H Ha). unfold occurrences in *. simpl.
    destruct (mem x removed); simpl; lia.
Qed.

Lemma foldl_max_ge (l : list Z) : forall a,
  a <= foldl Z.max a l /\ forall x, In x l -> x <= foldl Z.max a l.
Proof.
  induction l as [|y l IH]; intros a; simpl.
  - split; [lia|intros x []].
  - destruct (IH (Z.max a y)) as [H1 H2]. split; [lia|].
    intros x [<-|Hx]; [lia|auto].
Qed.

Lemma index_max_nodes_ge ns m :
  index_max_nodes ns = Some m -> forall n, In n ns -> n_osmid n <= m.
Proof.
  destruct ns as [|n0 ns]; simpl; [discriminate|].
  intros H; inversion H; subst. intros n [<-|Hn].
  - apply (proj1 (foldl_max_ge _ _)).
  - apply (proj2 (foldl_max_ge _ _)). now apply in_map.
Qed.

(** C3.  With [m] the greatest node id, [remap_missing_nodes (m + 1)]
    keeps the rows and their keys, leaves every endpoint that is no
    removed node as it is, and gives the [k]-th endpoint occurrence of a
    removed node (counting [u] before [v], row after row, from 0) the id
    [m + 1 + k].  Hence two occurrences never receive the same id, even
    occurrences of the same removed node, and every new id is above every
    existing node id. *)
Theorem remap_missing_nodes_fresh :
  forall (ns : list NodeRow) (m : Z) (removed : list Z) (rows : list Index),
    index_max_nodes ns = Some m ->
    let out := remap_missing_nodes (m + 1) removed rows in
    List.length out = List.length rows
    /\ List.map snd out = List.map snd rows
    /\ (forall i a,
           nth_error (endpoints rows) i = Some a ->
           nth_error (endpoints out) i
           = Some (if mem a removed
                   then m + 1 + Z.of_nat (occurrences removed (firstn i (endpoints rows)))
                   else a))
    /\ (forall i j a a' b b',
           i <> j ->
           nth_error (endpoints rows) i = Some a -> mem a removed = true ->
           nth_error (endpoints rows) j = Some a' -> mem a' removed = true ->
           nth_error (endpoints out) i = Some b ->
           nth_error (endpoints out) j = Some b' ->
           b <> b')
    /\ (forall i a b n,
           nth_error (endpoints rows) i = Some a -> mem a removed = true ->
           nth_error (endpoints out) i = Some b ->
           In n ns -> n_osmid n < b).
Proof.
  intros ns m removed rows Hm out.
  assert (Hnth : forall i a,
             nth_error (endpoints rows) i = Some a ->
             nth_error (endpoints out) i
             = Some (if mem a removed
                     then m + 1 + Z.of_nat (occurrences removed (firstn i (endpoints rows)))
                     else a)).
  { intros i a H. unfold out, remap_missing_nodes.
    rewrite (proj1 (index_map_endpoints removed rows (m + 1))).
    now apply relabel_nth. }
  assert (Hkeys : List.map snd out = List.map snd rows)
    by apply index_map_keys.
  repeat split.
  - pose proof (f_equal (@List.length _) Hkeys) as Hlen.
    now rewrite !List.length_map in Hlen.
  - exact Hkeys.
  - exact Hnth.
  - intros i j a a' b b' Hij Hi Ha Hj Ha' Hb Hb'.
    rewrite (Hnth _ _ Hi), Ha in Hb. rewrite (Hnth _ _ Hj), Ha' in Hb'.
    inversion Hb; inversion Hb'; subst.
    destruct (Nat.lt_ge_cases i j) as [Hlt|Hge].
    + pose proof (occurrences_firstn_lt removed _ i j a Hlt Hi Ha). lia.
    + assert (Hlt : (j < i)%nat) by lia.
      pose proof (occurrences_firstn_lt removed _ j i a' Hlt Hj Ha'). lia.
  - intros i a b n Hi Ha Hb Hn.
    rewrite (Hnth _ _ Hi), Ha in Hb. inversion Hb; subst.
    pose proof (index_max_nodes_ge _ _ Hm _ Hn). lia.
Qed.

Lemma remap_missing_nodes_fresh_witness :
  List.length (remap_missing_nodes (3 + 1) [1; 2] (List.map index Sample.forward_edges))
  = List.length (List.map index Sample.forward_edges).
Proof.
  exact (proj1 (remap_missing_nodes_fresh Sample.nodes 3 [1; 2]
                  (List.map index Sample.forward_edges) eq_refl)).
Defined.

(** The street with the nodes 1 and 2 removed: the edge between them gets
    two new ends, and neither is shared with a neighbour. *)
Example remap_street :
  remap_missing_nodes 4 [1; 2] [(0, 1, 0); (1, 2, 0); (2, 3, 0)]
  = [(0, 4, 0); (5, 6, 0); (7, 3, 0)].
Proof. reflexivity. Qed.

(** ** The branch [if exclusion_areas:] *)

Lemma nonempty_map_ok {A B} (f : A -> B) (rows : list A) e out :
  match rows with
  | [] => Py.Raise e
  | x :: l => Py.Ok (List.map f (x :: l))
  end = Py.Ok out ->
  out = List.map f rows.
Proof. destruct rows; intros H; inversion H. reflexivity. Qed.

Lemma specialize_rows env exclusion_areas G rows :
  specialize env exclusion_areas = Py.Ok (G, rows) ->
  exists ns L,
    Forall (fun r => e_key r = 0) L
    /\ List.length L
       = List.length (List.filter (fun r => e_key r =? 0) (edges env))
    /\ rows = L ++ List.map reversed_row L
    /\ G = graph_from_gdfs ns rows.
Proof.
  unfold specialize. intros H.
  bind_ok H as clipped E. bind_ok H as extra Ex.
  bind_ok H as ug Eu. bind_ok H as vg Ev.
  inversion H; subst; clear H.
  eexists. eexists. split; [|split; [|split; reflexivity]].
  - apply List.Forall_forall. intros r Hr.
    apply in_map_iff in Hr. destruct Hr as [[r0 [[a b] k]] [<- Hin]]; clear Ex Eu Ev.
    simpl. apply in_combine_r in Hin.
    assert (Hk : In k (List.map snd
                (remap_missing_nodes
                   (from_option (fun m => m + 1) 0 (index_max_nodes (nodes env)))
                   (List.map n_osmid
                      (List.filter (fun n => is_empty (n_geometry n))
                         (List.map (clip_node env exclusion_areas) (nodes env))))
                   (List.map index clipped)))).
    { apply in_map_iff. exists (a, b, k). auto. }
    unfold remap_missing_nodes in Hk. rewrite index_map_keys in Hk.
    rewrite List.map_map in Hk. apply in_map_iff in Hk.
    destruct Hk as [r1 [<- Hr1]].
    apply nonempty_map_ok in E. subst clipped. apply in_map_iff in Hr1.
    destruct Hr1 as [r2 [<- _]]. reflexivity.
  - rewrite List.length_map, List.length_combine.
    unfold remap_missing_nodes.
    pose proof (f_equal (@List.length _)
                  (index_map_keys
                     (List.map n_osmid
                        (List.filter (fun n => is_empty (n_geometry n))
                           (List.map (clip_node env exclusion_areas) (nodes env))))
                     (List.map index clipped)
                     (from_option (fun m => m + 1) 0 (index_max_nodes (nodes env)))))
      as Hlen.
    rewrite !List.length_map in Hlen. rewrite Hlen.
    apply nonempty_map_ok in E. subst clipped. rewrite List.length_map. lia.
Qed.

Lemma specialize_paired env exclusion_areas G rows :
  specialize env exclusion_areas = Py.Ok (G, rows) ->
  paired rows /\ graph_paired G.
Proof.
  intros H. apply specialize_rows in H.
  destruct H as (ns & L & HL & _ & -> & ->). split.
  - apply RoutingFacts.with_reversed_rows_paired.
  - now apply RoutingFacts.graph_from_gdfs_paired.
Qed.

(** C1 (as the code has it).  In the edge table of [make_edges], and in
    the edge table and the graph that the exclusion branch of [handle]
    builds, every key-0 edge [(u, v)] has a key-1 edge [(v, u)] with the
    same length and the same geometry: the rows are copied with [u] and
    [v] exchanged, and the coordinates keep their order. *)
Theorem edge_pairing_same_geometry :
  (forall project utm_length threshold set_order substitution_order
          lines nodes edges,
      Prepare.make_edges project utm_length threshold set_order
                         substitution_order lines nodes = Py.Ok edges ->
      Prepare.paired edges)
  /\ (forall env exclusion_areas G rows,
         specialize env exclusion_areas = Py.Ok (G, rows) ->
         paired rows /\ graph_paired G).
Proof.
  split.
  - intros. eapply PrepareFacts.make_edges_paired. eassumption.
  - intros. eapply specialize_paired. eassumption.
Qed.

Lemma edge_pairing_same_geometry_witness :
  match specialize Sample.env (Sample.excluded 8 12) with
  | Py.Ok (G, rows) => paired rows /\ graph_paired G
  | Py.Raise _ => False
  end.
Proof.
  destruct (specialize Sample.env (Sample.excluded 8 12)) as [[G rows]|e] eqn:E.
  - exact (proj2 edge_pairing_same_geometry _ _ _ _ E).
  - vm_compute in E. discriminate E.
Defined.

(** C1 (as claimed) fails: the key-1 edge of the one sample line has the
    coordinates of the key-0 edge in the same order, not reversed. *)
Lemma edge_geometry_not_reversed :
  exists edges,
    Prepare.make_edges Sample.project Sample.axis_length 5
                       Sample.set_order Sample.substitution_order
                       Sample.one_line Sample.two_nodes = Py.Ok edges
    /\ ~ Prepare.paired_reversed edges.
Proof.
  eexists. split; [vm_compute; reflexivity|].
  intros H.
  match type of H with
  | Prepare.paired_reversed (?r :: _) =>
      destruct (H r (or_introl eq_refl) eq_refl)
        as (r' & Hin & Hk & _ & _ & Hrev & _)
  end.
  destruct Hin as [<-|[<-|[]]].
  - discriminate Hk.
  - vm_compute in Hrev. discriminate Hrev.
Qed.

(** C4 (the code against the claim).  An area over the whole edge between
    the nodes 1 and 2 leaves that edge with an empty geometry; the row is
    kept, and deriving the new end node from its first coordinate fails
    with an [IndexError] that [handle] does not catch. *)
Theorem wholly_excluded_edge_raises :
  handle Sample.env (Sample.make_request_event Sample.covering_request)
  = Py.Raise (Py.PyError "IndexError" "index out of range").
Proof. vm_compute. reflexivity. Qed.

(** The exclusion branch never drops a row: the table it returns has the
    key-0 rows of the static table, one for one, and their reverses. *)
Lemma specialize_keeps_rows env exclusion_areas G rows :
  specialize env exclusion_areas = Py.Ok (G, rows) ->
  List.length rows
  = (2 * List.length (List.filter (fun r => (e_key r =? 0)%Z) (edges env)))%nat.
Proof.
  intros H. apply specialize_rows in H.
  destruct H as (ns & L & _ & Hlen & -> & _).
  rewrite List.length_app, List.length_map. lia.
Qed.

(** ** Which exceptions [handle] turns into responses *)


Create HintDb raises.

Lemma raises_only_ok S {A} (a : A) : raises_only S (Py.Ok a).
Proof. intros s m H. discriminate H. Qed.

Lemma raises_only_py S {A} k msg :
  raises_only S (Py.Raise (A:=A) (Py.PyError k msg)).
Proof. intros s m H. discriminate H. Qed.

Lemma raises_only_lambda S {A} status msg :
  In status S -> raises_only S (Py.Raise (A:=A) (Py.LambdaException status msg)).
Proof. intros Hin s m H. inversion H; subst. exact Hin. Qed.

Lemma raises_only_call S {A} (r : Py.lib A) : raises_only S (Py.call r).
Proof. destruct r; intros s m H; discriminate H. Qed.

Lemma raises_only_bind S {A B} (m : Py.result A) (k : A -> Py.result B) :
  raises_only S m -> (forall a, raises_only S (k a)) ->
  raises_only S (mbind k m).
Proof.
  intros Hm Hk. destruct m as [a|e]; cbn.
  - apply Hk.
  - intros s msg H. inversion H; subst. now apply (Hm s msg).
Qed.

Lemma raises_only_mapM S {A B} (f : A -> Py.result B) l :
  (forall x, raises_only S (f x)) -> raises_only S (Clean.mapM f l).
Proof.
  intros Hf. induction l as [|x l IH]; simpl.
  - apply raises_only_ok.
  - apply raises_only_bind; [apply Hf|]. intros y.
    apply raises_only_bind; [exact IH|]. intros r. apply raises_only_ok.
Qed.

Lemma raises_only_foldM S {A B} (f : B -> A -> Py.result B) l : forall b,
  (forall b x, raises_only S (f b x)) -> raises_only S (foldM f b l).
Proof.
  induction l as [|x l IH]; intros b Hf; simpl.
  - apply raises_only_ok.
  - apply raises_only_bind; [apply Hf|]. intros b'. now apply IH.
Qed.

#[local] Hint Resolve raises_only_ok raises_only_py raises_only_call : raises.
#[local] Hint Extern 1 (In _ _) => simpl; tauto : raises.

(** Walks through a computation, one bind or branch at a time. *)
Ltac raises :=
  lazymatch goal with
  | |- raises_only _ (mbind _ _) =>
      apply raises_only_bind; [raises | intros ?; raises]
  | |- raises_only _ (Py.Ok _) => apply raises_only_ok
  | |- raises_only _ (Py.Raise (Py.PyError _ _)) => apply raises_only_py
  | |- raises_only _ (Py.Raise (Py.LambdaException _ _)) =>
      apply raises_only_lambda; simpl; tauto
  | |- raises_only _ (Py.call _) => apply raises_only_call
  | |- raises_only _ (Clean.mapM _ _) =>
      apply raises_only_mapM; intros ?; raises
  | |- raises_only _ (foldM _ _ _) =>
      apply raises_only_foldM; intros ? ?; raises
  | |- raises_only _ (if ?b then _ else _) => destruct b; raises
  | |- raises_only _ (match ?x with _ => _ end) => destruct x; raises
  | |- _ => solve [eauto with raises]
  end.

Lemma get_raises S d k v : raises_only S (Json.get d k v).
Proof. unfold Json.get. raises. Qed.

Lemma getitem_raises S d k : raises_only S (Json.getitem d k).
Proof. unfold Json.getitem. raises. Qed.

Lemma contains_raises S d k : raises_only S (Json.contains d k).
Proof. unfold Json.contains. raises. Qed.

Lemma py_iter_raises S v : raises_only S (py_iter v).
Proof. unfold py_iter. raises. Qed.

Lemma parse_arn_raises S a : raises_only S (parse_arn a).
Proof.
  unfold parse_arn, parse_arn_str.
  destruct a; try apply raises_only_py.
  destruct (split_max colon 5 s) as [|? [|? [|? [|? [|? [|? [|? ?]]]]]]];
    try apply raises_only_py.
  raises.
Qed.

Lemma first_raises S {A} (l : list A) : raises_only S (Shapely.first l).
Proof. unfold Shapely.first. raises. Qed.

Lemma last_raises S {A} (l : list A) : raises_only S (Shapely.last l).
Proof. unfold Shapely.last. raises. Qed.

Lemma coords_raises S g : raises_only S (Shapely.coords g).
Proof. unfold Shapely.coords. raises. Qed.

Lemma point_xy_raises S p : raises_only S (point_xy p).
Proof.
  unfold point_xy. destruct p; try apply raises_only_py.
  destruct c as [|? [|? ?]]; raises.
Qed.

#[local] Hint Resolve get_raises getitem_raises contains_raises py_iter_raises
  parse_arn_raises first_raises last_raises coords_raises point_xy_raises
  : raises.

Lemma line_between_raises S a b : raises_only S (line_between a b).
Proof. unfold line_between. raises. Qed.

#[local] Hint Resolve line_between_raises : raises.

Lemma or_invalid_raises S {A} prefix (m : Py.result A) :
  In 400 S -> raises_only S (or_invalid prefix m).
Proof. intros H. unfold or_invalid. raises. Qed.

#[local] Hint Resolve or_invalid_raises : raises.

Lemma prefetch_geofences_raises S env areas :
  In 500 S -> raises_only S (prefetch_geofences env areas).
Proof.
  intros H. unfold prefetch_geofences, arn_of_area, fetch_resource. raises.
Qed.

Lemma get_exclusion_areas_raises S env areas geofences :
  In 400 S -> In 500 S ->
  raises_only S (get_exclusion_areas env areas geofences).
Proof.
  intros H4 H5.
  unfold get_exclusion_areas, exclusion_area, resolve_arn,
    circle_geometries, polygon_geometries.
  raises.
Qed.

Lemma column_raises S {A} name (cells : list (option A)) :
  raises_only S (column name cells).
Proof. unfold column. raises. Qed.

#[local] Hint Resolve column_raises : raises.

Lemma specialize_raises S env exclusion_areas :
  raises_only S (specialize env exclusion_areas).
Proof. unfold specialize, make_nodes. raises. Qed.

Lemma split_graph_raises S ud llp ip ss ul G target edges :
  raises_only S (split_graph ud llp ip ss ul G target edges).
Proof. unfold split_graph. raises. Qed.

#[local] Hint Resolve prefetch_geofences_raises get_exclusion_areas_raises
  specialize_raises split_graph_raises : raises.

Lemma handle_try_raises env event :
  raises_only [400; 404; 500] (handle_try env event).
Proof. unfold handle_try, request_point. raises. Qed.


Lemma returns_only_bind {A B} (P : B -> Prop) (m : Py.result A)
  (k : A -> Py.result B) :
  (forall a, returns_only P (k a)) -> returns_only P (mbind k m).
Proof.
  intros Hk. destruct m as [a|e]; cbn; [apply Hk|].
  intros b H. discriminate H.
Qed.

Ltac returns :=
  lazymatch goal with
  | |- returns_only _ (mbind _ _) =>
      apply returns_only_bind; intros ?; returns
  | |- returns_only _ (Py.Ok _) =>
      let H := fresh in intros ? H; inversion H; subst; simpl; auto
  | |- returns_only _ (Py.Raise _) =>
      let H := fresh in intros ? H; discriminate H
  | |- returns_only _ (match ?x with _ => _ end) => destruct x; returns
  end.

Lemma handle_try_returns env event :
  returns_only (fun r => statusCode r = 200) (handle_try env event).
Proof. unfold handle_try. returns. Qed.

(** C7 (as the code has it).  [handle] has one handler, for
    [LambdaException].  A response it returns is either the success
    response of the body, with status 200, or the error response made from
    a [LambdaException] that the body raised, whose status is 400, 404 or
    500.  Every other exception raised in the body leaves [handle] as it
    is: there is no catch-all and no status for an internal error. *)
Theorem handle_catches_lambda_exceptions_only :
  forall (env : Env) (event : Json.value),
    (forall r, handle env event = Py.Ok r ->
       (statusCode r = 200 /\ handle_try env event = Py.Ok r)
       \/ (In (statusCode r) [400; 404; 500]
           /\ headers r = cors
           /\ exists message,
               handle_try env event
               = Py.Raise (Py.LambdaException (statusCode r) message)
               /\ body r = error_body message))
    /\ (forall e, handle env event = Py.Raise e ->
        handle_try env event = Py.Raise e
        /\ exists kind message, e = Py.PyError kind message)
    /\ (forall kind message,
        handle_try env event = Py.Raise (Py.PyError kind message) ->
        handle env event = Py.Raise (Py.PyError kind message)).
Proof.
  intros env event. unfold handle.
  pose proof (handle_try_raises env event) as Hraise.
  pose proof (handle_try_returns env event) as Hret.
  destruct (handle_try env event) as [r0|[status message|kind message]].
  - split; [|split].
    + intros r H. inversion H; subst. left. split; [now apply Hret|reflexivity].
    + intros e H. discriminate H.
    + intros kind message H. discriminate H.
  - split; [|split].
    + intros r H. inversion H; subst. simpl. right.
      split; [now apply (Hraise status message)|].
      split; [reflexivity|]. exists message. split; reflexivity.
    + intros e H. discriminate H.
    + intros kind message' H. discriminate H.
  - split; [|split].
    + intros r H. discriminate H.
    + intros e H. inversion H; subst. split; [reflexivity|eauto].
    + intros kind' message' H. exact H.
Qed.

(** C7 (as claimed) fails: a body without ["Destination"] makes
    [body["Destination"]] raise a [KeyError], which [handle] lets
    through. *)
Lemma missing_destination_escapes :
  ~ always_responds Sample.env.
Proof.
  intros H.
  destruct (H (Sample.make_request_event Sample.no_destination_request))
    as [r Hr].
  vm_compute in Hr. discriminate Hr.
Qed.

Example missing_destination :
  handle Sample.env (Sample.make_request_event Sample.no_destination_request)
  = Py.Raise (Py.PyError "KeyError" "'Destination'").
Proof. vm_compute. reflexivity. Qed.

(** ** The area check *)






Example missing_fence_first :
  handle Sample.env (Sample.make_request_event Sample.missing_fence_request)
  = Py.Ok (mkResponse 500 cors
             (error_body ("Unable to fetch geofence (" +:+ Sample.missing_fence +:+ ")"))).
Proof. vm_compute. reflexivity. Qed.

(** An ARN with fewer than six elements stops the prefetch, before any
    area is checked. *)
Example short_arn_escapes :
  handle Sample.env (Sample.make_request_event Sample.bad_arn_request)
  = Py.Raise (Py.PyError "IndexError" "list index out of range").
Proof. vm_compute. reflexivity. Qed.

(** ** [parse_arn] *)

Lemma split_max_length sep s : forall n,
  List.length (split_max sep n s) = S (Nat.min n (count_char sep s)).
Proof.
  induction s as [|c s IH]; intros n; simpl.
  - now rewrite Nat.min_0_r.
  - destruct n as [|n]; [reflexivity|].
    destruct (Ascii.eqb c sep).
    + simpl. now rewrite IH.
    + specialize (IH (S n)).
      destruct (split_max sep (S n) s) as [|h t]; [discriminate IH|].
      exact IH.
Qed.

Lemma concat_cons (sep x y : string) (l : list string) :
  String.concat sep (x :: y :: l)
  = (x +:+ sep +:+ String.concat sep (y :: l)).
Proof. reflexivity. Qed.

(** [sep.join(s.split(sep, n)) == s] *)
Lemma split_max_concat sep s : forall n,
  String.concat (String sep EmptyString) (split_max sep n s) = s.
Proof.
  induction s as [|c s IH]; intros n; [reflexivity|].
  cbn [split_max]. destruct n as [|n]; [reflexivity|].
  destruct (Ascii.eqb_spec c sep) as [->|Hne].
  - pose proof (split_max_length sep s n) as Hlen. specialize (IH n).
    destruct (split_max sep n s) as [|h t]; [discriminate Hlen|].
    rewrite concat_cons, IH. reflexivity.
  - pose proof (split_max_length sep s (S n)) as Hlen. specialize (IH (S n)).
    destruct (split_max sep (S n) s) as [|h t]; [discriminate Hlen|].
    destruct t as [|h' t].
    + simpl in *. now rewrite IH.
    + rewrite concat_cons in *. rewrite <- IH. reflexivity.
Qed.

(** Only the last element of a split can hold the separator. *)
Lemma split_max_init sep s : forall n,
  Forall (fun e => has_char sep e = false)
         (List.removelast (split_max sep n s)).
Proof.
  induction s as [|c s IH]; intros n.
  - simpl. constructor.
  - cbn [split_max]. destruct n as [|n]; [simpl; constructor|].
    destruct (Ascii.eqb_spec c sep) as [->|Hne].
    + pose proof (split_max_length sep s n) as Hlen. specialize (IH n).
      destruct (split_max sep n s) as [|h t]; [discriminate Hlen|].
      change (List.removelast (EmptyString :: h :: t))
        with (EmptyString :: List.removelast (h :: t)).
      constructor; [reflexivity|exact IH].
    + pose proof (split_max_length sep s (S n)) as Hlen. specialize (IH (S n)).
      destruct (split_max sep (S n) s) as [|h t]; [discriminate Hlen|].
      destruct t as [|h' t]; [simpl; constructor|].
      change (List.removelast (String c h :: h' :: t))
        with (String c h :: List.removelast (h' :: t)).
      change (List.removelast (h :: h' :: t))
        with (h :: List.removelast (h' :: t)) in IH.
      inversion IH as [|? ? Hh Ht]; subst.
      constructor; [|exact Ht].
      simpl. rewrite Hh. apply orb_false_iff. split; [|reflexivity].
      now apply Ascii.eqb_neq.
Qed.

Lemma has_char_count sep s :
  has_char sep s = true <-> (0 < count_char sep s)%nat.
Proof.
  induction s as [|c s IH]; simpl; [split; [discriminate|lia]|].
  destruct (Ascii.eqb c sep); simpl; [split; [lia|reflexivity]|exact IH].
Qed.

(** [s.split(sep, 1)] on a string that holds [sep]. *)
Lemma split_max_one sep s :
  has_char sep s = true ->
  exists t r,
    split_max sep 1 s = [t; r]
    /\ s = t +:+ String sep EmptyString +:+ r
    /\ has_char sep t = false.
Proof.
  intros H. apply has_char_count in H.
  pose proof (split_max_length sep s 1) as Hlen.
  pose proof (split_max_concat sep s 1) as Hcat.
  pose proof (split_max_init sep s 1) as Hinit.
  destruct (split_max sep 1 s) as [|t [|r [|x l]]];
    cbn [List.length] in Hlen; try lia.
  exists t, r. split; [reflexivity|]. split; [now rewrite <- Hcat|].
  simpl in Hinit. now inversion Hinit.
Qed.

Lemma parse_arn_six arn :
  (5 <= count_char colon arn)%nat ->
  exists e0 e1 e2 e3 e4 e5,
    split_max colon 5 arn = [e0; e1; e2; e3; e4; e5].
Proof.
  intros H. pose proof (split_max_length colon arn 5) as Hlen.
  rewrite Nat.min_l in Hlen by exact H.
  destruct (split_max colon 5 arn) as [|e0 [|e1 [|e2 [|e3 [|e4 [|e5 [|x l]]]]]]];
    try discriminate Hlen.
  repeat eexists.
Qed.

(** X16.  [parse_arn] returns exactly for the texts with five colons or
    more; a text with fewer makes it fail with an [IndexError] (there is
    no sixth element), which is not a [LambdaException]. *)
Theorem parse_arn_needs_six :
  forall arn : string,
    ((5 <= count_char colon arn)%nat ->
     exists c, parse_arn_str arn = Py.Ok c)
    /\ ((count_char colon arn < 5)%nat ->
        parse_arn_str arn
        = Py.Raise (Py.PyError "IndexError" "list index out of range")).
Proof.
  intros arn. split; intros H; unfold parse_arn_str.
  - destruct (parse_arn_six arn H) as (e0 & e1 & e2 & e3 & e4 & e5 & ->).
    destruct (has_char slash e5).
    + destruct (split_max slash 1 e5) as [|? [|? [|? ?]]]; eauto.
    + destruct (has_char colon e5); [|eauto].
      destruct (split_max colon 1 e5) as [|? [|? [|? ?]]]; eauto.
  - pose proof (split_max_length colon arn 5) as Hlen.
    rewrite Nat.min_r in Hlen by lia.
    destruct (split_max colon 5 arn) as [|e0 [|e1 [|e2 [|e3 [|e4 [|e5 [|x l]]]]]]];
      try reflexivity.
    simpl in Hlen. lia.
Qed.

(** X17.  What [parse_arn] returns can be put together again: the text
    is the first five components and the rest, joined by colons; none of
    the first five holds a colon; and the rest is the resource alone when
    it holds neither a slash nor a colon, and otherwise the resource type
    and the resource around its first slash or, without a slash, around
    its first colon. *)
Theorem parse_arn_rejoins :
  forall (arn : string) (c : ArnComponents),
    parse_arn_str arn = Py.Ok c ->
    exists rest,
      arn = String.concat ":"
              [arn_arn c; arn_partition c; arn_service c; arn_region c;
               arn_account c; rest]
      /\ Forall (fun e => has_char colon e = false)
                [arn_arn c; arn_partition c; arn_service c; arn_region c;
                 arn_account c]
      /\ arn_tail c rest.
Proof.
  intros arn c H. unfold parse_arn_str in H.
  pose proof (split_max_concat colon arn 5) as Hcat.
  pose proof (split_max_init colon arn 5) as Hinit.
  destruct (split_max colon 5 arn) as [|e0 [|e1 [|e2 [|e3 [|e4 [|e5 [|x l]]]]]]];
    try discriminate H.
  exists e5.
  assert (Hfields :
            forall r t,
              c = mkArn e0 e1 e2 e3 e4 r t ->
              arn = String.concat ":"
                      [arn_arn c; arn_partition c; arn_service c;
                       arn_region c; arn_account c; e5]
              /\ Forall (fun e => has_char colon e = false)
                        [arn_arn c; arn_partition c; arn_service c;
                         arn_region c; arn_account c]).
  { intros r t ->. split; [now rewrite <- Hcat|exact Hinit]. }
  unfold arn_tail.
  destruct (has_char slash e5) eqn:Hs.
  - destruct (split_max_one slash e5 Hs) as (t & r & E & Hjoin & Ht).
    rewrite E in H. inversion H; subst c; clear H.
    destruct (Hfields _ _ eq_refl) as [H1 H2].
    split; [exact H1|]. split; [exact H2|]. left. split; assumption.
  - destruct (has_char colon e5) eqn:Hc.
    + destruct (split_max_one colon e5 Hc) as (t & r & E & Hjoin & Ht).
      rewrite E in H. inversion H; subst c; clear H.
      destruct (Hfields _ _ eq_refl) as [H1 H2].
      split; [exact H1|]. split; [exact H2|]. right.
      repeat split; assumption.
    + inversion H; subst c; clear H.
      destruct (Hfields _ _ eq_refl) as [H1 H2].
      split; [exact H1|]. split; [exact H2|]. simpl. auto.
Qed.

Lemma parse_arn_rejoins_witness :
  exists rest,
    Sample.missing_fence
    = String.concat ":" ["arn"; "aws"; "geo"; "us-west-2"; "123456789012"; rest]
    /\ arn_tail (mkArn "arn" "aws" "geo" "us-west-2" "123456789012"
                       "fences#missing" (Some "geofence-collection")) rest.
Proof.
  destruct (parse_arn_rejoins Sample.missing_fence
              (mkArn "arn" "aws" "geo" "us-west-2" "123456789012"
                     "fences#missing" (Some "geofence-collection")) eq_refl)
    as (rest & H1 & _ & H2).
  exists rest. split; assumption.
Defined.

(** ** The responses of [handle] *)

Lemma raises_with_never P {A} (m : Py.result A) :
  raises_only [] m -> raises_with P m.
Proof. intros H s msg E. destruct (H s msg E). Qed.

Lemma raises_with_ok P {A} (a : A) : raises_with P (Py.Ok a).
Proof. intros s m H. discriminate H. Qed.

Lemma raises_with_lambda (P : Z -> string -> Prop) {A} status msg :
  P status msg ->
  raises_with P (Py.Raise (A:=A) (Py.LambdaException status msg)).
Proof. intros HP s m H. inversion H; subst. exact HP. Qed.

Lemma raises_with_bind P {A B} (m : Py.result A) (k : A -> Py.result B) :
  raises_with P m -> (forall a, raises_with P (k a)) ->
  raises_with P (mbind k m).
Proof.
  intros Hm Hk. destruct m as [a|e]; cbn.
  - apply Hk.
  - intros s msg H. inversion H; subst. now apply (Hm s msg).
Qed.

Lemma raises_with_mapM P {A B} (f : A -> Py.result B) l :
  (forall x, raises_with P (f x)) -> raises_with P (Clean.mapM f l).
Proof.
  intros Hf. induction l as [|x l IH]; simpl.
  - apply raises_with_ok.
  - apply raises_with_bind; [apply Hf|]. intros y.
    apply raises_with_bind; [exact IH|]. intros r. apply raises_with_ok.
Qed.

Lemma raises_with_foldM P {A B} (f : B -> A -> Py.result B) l : forall b,
  (forall b x, raises_with P (f b x)) -> raises_with P (foldM f b l).
Proof.
  induction l as [|x l IH]; intros b Hf; simpl.
  - apply raises_with_ok.
  - apply raises_with_bind; [apply Hf|]. intros b'. now apply IH.
Qed.

Lemma raises_with_or_invalid (P : Z -> string -> Prop) {A} prefix
  (m : Py.result A) :
  (forall reason, P 400 (prefix +:+ reason)) ->
  raises_with P (or_invalid prefix m).
Proof.
  intros HP. unfold or_invalid. destruct m as [a|e].
  - apply raises_with_ok.
  - apply raises_with_lambda, HP.
Qed.

(** Walks through a computation; what raises no [LambdaException] at all
    is left to [raises]. *)
Ltac catalogue :=
  lazymatch goal with
  | |- raises_with _ (mbind _ _) =>
      apply raises_with_bind; [catalogue | intros ?; catalogue]
  | |- raises_with _ (Py.Ok _) => apply raises_with_ok
  | |- raises_with _ (Py.Raise (Py.LambdaException _ _)) =>
      apply raises_with_lambda; constructor
  | |- raises_with _ (or_invalid _ _) =>
      apply raises_with_or_invalid; intros ?; constructor
  | |- raises_with _ (Clean.mapM _ _) =>
      apply raises_with_mapM; intros ?; catalogue
  | |- raises_with _ (foldM _ _ _) =>
      apply raises_with_foldM; intros ? ?; catalogue
  | |- raises_with _ (if ?b then _ else _) => destruct b; catalogue
  | |- raises_with _ (match ?x with _ => _ end) => destruct x; catalogue
  | |- _ => apply raises_with_never; raises
  end.

Lemma prefetch_geofences_catalogue env areas :
  raises_with ErrorResponse (prefetch_geofences env areas).
Proof. unfold prefetch_geofences, arn_of_area, fetch_resource. catalogue. Qed.

Lemma get_exclusion_areas_catalogue env areas geofences :
  raises_with ErrorResponse (get_exclusion_areas env areas geofences).
Proof.
  unfold get_exclusion_areas, exclusion_area, resolve_arn. catalogue.
Qed.

Lemma handle_try_catalogue env event :
  raises_with ErrorResponse (handle_try env event).
Proof.
  unfold handle_try, request_point.
  repeat (apply raises_with_bind;
          [first [apply prefetch_geofences_catalogue
                 |apply get_exclusion_areas_catalogue
                 |catalogue]
          |intros ?]).
  catalogue.
Qed.

Lemma handle_try_success env event :
  returns_only (fun r => statusCode r = 200 /\ headers r = success_headers)
               (handle_try env event).
Proof. unfold handle_try. returns. Qed.

(** X18.  Every response of [handle] is one of two kinds.  A success has
    status 200 and the two headers [Access-Control-Allow-Origin: *] and
    [Content-Type: application/geo+json].  An error has the one header
    [Access-Control-Allow-Origin: *], the body [{"Error": message}], and
    a status and message from this list: 404 [No route found.]; 400
    [Only one of {Circle, Polygon, Arn} may be provided per Area.],
    [Unrecognized service: ...], [Invalid Circle area: ...],
    [Invalid Polygon area: ...]; 500 [Unable to fetch geofence (...)],
    [Unable to pre-fetch geofences (... / ...)].  So every response
    carries the CORS header. *)
Theorem handle_responses :
  forall (env : Env) (event : Json.value) (r : Response),
    handle env event = Py.Ok r ->
    In ("Access-Control-Allow-Origin", "*") (headers r)
    /\ ((statusCode r = 200 /\ headers r = success_headers)
        \/ (exists message,
               ErrorResponse (statusCode r) message
               /\ headers r = cors
               /\ body r = error_body message)).
Proof.
  intros env event r H. unfold handle in H.
  pose proof (handle_try_catalogue env event) as Hraise.
  pose proof (handle_try_success env event) as Hret.
  destruct (handle_try env event) as [r0|[status message|kind message]];
    [| |discriminate H]; inversion H; subst; clear H.
  - destruct (Hret r eq_refl) as [Hs Hh]. rewrite Hh.
    split; [now left|]. left. split; [exact Hs|reflexivity].
  - simpl. split; [now left|]. right. exists message.
    split; [now apply Hraise|]. split; reflexivity.
Qed.

Lemma handle_responses_witness :
  In ("Access-Control-Allow-Origin", "*") cors.
Proof.
  apply (handle_responses Sample.env
           (Sample.make_request_event Sample.invalid_request)
           (mkResponse 400 cors (error_body only_one))).
  vm_compute. reflexivity.
Defined.

(** ** The exclusion branch, row by row *)

Lemma remap_none s rows : remap_missing_nodes s [] rows = rows.
Proof.
  unfold remap_missing_nodes. revert s.
  induction rows as [|[[a b] k] rows IH]; intros s; [reflexivity|].
  cbn [index_map remap mem existsb]. specialize (IH s).
  destruct (index_map (remap []) rows s) as [rest c]. simpl in *.
  now rewrite IH.
Qed.

Lemma reindex_own (L : list EdgeRow) :
  List.map (fun ri => reindex (fst ri) (snd ri)) (combine L (List.map index L))
  = L.
Proof.
  induction L as [|r L IH]; [reflexivity|]. simpl. rewrite IH.
  destruct r; reflexivity.
Qed.

Lemma make_nodes_old max (r : EdgeRow) :
  above max (e_u r) = false -> above max (e_v r) = false ->
  make_nodes max r = Py.Ok (None, None).
Proof. intros Hu Hv. unfold make_nodes. now rewrite Hu, Hv. Qed.

Lemma make_nodes_none max (L : list EdgeRow) :
  (forall r, In r L -> above max (e_u r) = false /\ above max (e_v r) = false) ->
  Clean.mapM (make_nodes max) L = Py.Ok (List.map (fun _ => (None, None)) L).
Proof.
  induction L as [|r L IH]; intros H; [reflexivity|].
  cbn [Clean.mapM].
  destruct (H r (or_introl eq_refl)) as [Hu Hv].
  rewrite (make_nodes_old _ _ Hu Hv).
  cbn [mbind result_bind Py.bind].
  rewrite IH by (intros; apply H; now right). reflexivity.
Qed.

Lemma column_none {A} name (l : list EdgeRow) :
  column name (List.map (fun _ => @None A) l)
  = Py.Raise (Py.PyError "KeyError" name).
Proof.
  unfold column.
  assert (existsb (fun c : option A => match c with
                                       | Some _ => true
                                       | None => false
                                       end)
            (List.map (fun _ => None) l) = false) as ->; [|reflexivity].
  induction l; simpl; auto.
Qed.

Lemma removed_nodes_eq env exclusion_areas :
  List.map n_osmid
    (List.filter (fun n => is_empty (n_geometry n))
       (List.map (clip_node env exclusion_areas) (nodes env)))
  = removed_nodes env exclusion_areas.
Proof.
  unfold removed_nodes. induction (nodes env) as [|n ns IH]; [reflexivity|].
  simpl. destruct (is_empty (difference env (n_geometry n) exclusion_areas));
    simpl; now rewrite IH.
Qed.

Lemma above_node ns n :
  In n (List.map n_osmid ns) -> above (index_max_nodes ns) n = false.
Proof.
  intros H. unfold above. destruct (index_max_nodes ns) as [m|] eqn:E;
    [|reflexivity].
  apply in_map_iff in H. destruct H as [x [<- Hx]].
  pose proof (index_max_nodes_ge _ _ E _ Hx). now apply Z.ltb_ge.
Qed.

(** X19.  The exclusion branch needs a masked node.  If the exclusion
    areas leave every node of the graph in place (no node geometry
    becomes empty), then, on a graph whose key-0 edges run between nodes
    of the node table, no row is given a new end, the table that
    [local_edges.apply(make_nodes, axis=1)] returns has no column
    [u_geometry], and the branch fails with [KeyError: 'u_geometry'],
    however the areas cut the edges.  This is no [LambdaException], so
    [handle] does not turn it into a response. *)
Theorem specialize_needs_removed_node :
  forall (env : Env) (exclusion_areas : Geometry) (r0 : EdgeRow),
    removed_nodes env exclusion_areas = [] ->
    (forall r, In r (edges env) -> e_key r = 0 ->
       In (e_u r) (List.map n_osmid (nodes env))
       /\ In (e_v r) (List.map n_osmid (nodes env))) ->
    In r0 (edges env) -> e_key r0 = 0 ->
    specialize env exclusion_areas
    = Py.Raise (Py.PyError "KeyError" "'u_geometry'").
Proof.
  intros env E r0 Hn He Hr0 Hk0. unfold specialize.
  destruct (List.filter (fun r => e_key r =? 0) (edges env)) as [|x l] eqn:Hf.
  { exfalso. assert (In r0 []) as []. rewrite <- Hf. apply filter_In.
    split; [assumption|]. now apply Z.eqb_eq. }
  cbn [mbind result_bind Py.bind].
  rewrite removed_nodes_eq, Hn, remap_none, reindex_own.
  rewrite make_nodes_none.
  - cbn [mbind result_bind Py.bind].
    rewrite (List.map_map (fun _ : EdgeRow => (@None Coord, @None Coord)) fst).
    change (fun x : EdgeRow => fst (@None Coord, @None Coord))
      with (fun _ : EdgeRow => @None Coord).
    rewrite column_none. reflexivity.
  - intros r Hr. apply in_map_iff in Hr. destruct Hr as [r1 [<- Hr1]].
    assert (Hin : In r1 (List.filter (fun r => e_key r =? 0) (edges env)))
      by (rewrite Hf; exact Hr1).
    apply filter_In in Hin. destruct Hin as [Hin Hk]. apply Z.eqb_eq in Hk.
    destruct (He r1 Hin Hk) as [Hu Hv]. simpl.
    split; now apply above_node.
Qed.

Lemma specialize_needs_removed_node_witness :
  specialize Sample.env (Sample.excluded 14 16)
  = Py.Raise (Py.PyError "KeyError" "'u_geometry'").
Proof.
  apply (specialize_needs_removed_node Sample.env (Sample.excluded 14 16)
           (Sample.street_edge 0)).
  - reflexivity.
  - intros r Hr Hk. simpl in Hr.
    repeat (destruct Hr as [<-|Hr]; [simpl; tauto|]). destruct Hr.
  - now left.
  - reflexivity.
Defined.

Lemma reindex_geometry (A : list EdgeRow) : forall (B : list Index),
  List.length B = List.length A ->
  let L := List.map (fun ri => reindex (fst ri) (snd ri)) (combine A B) in
  List.map e_geometry L = List.map e_geometry A
  /\ List.map e_length L = List.map e_length A
  /\ List.map index L = B.
Proof.
  induction A as [|r A IH]; intros [|[[a b] k] B] Hlen; simpl in Hlen;
    try discriminate; [repeat split|].
  destruct (IH B) as (H1 & H2 & H3); [lia|].
  cbn zeta. simpl. rewrite H1, H2. unfold index at 1. simpl.
  now rewrite H3.
Qed.

(** X20.  What the exclusion branch makes of the static table, when it
    returns.  Every key-0 row of the static table is there, in order,
    none dropped: its geometry is the difference of the static geometry
    and the exclusion areas, its length the rounded metric length of that
    difference, and its index the static index with the masked nodes
    renamed by [remap_missing_nodes], the ids starting above the greatest
    node id.  The key-1 rows of the static table are not used: the
    returned table ends with the reverses of the rows just described. *)
Theorem specialize_clips_rows :
  forall (env : Env) (exclusion_areas : Geometry) (G : Graph)
         (rows : list EdgeRow),
    specialize env exclusion_areas = Py.Ok (G, rows) ->
    let static := List.filter (fun r => e_key r =? 0) (edges env) in
    exists L,
      rows = L ++ List.map reversed_row L
      /\ List.map e_geometry L
         = List.map (fun r => difference env (e_geometry r) exclusion_areas)
                    static
      /\ (forall r, In r L ->
            e_length r = round2 (utm_length env (e_geometry r)))
      /\ List.map index L
         = remap_missing_nodes
             (from_option (fun m => m + 1) 0 (index_max_nodes (nodes env)))
             (removed_nodes env exclusion_areas)
             (List.map index static).
Proof.
  intros env E G rows H static. unfold specialize in H.
  bind_ok H as clipped Ec. bind_ok H as extra Ex.
  bind_ok H as ug Eu. bind_ok H as vg Ev.
  inversion H; subst; clear H Ex Eu Ev.
  apply nonempty_map_ok in Ec. fold static in Ec. subst clipped.
  rewrite removed_nodes_eq.
  set (B := remap_missing_nodes _ _ _).
  assert (Hlen : List.length B = List.length (List.map (clip_edge env E) static)).
  { unfold B, remap_missing_nodes.
    pose proof (f_equal (@List.length _)
                  (index_map_keys (removed_nodes env E)
                     (List.map index (List.map (clip_edge env E) static))
                     (from_option (fun m => m + 1) 0
                                  (index_max_nodes (nodes env))))) as Hl.
    rewrite !List.length_map in Hl. rewrite !List.length_map. exact Hl. }
  destruct (reindex_geometry _ B Hlen) as (Hg & Hl & Hi).
  eexists. split; [reflexivity|]. split; [|split].
  - rewrite Hg, List.map_map. reflexivity.
  - intros r Hr.
    assert (Hpair : In (e_geometry r, e_length r)
                       (List.map (fun r => (e_geometry r, e_length r))
                          (List.map (clip_edge env E) static))).
    { assert (Hp : forall l : list EdgeRow,
                 List.map (fun r => (e_geometry r, e_length r)) l
                 = combine (List.map e_geometry l) (List.map e_length l)).
      { induction l as [|y l IH]; simpl; [reflexivity|]. now rewrite IH. }
      rewrite Hp, <- Hg, <- Hl, <- Hp.
      apply in_map_iff. exists r. auto. }
    apply in_map_iff in Hpair. destruct Hpair as [r1 [Heq Hr1]].
    apply in_map_iff in Hr1. destruct Hr1 as [r2 [<- _]].
    simpl in Heq. injection Heq as Hge Hle. rewrite <- Hle, <- Hge.
    reflexivity.
  - rewrite Hi. unfold B. rewrite List.map_map. f_equal.
    apply List.map_ext_in. intros r Hr. apply filter_In in Hr.
    destruct Hr as [_ Hk]. apply Z.eqb_eq in Hk.
    unfold index. simpl. now rewrite Hk.
Qed.

Lemma specialize_clips_rows_witness :
  match specialize Sample.env (Sample.excluded 8 12) with
  | Py.Ok (G, rows) =>
      exists L,
        rows = L ++ List.map reversed_row L
        /\ List.map index L = [(0, 4, 0); (5, 2, 0); (2, 3, 0)]
  | Py.Raise _ => False
  end.
Proof.
  destruct (specialize Sample.env (Sample.excluded 8 12)) as [[G rows]|e] eqn:E.
  - destruct (specialize_clips_rows _ _ _ _ E) as (L & H1 & _ & _ & H2).
    exists L. split; [exact H1|]. rewrite H2. reflexivity.
  - vm_compute in E. discriminate E.
Defined.

(** ** Areas that name a geofence *)

Lemma exclusion_area_unfold env geofences area kvs :
  Json.get area "Area" (Json.Obj []) = Py.Ok (Json.Obj kvs) ->
  exclusion_area env geofences area
  = (if negb (Nat.eqb (provided (field kvs "Circle") (field kvs "Polygon")
                                (field kvs "Arn")) 1)
     then Py.Raise (Py.LambdaException 400 only_one)
     else
       '(circle, polygon) ←
         resolve_arn geofences (field kvs "Circle") (field kvs "Polygon")
                     (field kvs "Arn");
       cs ← or_invalid "Invalid Circle area: " (circle_geometries env circle);
       ps ← or_invalid "Invalid Polygon area: " (polygon_geometries env polygon);
       Py.Ok (cs ++ ps)).
Proof. intros H. unfold exclusion_area. rewrite H. reflexivity. Qed.

Lemma provided_arn_only circle polygon a :
  Json.truthy circle = false -> Json.truthy polygon = false -> a <> "" ->
  provided circle polygon (Json.Str a) = 1%nat.
Proof.
  intros Hc Hp Ha. unfold provided. cbn [List.filter].
  rewrite Hc, Hp. cbn [Json.truthy].
  apply String.eqb_neq in Ha. rewrite Ha. reflexivity.
Qed.

Lemma truthy_arn a : a <> "" -> Json.truthy (Json.Str a) = true.
Proof. intros Ha. simpl. apply String.eqb_neq in Ha. now rewrite Ha. Qed.

(** X21.  An area that gives an ARN alone is refused in two cases, after
    the ARN was taken apart: with status 400 and the message
    [Unrecognized service: <service>] when the service of the ARN is not
    [geo], and with status 500 and the message
    [Unable to fetch geofence (<arn>)] when the service is [geo] and the
    prefetched geofences do not hold the ARN. *)
Theorem arn_area_rejected :
  forall (env : Env) (geofences : gmap string Json.value)
         (area : Json.value) (kvs : list (string * Json.value))
         (a : string) (c : ArnComponents),
    Json.get area "Area" (Json.Obj []) = Py.Ok (Json.Obj kvs) ->
    Json.truthy (field kvs "Circle") = false ->
    Json.truthy (field kvs "Polygon") = false ->
    field kvs "Arn" = Json.Str a -> a <> "" ->
    parse_arn_str a = Py.Ok c ->
    (arn_service c <> "geo" ->
     exclusion_area env geofences area
     = Py.Raise (Py.LambdaException 400
                   ("Unrecognized service: " +:+ arn_service c)))
    /\ (arn_service c = "geo" -> geofences !! a = None ->
        exclusion_area env geofences area
        = Py.Raise (Py.LambdaException 500
                      ("Unable to fetch geofence (" +:+ a +:+ ")"))).
Proof.
  intros env geofences area kvs a c Harea Hc Hp Harn Ha Hparse.
  rewrite (exclusion_area_unfold _ _ _ _ Harea), Harn.
  rewrite (provided_arn_only _ _ _ Hc Hp Ha). cbn [Nat.eqb negb].
  unfold resolve_arn. rewrite (truthy_arn a Ha).
  cbn [parse_arn]. rewrite Hparse. cbn [mbind result_bind Py.bind].
  split.
  - intros Hs. apply String.eqb_neq in Hs. rewrite Hs. reflexivity.
  - intros Hs Hnone. apply String.eqb_eq in Hs. rewrite Hs. cbn [negb].
    rewrite Hnone. reflexivity.
Qed.

Lemma arn_area_rejected_witness :
  exclusion_area Sample.env ∅ (Sample.area [("Arn", Json.Str Sample.bucket)])
  = Py.Raise (Py.LambdaException 400 "Unrecognized service: s3").
Proof.
  apply (proj1 (arn_area_rejected Sample.env ∅
                  (Sample.area [("Arn", Json.Str Sample.bucket)])
                  [("Arn", Json.Str Sample.bucket)] Sample.bucket
                  (mkArn "arn" "aws" "s3" "us-west-2" "123456789012"
                         "fences" (Some "bucket"))
                  eq_refl eq_refl eq_refl eq_refl
                  ltac:(discriminate) eq_refl)).
  discriminate.
Defined.

Lemma circle_geometries_none env circle :
  Json.truthy circle = false -> circle_geometries env circle = Py.Ok [].
Proof. intros H. unfold circle_geometries. now rewrite H. Qed.

Lemma polygon_geometries_none env polygon :
  Json.truthy polygon = false -> polygon_geometries env polygon = Py.Ok [].
Proof. intros H. unfold polygon_geometries. now rewrite H. Qed.

Lemma exclusion_area_polygon env geofences p :
  Json.truthy p = true ->
  exclusion_area env geofences (area_of "Polygon" p)
  = (ps ← or_invalid "Invalid Polygon area: " (polygon_geometries env p);
     Py.Ok ps).
Proof.
  intros Hp. unfold area_of.
  rewrite (exclusion_area_unfold env geofences
             (Json.Obj [("Area", Json.Obj [("Polygon", p)])])
             [("Polygon", p)] eq_refl).
  unfold field, provided. cbn [Json.assoc String.eqb Ascii.eqb Bool.eqb
                                from_option id List.filter Json.truthy].
  rewrite Hp. cbn [List.length Nat.eqb negb resolve_arn Json.truthy].
  cbn [mbind result_bind Py.bind].
  rewrite (circle_geometries_none env Json.Null eq_refl).
  cbn [or_invalid mbind result_bind Py.bind].
  destruct (or_invalid "Invalid Polygon area: " (polygon_geometries env p));
    reflexivity.
Qed.

Lemma exclusion_area_circle env geofences c :
  Json.truthy c = true ->
  exclusion_area env geofences (area_of "Circle" c)
  = (cs ← or_invalid "Invalid Circle area: " (circle_geometries env c);
     Py.Ok cs).
Proof.
  intros Hc. unfold area_of.
  rewrite (exclusion_area_unfold env geofences
             (Json.Obj [("Area", Json.Obj [("Circle", c)])])
             [("Circle", c)] eq_refl).
  unfold field, provided. cbn [Json.assoc String.eqb Ascii.eqb Bool.eqb
                                from_option id List.filter Json.truthy].
  rewrite Hc. cbn [List.length Nat.eqb negb resolve_arn Json.truthy].
  cbn [mbind result_bind Py.bind].
  rewrite (polygon_geometries_none env Json.Null eq_refl).
  destruct (or_invalid "Invalid Circle area: " (circle_geometries env c)) as [cs|e];
    cbn [or_invalid mbind result_bind Py.bind]; [|reflexivity].
  now rewrite List.app_nil_r.
Qed.

(** X22.  An area that names a geofence stands for the geometry of the
    geofence.  Let the area give an ARN alone, of the service [geo], and
    let the prefetched geofences hold an entry for it.  If the geometry
    of the entry has a polygon, the area resolves as the area
    [{"Area": {"Polygon": p}}] does, with the same geometries or the same
    error; if it has no polygon but a circle, as the area
    [{"Area": {"Circle": c}}] does.  The polygon goes first: a circle
    beside it is not looked at. *)
Theorem geofence_area_resolves :
  forall (env : Env) (geofences : gmap string Json.value)
         (area : Json.value) (kvs : list (string * Json.value))
         (a : string) (c : ArnComponents) (geofence geometry p : Json.value),
    Json.get area "Area" (Json.Obj []) = Py.Ok (Json.Obj kvs) ->
    Json.truthy (field kvs "Circle") = false ->
    Json.truthy (field kvs "Polygon") = false ->
    field kvs "Arn" = Json.Str a -> a <> "" ->
    parse_arn_str a = Py.Ok c -> arn_service c = "geo" ->
    geofences !! a = Some geofence ->
    Json.getitem geofence "Geometry" = Py.Ok geometry ->
    Json.get geometry "Polygon" Json.Null = Py.Ok p ->
    (Json.truthy p = true ->
     exclusion_area env geofences area
     = exclusion_area env ∅ (area_of "Polygon" p))
    /\ (forall circle,
           Json.truthy p = false ->
           Json.get geometry "Circle" Json.Null = Py.Ok circle ->
           Json.truthy circle = true ->
           exclusion_area env geofences area
           = exclusion_area env ∅ (area_of "Circle" circle)).
Proof.
  intros env geofences area kvs a c geofence geometry p
         Harea Hc Hp Harn Ha Hparse Hs Hfence Hgeom Hpoly.
  rewrite (exclusion_area_unfold _ _ _ _ Harea), Harn.
  rewrite (provided_arn_only _ _ _ Hc Hp Ha). cbn [Nat.eqb negb].
  unfold resolve_arn. rewrite (truthy_arn a Ha).
  cbn [parse_arn]. rewrite Hparse. cbn [mbind result_bind Py.bind].
  apply String.eqb_eq in Hs. rewrite Hs. cbn [negb].
  rewrite Hfence, Hgeom. cbn [mbind result_bind Py.bind].
  rewrite Hpoly. cbn [mbind result_bind Py.bind].
  split.
  - intros Ht. rewrite Ht. cbn [mbind result_bind Py.bind].
    rewrite (circle_geometries_none env _ Hc).
    cbn [or_invalid mbind result_bind Py.bind].
    rewrite (exclusion_area_polygon env ∅ p Ht).
    destruct (or_invalid "Invalid Polygon area: " (polygon_geometries env p));
      reflexivity.
  - intros circle Ht Hci Htc. rewrite Ht, Hci.
    cbn [mbind result_bind Py.bind]. rewrite Htc.
    cbn [mbind result_bind Py.bind].
    rewrite (polygon_geometries_none env _ Hp).
    rewrite (exclusion_area_circle env ∅ circle Htc).
    destruct (or_invalid "Invalid Circle area: " (circle_geometries env circle))
      as [cs|e]; cbn [or_invalid mbind result_bind Py.bind]; [|reflexivity].
    now rewrite List.app_nil_r.
Qed.

Lemma geofence_area_resolves_witness :
  exclusion_area Sample.env {[ Sample.known_fence := Sample.fence ]}
    (Sample.area [("Arn", Json.Str Sample.known_fence)])
  = exclusion_area Sample.env ∅ (area_of "Polygon" (Sample.rectangle 8 12)).
Proof.
  apply (proj1 (geofence_area_resolves Sample.env
                  {[ Sample.known_fence := Sample.fence ]}
                  (Sample.area [("Arn", Json.Str Sample.known_fence)])
                  [("Arn", Json.Str Sample.known_fence)] Sample.known_fence
                  (mkArn "arn" "aws" "geo" "us-west-2" "123456789012"
                         "fences#fence-1" (Some "geofence-collection"))
                  Sample.fence
                  (Json.Obj [("Polygon", Sample.rectangle 8 12)])
                  (Sample.rectangle 8 12)
                  eq_refl eq_refl eq_refl eq_refl
                  ltac:(discriminate) eq_refl eq_refl
                  (lookup_singleton_eq _ _) eq_refl eq_refl)).
  reflexivity.
Defined.

(** ** [prefetch_geofences] *)

Lemma arn_of_area_none x : without_arn x -> arn_of_area x = Py.Ok None.
Proof.
  intros (kvs & members & -> & Harea & Harn). unfold arn_of_area.
  cbn [Json.get]. rewrite Harea. cbn [mbind result_bind Py.bind Json.contains].
  rewrite Harn. reflexivity.
Qed.

Lemma mapM_none {A B} (f : A -> Py.result (option B)) l :
  (forall x, In x l -> f x = Py.Ok None) ->
  Clean.mapM f l = Py.Ok (List.map (fun _ => None) l).
Proof.
  induction l as [|x l IH]; intros H; [reflexivity|].
  cbn [Clean.mapM]. rewrite (H x) by now left.
  cbn [mbind result_bind Py.bind].
  rewrite IH by (intros; apply H; now right). reflexivity.
Qed.

Lemma omap_none {A B} (l : list A) :
  omap id (List.map (fun _ => @None B) l) = [].
Proof. induction l; simpl; auto. Qed.

(** X23.  Without an ARN nothing is fetched: when no area of the request
    carries the key ["Arn"], [prefetch_geofences] returns the empty
    [dict], whatever the geofence collections hold and whether or not
    they can be reached. *)
Theorem prefetch_without_arn :
  forall (env : Env) (xs : list Json.value),
    (forall x, In x xs -> without_arn x) ->
    prefetch_geofences env (Json.Arr xs) = Py.Ok ∅.
Proof.
  intros env xs H. unfold prefetch_geofences.
  cbn [py_iter mbind result_bind Py.bind].
  rewrite mapM_none by (intros x Hx; apply arn_of_area_none, H, Hx).
  cbn [mbind result_bind Py.bind]. rewrite omap_none. reflexivity.
Qed.

Lemma prefetch_without_arn_witness :
  prefetch_geofences Sample.env
    (Json.Arr [Sample.area [("Polygon", Sample.rectangle 14 16)];
               Sample.area [("Circle", Sample.circle)]])
  = Py.Ok ∅.
Proof.
  apply prefetch_without_arn. intros x [<-|[<-|[]]].
  - exists [("Area", Json.Obj [("Polygon", Sample.rectangle 14 16)])],
      [("Polygon", Sample.rectangle 14 16)].
    repeat split.
  - exists [("Area", Json.Obj [("Circle", Sample.circle)])],
      [("Circle", Sample.circle)].
    repeat split.
Defined.

Lemma string_app_inj (p x y : string) : p +:+ x = p +:+ y -> x = y.
Proof.
  induction p as [|c p IH]; simpl; intros H; [exact H|].
  inversion H. now apply IH.
Qed.

(** The entries of a collection, stored under the keys [f id]. *)
Lemma stored_lookup (f : string -> string) (es : list (string * Json.value)) :
  forall (m : gmap string Json.value) k e,
    foldl (fun g e => <[f (fst e) := snd e]> g) m es !! k = Some e ->
    m !! k = Some e \/ exists id, In (id, e) es /\ k = f id.
Proof.
  induction es as [|[id0 e0] es IH]; intros m k e H; [now left|].
  simpl in H. apply IH in H. destruct H as [H|(id & Hin & ->)].
  - destruct (decide (k = f id0)) as [->|Hne].
    + rewrite lookup_insert_eq in H. inversion H; subst.
      right. exists id0. split; [now left|reflexivity].
    + rewrite lookup_insert_ne in H by congruence. now left.
  - right. exists id. split; [now right|reflexivity].
Qed.

Lemma stored_other (f : string -> string) (es : list (string * Json.value)) :
  forall (m : gmap string Json.value) k,
    (forall id, In id (List.map fst es) -> k <> f id) ->
    foldl (fun g e => <[f (fst e) := snd e]> g) m es !! k = m !! k.
Proof.
  induction es as [|[id0 e0] es IH]; intros m k H; [reflexivity|].
  simpl. rewrite IH by (intros id Hid; apply H; now right).
  apply lookup_insert_ne. intros E. apply (H id0); [now left|].
  now rewrite E.
Qed.

Lemma stored_member (f : string -> string) (es : list (string * Json.value)) :
  (forall x y, f x = f y -> x = y) ->
  List.NoDup (List.map fst es) ->
  forall (m : gmap string Json.value) id e,
    In (id, e) es ->
    foldl (fun g e => <[f (fst e) := snd e]> g) m es !! f id = Some e.
Proof.
  intros Hinj. induction es as [|[id0 e0] es IH]; intros Hnd m id e Hin;
    [destruct Hin|].
  simpl in Hnd. apply List.NoDup_cons_iff in Hnd. destruct Hnd as [Hni Hnd].
  simpl. destruct Hin as [Hin|Hin].
  - inversion Hin; subst. rewrite stored_other.
    + apply lookup_insert_eq.
    + intros id' Hid' E. apply Hinj in E. subst id'. contradiction.
  - now apply IH.
Qed.

(** X24.  One geofence ARN.  For a request whose one area names a
    geofence, [prefetch_geofences] lists the collection of the ARN (the
    resource up to [#]) in the region of the ARN.  When the listing
    succeeds, the [dict] it returns holds the listed entries and nothing
    else, each under the ARN up to [#], then [#] and the entry's id, so
    that, the ids being distinct, every entry is found under its own ARN.
    When the listing fails with a [ClientError], the failure becomes a
    [LambdaException] with status 500 and the message
    [Unable to pre-fetch geofences (<region> / <collection>)]; any other
    failure of the listing is passed on as it is. *)
Theorem prefetch_one_collection :
  forall (env : Env) (kvs members : list (string * Json.value))
         (a : string) (c : ArnComponents),
    Json.assoc "Area" kvs = Some (Json.Obj members) ->
    Json.assoc "Arn" members = Some (Json.Str a) ->
    parse_arn_str a = Py.Ok c ->
    let region := arn_region c in
    let collection := before hash (arn_resource c) in
    let key := fun id => before hash a +:+ "#" +:+ id in
    match list_geofences env region collection with
    | Entries es =>
        exists m,
          prefetch_geofences env (Json.Arr [Json.Obj kvs]) = Py.Ok m
          /\ (forall k e, m !! k = Some e ->
                exists id, In (id, e) es /\ k = key id)
          /\ (List.NoDup (List.map fst es) ->
              forall id e, In (id, e) es -> m !! key id = Some e)
    | ClientError =>
        prefetch_geofences env (Json.Arr [Json.Obj kvs])
        = Py.Raise (Py.LambdaException 500
            ("Unable to pre-fetch geofences ("
               +:+ region +:+ " / " +:+ collection +:+ ")"))
    | Failure kind message =>
        prefetch_geofences env (Json.Arr [Json.Obj kvs])
        = Py.Raise (Py.PyError kind message)
    end.
Proof.
  intros env kvs members a c Harea Harn Hparse region collection key.
  assert (Hfound : arn_of_area (Json.Obj kvs) = Py.Ok (Some (a, c))).
  { unfold arn_of_area. cbn [Json.get Json.getitem]. rewrite Harea.
    cbn [from_option id mbind result_bind Py.bind Json.contains Json.getitem].
    rewrite Harn. cbn [mbind result_bind Py.bind parse_arn].
    rewrite Hparse. reflexivity. }
  assert (Hrun : prefetch_geofences env (Json.Arr [Json.Obj kvs])
                 = fetch_resource env region ∅ (collection, before hash a)).
  { unfold prefetch_geofences.
    cbn [py_iter mbind result_bind Py.bind Clean.mapM].
    rewrite Hfound. unfold group_arn, region, collection. simpl.
    destruct (fetch_resource env (arn_region c) ∅
                (before hash (arn_resource c), before hash a));
      reflexivity. }
  rewrite Hrun. unfold fetch_resource. cbn [fst snd].
  destruct (list_geofences env region collection) as [es| |kind message];
    try reflexivity.
  eexists. split; [reflexivity|]. split.
  - intros k e H. apply (stored_lookup key) in H.
    destruct H as [H|H]; [|exact H]. rewrite lookup_empty in H. discriminate H.
  - intros Hnd id e Hin. apply (stored_member key); try assumption.
    intros x y E. unfold key in E. now apply string_app_inj, string_app_inj in E.
Qed.

Lemma prefetch_one_collection_witness :
  exists m,
    prefetch_geofences Sample.env
      (Json.Arr [Sample.area [("Arn", Json.Str Sample.known_fence)]])
    = Py.Ok m
    /\ m !! Sample.known_fence = Some Sample.fence.
Proof.
  destruct (prefetch_one_collection Sample.env
              [("Area", Json.Obj [("Arn", Json.Str Sample.known_fence)])]
              [("Arn", Json.Str Sample.known_fence)] Sample.known_fence
              (mkArn "arn" "aws" "geo" "us-west-2" "123456789012"
                     "fences#fence-1" (Some "geofence-collection"))
              eq_refl eq_refl eq_refl)
    as (m & Hm & _ & Hfind).
  exists m. split; [exact Hm|].
  assert (Hnd : List.NoDup (List.map fst [("fence-1", Sample.fence)])).
  { simpl. apply List.NoDup_cons; [intros []|apply List.NoDup_nil]. }
  exact (Hfind Hnd "fence-1" Sample.fence (or_introl eq_refl)).
Defined.

(** ** Areas that cannot be built *)

Lemma truthy_obj members : members <> [] -> Json.truthy (Json.Obj members) = true.
Proof. destruct members; [congruence|reflexivity]. Qed.

Lemma truthy_arr xs : xs <> [] -> Json.truthy (Json.Arr xs) = true.
Proof. destruct xs; [congruence|reflexivity]. Qed.

(** X25.  An area whose geometry cannot be built is refused with status
    400 and the reason in the message: a circle without ["Center"] with
    [Invalid Circle area: 'Center'] (the text of the [KeyError]), and a
    polygon that the [Polygon] constructor rejects with
    [Invalid Polygon area: ] followed by the text of the constructor's
    exception, whatever its class. *)
Theorem invalid_geometry_rejected :
  forall (env : Env) (geofences : gmap string Json.value),
    (forall members,
        members <> [] -> Json.assoc "Center" members = None ->
        exclusion_area env geofences (area_of "Circle" (Json.Obj members))
        = Py.Raise (Py.LambdaException 400 "Invalid Circle area: 'Center'"))
    /\ (forall rings kind message,
           rings <> [] ->
           shapely_Polygon env rings = Py.Throws kind message ->
           exclusion_area env geofences (area_of "Polygon" (Json.Arr rings))
           = Py.Raise (Py.LambdaException 400
                         ("Invalid Polygon area: " +:+ message))).
Proof.
  intros env geofences. split.
  - intros members Hne Hcenter.
    rewrite (exclusion_area_circle _ _ _ (truthy_obj _ Hne)).
    unfold circle_geometries. rewrite (truthy_obj _ Hne).
    cbn [Json.getitem]. rewrite Hcenter. reflexivity.
  - intros rings kind message Hne Hthrow.
    rewrite (exclusion_area_polygon _ _ _ (truthy_arr _ Hne)).
    unfold polygon_geometries. rewrite (truthy_arr _ Hne).
    cbn [py_iter mbind result_bind Py.bind]. rewrite Hthrow. reflexivity.
Qed.

(** ** How many geometries an area gives *)

Lemma or_invalid_ok {A} prefix (m : Py.result A) a :
  or_invalid prefix m = Py.Ok a -> m = Py.Ok a.
Proof. destruct m; simpl; intros H; [exact H|discriminate H]. Qed.

Lemma circle_geometries_length env circle cs :
  circle_geometries env circle = Py.Ok cs ->
  (List.length cs <= 1)%nat /\ (cs <> [] -> Json.truthy circle = true).
Proof.
  unfold circle_geometries. destruct (Json.truthy circle); intros H.
  - bind_ok H as c Ec. bind_ok H as args Ea. bind_ok H as center Ep.
    bind_ok H as radius Er. bind_ok H as g Eg. inversion H; subst.
    split; [simpl; lia|reflexivity].
  - inversion H; subst. split; [simpl; lia|congruence].
Qed.

Lemma polygon_geometries_length env polygon ps :
  polygon_geometries env polygon = Py.Ok ps ->
  (List.length ps <= 1)%nat /\ (ps <> [] -> Json.truthy polygon = true).
Proof.
  unfold polygon_geometries. destruct (Json.truthy polygon); intros H.
  - bind_ok H as args Ea. bind_ok H as g Eg. inversion H; subst.
    split; [simpl; lia|reflexivity].
  - inversion H; subst. split; [simpl; lia|congruence].
Qed.

(** After the geofence is looked up, a circle and a polygon are never
    both given. *)
Lemma resolve_arn_one geofences circle polygon arn circle' polygon' :
  provided circle polygon arn = 1%nat ->
  resolve_arn geofences circle polygon arn = Py.Ok (circle', polygon') ->
  Json.truthy circle' && Json.truthy polygon' = false.
Proof.
  unfold provided, resolve_arn. cbn [List.filter].
  destruct (Json.truthy circle) eqn:Hc, (Json.truthy polygon) eqn:Hp,
    (Json.truthy arn) eqn:Ha; cbn [List.length]; intros H1 H;
    try discriminate H1.
  - inversion H; subst. now rewrite Hc, Hp.
  - inversion H; subst. now rewrite Hc, Hp.
  - bind_ok H as c Ec.
    destruct (negb (String.eqb (arn_service c) "geo")); [discriminate H|].
    destruct arn; try discriminate H.
    destruct (geofences !! s) as [geofence|]; [|discriminate H].
    bind_ok H as geometry Eg. bind_ok H as p Epoly.
    destruct (Json.truthy p) eqn:Htp.
    + inversion H; subst. now rewrite Hc.
    + bind_ok H as ci Eci. destruct (Json.truthy ci) eqn:Htc;
        inversion H; subst; rewrite ?Hc, ?Hp, ?Htc; reflexivity.
Qed.

Lemma exclusion_area_length env geofences area gs :
  exclusion_area env geofences area = Py.Ok gs -> (List.length gs <= 1)%nat.
Proof.
  unfold exclusion_area. intros H.
  bind_ok H as _area Ea. bind_ok H as circle Ec.
  bind_ok H as polygon Ep. bind_ok H as arn Er.
  destruct (Nat.eqb_spec (provided circle polygon arn) 1) as [E|E];
    [|discriminate H].
  cbn [negb] in H. bind_ok H as cp Ecp. destruct cp as [circle' polygon'].
  bind_ok H as cs Ecs. bind_ok H as ps Eps. inversion H; subst.
  apply or_invalid_ok in Ecs, Eps.
  destruct (circle_geometries_length _ _ _ Ecs) as [Hlc Htc].
  destruct (polygon_geometries_length _ _ _ Eps) as [Hlp Htp].
  pose proof (resolve_arn_one _ _ _ _ _ _ E Ecp) as Hone.
  rewrite List.length_app.
  destruct cs as [|g cs]; [simpl; lia|].
  destruct ps as [|h ps]; [simpl in *; lia|].
  rewrite Htc, Htp in Hone by discriminate. discriminate Hone.
Qed.

Lemma mapM_lengths {A B} (f : A -> Py.result (list B)) (n : nat) l out :
  (forall x ys, f x = Py.Ok ys -> (List.length ys <= n)%nat) ->
  Clean.mapM f l = Py.Ok out ->
  (List.length (List.concat out) <= n * List.length l)%nat.
Proof.
  intros Hf. revert out. induction l as [|x l IH]; simpl; intros out H.
  - inversion H; subst. simpl. lia.
  - destruct (f x) as [ys|e] eqn:Hx; [|discriminate]. cbn in H.
    destruct (Clean.mapM f l) as [r|e]; [|discriminate]. cbn in H.
    inversion H; subst. simpl. rewrite List.length_app.
    specialize (IH r eq_refl). specialize (Hf _ _ Hx). lia.
Qed.

(** X26.  An area gives one geometry at most.  When
    [get_exclusion_areas] returns, its result is a collection with no more
    members than the request has areas: an area contributes the geometry
    of its circle or of its polygon, never both, and nothing when it names
    a geofence whose geometry has neither. *)
Theorem exclusion_areas_at_most_one_each :
  forall (env : Env) (areas : Json.value)
         (geofences : gmap string Json.value) (g : Geometry),
    get_exclusion_areas env areas geofences = Py.Ok g ->
    exists xs gs,
      py_iter areas = Py.Ok xs
      /\ g = GeometryCollection gs
      /\ (List.length gs <= List.length xs)%nat.
Proof.
  intros env areas geofences g H. unfold get_exclusion_areas in H.
  bind_ok H as xs Ex. bind_ok H as gss Eg. inversion H; subst.
  exists xs, (List.concat gss). split; [reflexivity|]. split; [reflexivity|].
  pose proof (mapM_lengths _ 1 _ _ (exclusion_area_length env geofences) Eg).
  lia.
Qed.

Lemma exclusion_areas_at_most_one_each_witness :
  exists xs gs,
    py_iter (Json.Arr [Sample.area [("Polygon", Sample.rectangle 14 16)];
                       Sample.area [("Polygon", Sample.rectangle 8 12)]])
    = Py.Ok xs
    /\ GeometryCollection
         [Sample.excluded_polygon 14 16; Sample.excluded_polygon 8 12]
       = GeometryCollection gs
    /\ (List.length gs <= List.length xs)%nat.
Proof.
  apply (exclusion_areas_at_most_one_each Sample.env
           (Json.Arr [Sample.area [("Polygon", Sample.rectangle 14 16)];
                      Sample.area [("Polygon", Sample.rectangle 8 12)]])
           ∅).
  vm_compute. reflexivity.
Defined.

(** ** A request without areas, from end to end *)

(** X27.  A request without avoidance areas is routed on the static
    graph: no geofence is fetched, the exclusion branch is not entered,
    the origin is split into the static graph and table, the destination
    into the graph and table that the first split returned, and the path
    is sought between the two new ids in the graph after both splits.
    Without a path the response has status 404 and the message
    [No route found.]; with a path it has status 200, the two success
    headers and the route as GeoJSON. *)
Theorem handle_routes :
  forall (env : Env) (event : Json.value) (s : string)
         (body o d avoid : Json.value) (origin destination : Geometry)
         (N1 N2 : Z) (edges1 edges2 : list EdgeRow) (t1 t2 : Geometry)
         (G1 G2 : Graph) (route : option (list Z)),
    Json.getitem event "body" = Py.Ok (Json.Str s) ->
    json_loads env s = Py.Returns body ->
    Json.getitem body "Origin" = Py.Ok o ->
    request_point env o = Py.Ok origin ->
    Json.getitem body "Destination" = Py.Ok d ->
    request_point env d = Py.Ok destination ->
    Json.get body "Avoid" (Json.Obj []) = Py.Ok avoid ->
    Json.get avoid "Areas" (Json.Arr []) = Py.Ok (Json.Arr []) ->
    split_graph (utm_distance env) (line_locate_point env) (interpolate env)
                (substring env) (utm_length env)
                (original_graph env) origin (edges env)
    = Py.Ok (N1, edges1, t1, G1) ->
    split_graph (utm_distance env) (line_locate_point env) (interpolate env)
                (substring env) (utm_length env) G1 destination edges1
    = Py.Ok (N2, edges2, t2, G2) ->
    shortest_path env G2 N1 N2 = Py.Returns route ->
    handle env event
    = match route with
      | None =>
          Py.Ok (mkResponse 404 cors (error_body "No route found."))
      | Some nodes =>
          match route_to_json env G2 nodes with
          | Py.Returns text => Py.Ok (mkResponse 200 success_headers text)
          | Py.Throws kind message => Py.Raise (Py.PyError kind message)
          end
      end.
Proof.
  intros env event s body o d avoid origin destination N1 N2 edges1 edges2
         t1 t2 G1 G2 route Hraw Hbody Ho Horigin Hd Hdest Havoid Hareas
         H1 H2 Hroute.
  unfold handle, handle_try.
  rewrite Hraw. cbn [mbind result_bind Py.bind].
  rewrite Hbody. cbn [mbind result_bind Py.bind Py.call].
  rewrite Ho. cbn [mbind result_bind Py.bind].
  rewrite Horigin. cbn [mbind result_bind Py.bind].
  rewrite Hd. cbn [mbind result_bind Py.bind].
  rewrite Hdest. cbn [mbind result_bind Py.bind].
  rewrite Havoid. cbn [mbind result_bind Py.bind].
  rewrite Hareas. cbn [mbind result_bind Py.bind].
  change (prefetch_geofences env (Json.Arr [])) with (Py.Ok (A:=gmap string Json.value) ∅).
  cbn [mbind result_bind Py.bind].
  change (get_exclusion_areas env (Json.Arr []) ∅)
    with (Py.Ok (GeometryCollection [])).
  cbn [mbind result_bind Py.bind is_empty forallb negb].
  rewrite H1. cbn [mbind result_bind Py.bind].
  rewrite H2. cbn [mbind result_bind Py.bind].
  rewrite Hroute. cbn [mbind result_bind Py.bind Py.call].
  destruct route as [nodes|]; [|reflexivity].
  destruct (route_to_json env G2 nodes); reflexivity.
Qed.

Lemma handle_routes_witness :
  handle Sample.env_without_path
         (Json.Obj [("body",
                     Json.Str (Json.dumps Sample.float_repr Sample.plain_request))])
  = Py.Ok (mkResponse 404 cors (error_body "No route found.")).
Proof.
  destruct (split_graph Sample.utm_distance Sample.line_locate_point
              Sample.interpolate Sample.substring Sample.axis_length
              (graph_from_gdfs Sample.nodes Sample.edges)
              (Point [(4%Q, 3%Q)]) Sample.edges)
    as [[[[N1 edges1] t1] G1]|e] eqn:E1; [|vm_compute in E1; discriminate E1].
  destruct (split_graph Sample.utm_distance Sample.line_locate_point
              Sample.interpolate Sample.substring Sample.axis_length
              G1 (Point [(26%Q, (-2)%Q)]) edges1)
    as [[[[N2 edges2] t2] G2]|e] eqn:E2.
  - apply (handle_routes Sample.env_without_path
             (Json.Obj [("body",
                         Json.Str (Json.dumps Sample.float_repr
                                              Sample.plain_request))])
             (Json.dumps Sample.float_repr Sample.plain_request)
             Sample.plain_request (Sample.point 4 3) (Sample.point 26 (-2))
             (Json.Obj []) (Point [(4%Q, 3%Q)]) (Point [(26%Q, (-2)%Q)])
             N1 N2 edges1 edges2 t1 t2 G1 G2 None
             eq_refl eq_refl eq_refl eq_refl eq_refl eq_refl eq_refl eq_refl
             E1 E2 eq_refl).
  - exfalso. vm_compute in E1. inversion E1; subst.
    vm_compute in E2. discriminate E2.
Defined.

End HandlerFacts.
